(** * mpmath, [ctx_mp.py]: the multiprecision context

    A shallow embedding of the parts of [mpmath/ctx_mp.py] that carry the
    precision state, the number tower ([mpf], [mpc], [mpi]), the conversion
    of foreign values, the scoped precision managers and the adaptive
    hypergeometric summation driver [hypsum].

    - Python exceptions are values of [exn]; a computation that may raise
      returns an [outcome].
    - The low-level arithmetic lives in [libmp], which [ctx_mp.py] only
      imports; it enters as the operations of the classes [Kernel] and
      [HypKernel].  [Ref] is a small realisation of them on which the
      definitions run.
    - The mutable state is passed explicitly: the settings of the context
      ([context]), the manager objects by address ([world]), the memo of
      summators and the dictionaries of [hypsum] (as [gmap]).
    - Loops and recursion that the source does not bound are given fuel:
      the passes of the [while] loop of [hypsum], the recursion depth of
      [isnpint]. *)

From stdpp Require Import base option list gmap strings.
From Stdlib Require Import ZArith Lia Ascii.

Local Open Scope Z_scope.
Set Warnings "-register-all".

(** ** Exceptions and outcomes *)

Inductive exn : Type :=
| TypeError (msg : string)
| ValueError (msg : string)
| ZeroDivisionError (msg : string)
| AssertionError (msg : string)
| NotImplementedError (msg : string)
| ComplexResult (msg : string)
    (* libmp.ComplexResult: the real kernel function has no real value *)
| HypsumValueError (prec wp : Z)
    (* ValueError(ctx._hypsum_msg % (prec, prec+extraprec)) *)
| FormatError
    (* the % formatting of a message failed on its argument *)
| IndexError
| AttributeError (name : string)
| UnboundLocalError (name : string)
| RecursionLimit
    (* RuntimeError: maximum recursion depth exceeded *)
| KernelError (msg : string).
    (* anything else a libmp routine raises *)

Inductive outcome (A : Type) : Type :=
| Return (a : A)
| Raise (e : exn).
Arguments Return {A} a.
Arguments Raise {A} e.

#[global] Instance outcome_ret : MRet outcome := fun A a => Return a.
#[global] Instance outcome_bind : MBind outcome :=
  fun A B f m => match m with Return a => f a | Raise e => Raise e end.
#[global] Instance outcome_fmap : FMap outcome :=
  fun A B f m => match m with Return a => Return (f a) | Raise e => Raise e end.

Definition is_raise {A} (o : outcome A) : bool :=
  match o with Raise _ => true | Return _ => false end.

(** ** Kernel values *)

(** A kernel real is the tuple [(sign, man, exp, bc)] that the source
    unpacks with [sign, man, exp, bc = x._mpf_]. *)
Record mpf_t : Type := Mpf { sign : Z; man : Z; exp : Z; bc : Z }.

#[global] Instance mpf_eq_dec : EqDecision mpf_t.
Proof. solve_decision. Defined.

Definition mpc_t : Type := (mpf_t * mpf_t)%type.
Definition mpi_t : Type := (mpf_t * mpf_t)%type.

Inductive rounding : Type :=
| round_nearest | round_floor | round_ceiling | round_down | round_up.

(** A native float: a dyadic number [m * 2^e] or one of the specials. *)
Inductive pyfloat : Type :=
| FFin (m e : Z)
| FInf
| FNegInf
| FNan.

(** The Python values the modelled methods receive and return.  The
    last four are the instances of the context's own classes
    ([ctx.types]); [Vconstant] holds the function [func(prec, rounding)]
    of a lazily evaluated constant. *)
Inductive pyval : Type :=
| PyInt (n : Z)
| PyFloat (f : pyfloat)
| PyComplex (re im : pyfloat)
| PyStr (s : string)
| PyTuple (l : list pyval)
| PyMpq (p q : Z)
| PyNone
| PyObject (name : string)
| Vmpf (v : mpf_t)
| Vmpc (v : mpc_t)
| Vmpi (v : mpi_t)
| Vconstant (func : Z -> rounding -> mpf_t).

(** ** The kernel interface

    Everything [ctx_mp.py] imports from [libmp] (and the truth value of a
    [rational.mpq]) and that the modelled methods call. *)
Class Kernel : Type := {
  fzero : mpf_t;
  fone : mpf_t;
  finf : mpf_t;
  fninf : mpf_t;
  fnan : mpf_t;
  from_int : Z -> mpf_t;
  from_float : pyfloat -> mpf_t;
  from_str : string -> Z -> rounding -> outcome mpf_t;
  from_rational : Z -> Z -> Z -> mpf_t;
  from_man_exp : Z -> Z -> Z -> rounding -> mpf_t;
  normalize : Z -> Z -> Z -> Z -> Z -> rounding -> mpf_t;
  mpf_pos : mpf_t -> Z -> rounding -> mpf_t;
  mpc_pos : mpc_t -> Z -> rounding -> mpc_t;
  mpi_pos : mpi_t -> Z -> mpi_t;
  mpf_lt : mpf_t -> mpf_t -> bool;
  mpf_gt : mpf_t -> mpf_t -> bool;
  mpf_le : mpf_t -> mpf_t -> bool;
  mpf_ge : mpf_t -> mpf_t -> bool;
  mpc_is_nonzero : mpc_t -> bool;
  bitcount : Z -> Z;
  prec_to_dps : Z -> Z;
  dps_to_prec : Z -> Z;
  (* bool(x) of a rational.mpq (p, q) *)
  mpq_nonzero : Z -> Z -> bool;
  (* the [except] branch of [convert] on a string that [from_str]
     rejected with [e]: the fraction, complex and interval literals,
     read at the working precision; re-raises [e] otherwise *)
  convert_literal : string -> Z -> rounding -> exn -> outcome pyval;
  (* ctx._default_hyper_maxprec, inherited from StandardBaseContext *)
  default_hyper_maxprec : Z -> Z;
  (* x <= y as the interpreter decides it when neither operand is a
     native integer or a tower instance with a method for it *)
  default_le : pyval -> pyval -> bool
}.

(** ** The context *)

(** The settings of an [MPContext].  The source keeps the precision twice,
    in [ctx._prec] and in the shared list [ctx._prec_rounding]. *)
Record context : Type := Context {
  _prec : Z;
  _dps : Z;
  _prec_rounding : Z * rounding;
  trap_complex : bool
}.

Section Context.
Context {K : Kernel}.

(** [default]:
<<
    ctx._prec = ctx._prec_rounding[0] = 53
    ctx._dps = 15
    ctx.trap_complex = False
>> *)
Definition default (ctx : context) : context :=
  {| _prec := 53; _dps := 15;
     _prec_rounding := (53, snd (_prec_rounding ctx));
     trap_complex := false |}.

(** [__init__] sets [_prec_rounding = [53, round_nearest]] and calls
    [default]. *)
Definition init_context : context :=
  default {| _prec := 53; _dps := 15;
             _prec_rounding := (53, round_nearest);
             trap_complex := false |}.

(** [set_prec]:
<<
    ctx._prec = ctx._prec_rounding[0] = max(1, int(n))
    ctx._dps = prec_to_dps(n)
>> *)
Definition set_prec (ctx : context) (n : Z) : context :=
  {| _prec := Z.max 1 n;
     _dps := prec_to_dps n;
     _prec_rounding := (Z.max 1 n, snd (_prec_rounding ctx));
     trap_complex := trap_complex ctx |}.

(** [set_dps]:
<<
    ctx._prec = ctx._prec_rounding[0] = dps_to_prec(n)
    ctx._dps = max(1, int(n))
>> *)
Definition set_dps (ctx : context) (n : Z) : context :=
  {| _prec := dps_to_prec n;
     _dps := Z.max 1 n;
     _prec_rounding := (dps_to_prec n, snd (_prec_rounding ctx));
     trap_complex := trap_complex ctx |}.

(** The properties [prec] and [dps] read [_prec] and [_dps]. *)
Definition prec (ctx : context) : Z := _prec ctx.
Definition dps (ctx : context) : Z := _dps ctx.

Definition set_trap_complex (ctx : context) (b : bool) : context :=
  {| _prec := _prec ctx; _dps := _dps ctx;
     _prec_rounding := _prec_rounding ctx; trap_complex := b |}.

(** Keyword arguments [prec], [dps], [rounding] of one call. *)
Record prec_kwargs : Type := PrecKwargs {
  kw_prec : option Z;
  kw_dps : option Z;
  kw_rounding : option rounding
}.

Definition no_kwargs : prec_kwargs :=
  {| kw_prec := None; kw_dps := None; kw_rounding := None |}.

(** The override shared by [_mpf.__new__] and by the functions of
    [def_mp_function]:
<<
    prec, rounding = ctx._prec_rounding
    if kwargs:
        prec = kwargs.get('prec', prec)
        if 'dps' in kwargs:
            prec = dps_to_prec(kwargs['dps'])
        rounding = kwargs.get('rounding', rounding)
>> *)
Definition prec_rounding_of (ctx : context) (kw : prec_kwargs)
  : Z * rounding :=
  let '(prec0, rounding0) := _prec_rounding ctx in
  let prec1 := from_option id prec0 (kw_prec kw) in
  let prec2 := match kw_dps kw with
               | Some d => dps_to_prec d
               | None => prec1
               end in
  (prec2, from_option id rounding0 (kw_rounding kw)).

End Context.

(** ** Conversion and construction of tower values *)

Section Tower.
Context {K : Kernel}.

Definition make_mpf (v : mpf_t) : pyval := Vmpf v.
Definition make_mpc (v : mpc_t) : pyval := Vmpc v.
Definition make_mpi (v : mpi_t) : pyval := Vmpi v.

(** [type(x) in ctx.types], with [ctx.types = [mpf, mpc, mpi, constant]]. *)
Definition in_ctx_types (x : pyval) : bool :=
  match x with
  | Vmpf _ | Vmpc _ | Vmpi _ | Vconstant _ => true
  | _ => false
  end.

(** [x._mpf_] where [hasattr(x, '_mpf_')]: the stored tuple of an [mpf],
    and for a constant the property, [self.func(prec, rounding)] at the
    context's [_prec_rounding]. *)
Definition get_mpf (ctx : context) (x : pyval) : option mpf_t :=
  match x with
  | Vmpf v => Some v
  | Vconstant func =>
      Some (func (fst (_prec_rounding ctx)) (snd (_prec_rounding ctx)))
  | _ => None
  end.

(** [MPContext.convert(x, strings=True)].  Native integers, floats and
    complex numbers go through the kernel constructors that take no
    precision; an [mpq] and a string are read at [ctx._prec_rounding].
<<
    if type(x) in ctx.types: return x
    if isinstance(x, int_types): return ctx.make_mpf(from_int(x))
    if isinstance(x, float): return ctx.make_mpf(from_float(x))
    if isinstance(x, complex):
        return ctx.make_mpc((from_float(x.real), from_float(x.imag)))
    prec, rounding = ctx._prec_rounding
    if isinstance(x, rational.mpq):
        p, q = x
        return ctx.make_mpf(from_rational(p, q, prec))
    if strings and isinstance(x, basestring):
        try:
            _mpf_ = from_str(x, prec, rounding)
            return ctx.make_mpf(_mpf_)
        except Exception, e: ...
    ...
    raise TypeError("cannot create mpf from " + repr(x))
>>
    The values of the model have no [_mpmath_] method, and its only
    carriers of [_mpf_] and [_mpc_] are the instances of [ctx.types]. *)
Definition convert (ctx : context) (x : pyval) (strings : bool)
  : outcome pyval :=
  if in_ctx_types x then Return x else
  match x with
  | PyInt n => Return (make_mpf (from_int n))
  | PyFloat f => Return (make_mpf (from_float f))
  | PyComplex re im => Return (make_mpc (from_float re, from_float im))
  | _ =>
    let '(prec, rounding) := _prec_rounding ctx in
    match x with
    | PyMpq p q => Return (make_mpf (from_rational p q prec))
    | PyStr s =>
        if strings then
          match from_str s prec rounding with
          | Return v => Return (make_mpf v)
          | Raise e => convert_literal s prec rounding e
          end
        else Raise (TypeError "cannot create mpf from")
    | _ => Raise (TypeError "cannot create mpf from")
    end
  end.

(** [_mpf.mpf_convert_arg]. *)
Definition mpf_convert_arg (x : pyval) (prec : Z) (rounding : rounding)
  : outcome mpf_t :=
  match x with
  | PyInt n => Return (from_int n)
  | PyFloat f => Return (from_float f)
  | PyStr s => from_str s prec rounding
  | Vconstant func => Return (func prec rounding)
  | Vmpf v => Return v
  | _ => Raise (TypeError "cannot create mpf from")
  end.

Definition as_int (x : pyval) : option Z :=
  match x with PyInt n => Some n | _ => None end.

(** [_mpf.__new__(cls, val, **kwargs)], called as [ctx.mpf(val, ...)]:
<<
    prec, rounding = cls.context._prec_rounding
    if kwargs: ...
    if type(val) is cls:
        sign, man, exp, bc = val._mpf_
        if (not man) and exp:
            return val
        v = new(cls)
        v._mpf_ = normalize(sign, man, exp, bc, prec, rounding)
        return v
    elif type(val) is tuple:
        if len(val) == 2:
            v = new(cls)
            v._mpf_ = from_man_exp(val[0], val[1], prec, rounding)
            return v
        if len(val) == 4:
            sign, man, exp, bc = val
            v = new(cls)
            v._mpf_ = normalize(sign, MPZ(man), exp, bc, prec, rounding)
            return v
        raise ValueError
    else:
        v = new(cls)
        v._mpf_ = mpf_pos(cls.mpf_convert_arg(val, prec, rounding), prec, rounding)
        return v
>> *)
Definition mpf_new (ctx : context) (val : pyval) (kw : prec_kwargs)
  : outcome mpf_t :=
  let '(prec, rounding) := prec_rounding_of ctx kw in
  match val with
  | Vmpf v =>
      (* type(val) is cls *)
      if (man v =? 0) && negb (exp v =? 0) then Return v
      else Return (normalize (sign v) (man v) (exp v) (bc v) prec rounding)
  | PyTuple l =>
      match l with
      | [a; b] =>
          match as_int a, as_int b with
          | Some m, Some e => Return (from_man_exp m e prec rounding)
          | _, _ => Raise (KernelError "from_man_exp")
          end
      | [a; b; c; d] =>
          match as_int a, as_int b, as_int c, as_int d with
          | Some s, Some m, Some e, Some n =>
              Return (normalize s m e n prec rounding)
          | _, _, _, _ => Raise (KernelError "normalize")
          end
      | _ => Raise (ValueError EmptyString)
      end
  | _ =>
      v ← mpf_convert_arg val prec rounding;
      Return (mpf_pos v prec rounding)
  end.

(** [MPContext.isnan]. *)
Definition isnan (ctx : context) (x : pyval) : bool :=
  match get_mpf ctx x with
  | None => false
  | Some v => bool_decide (v = fnan)
  end.

(** [MPContext.isinf]. *)
Definition isinf (ctx : context) (x : pyval) : bool :=
  match get_mpf ctx x with
  | None => false
  | Some v => bool_decide (v = finf) || bool_decide (v = fninf)
  end.

(** [_mpi.__new__(cls, a, b=None)]:
<<
    if isinstance(a, ctx.mpi):
        return a
    if b is None:
        b = a
    a = ctx.mpf(a, rounding=round_floor)
    b = ctx.mpf(b, rounding=round_ceiling)
    if ctx.isnan(a) or ctx.isnan(b):
        a, b = ctx.ninf, ctx.inf
    assert a <= b, "endpoints must be properly ordered"
    return ctx.make_mpi((a._mpf_, b._mpf_))
>>
    [a <= b] on two [mpf] is [mpf_le(a._mpf_, b._mpf_)]. *)
Definition with_rounding (r : rounding) : prec_kwargs :=
  {| kw_prec := None; kw_dps := None; kw_rounding := Some r |}.

(** The upper endpoint argument: [b], or [a] when [b is None]. *)
Definition upper_argument (a : pyval) (b : option pyval) : pyval :=
  match b with
  | None | Some PyNone => a
  | Some b => b
  end.

Definition mpi_new (ctx : context) (a : pyval) (b : option pyval)
  : outcome pyval :=
  match a with
  | Vmpi _ => Return a
  | _ =>
      let b := upper_argument a b in
      a1 ← mpf_new ctx a (with_rounding round_floor);
      b1 ← mpf_new ctx b (with_rounding round_ceiling);
      let '(a2, b2) :=
        if isnan ctx (Vmpf a1) || isnan ctx (Vmpf b1)
        then (fninf, finf) else (a1, b1) in
      if mpf_le a2 b2 then Return (make_mpi (a2, b2))
      else Raise (AssertionError "endpoints must be properly ordered")
  end.

(** The truth value [bool(x)], as [not x] uses it. *)
Definition truth (ctx : context) (x : pyval) : bool :=
  match x with
  | PyInt n => negb (n =? 0)
  | PyFloat f =>
      match f with FFin m _ => negb (m =? 0) | _ => true end
  | PyComplex re im =>
      negb (match re with FFin 0 _ => true | _ => false end
            && match im with FFin 0 _ => true | _ => false end)
  | PyStr s => match s with EmptyString => false | _ => true end
  | PyTuple l => match l with [] => false | _ => true end
  | PyMpq p q => mpq_nonzero p q
  | PyNone => false
  | PyObject _ => true
  | Vmpf v => negb (bool_decide (v = fzero))
  | Vmpc v => mpc_is_nonzero v
  | Vmpi _ => true
  | Vconstant func =>
      negb (bool_decide
        (func (fst (_prec_rounding ctx)) (snd (_prec_rounding ctx)) = fzero))
  end.

(** [MPContext.isnpint].  The method calls itself on [x.real] and on
    [ctx.convert(x)]; [depth] is the interpreter's recursion limit.
<<
    if not x:
        return True
    if hasattr(x, '_mpf_'):
        sign, man, exp, bc = x._mpf_
        return sign and exp >= 0
    if hasattr(x, '_mpc_'):
        return not x.imag and ctx.isnpint(x.real)
    if type(x) in int_types:
        return x <= 0
    if isinstance(x, ctx.mpq):
        # XXX: WRONG
        p, q = x
        if not p:
            return True
        return (not (q % p)) and p <= 0
    return ctx.isnpint(ctx.convert(x))
>> *)
Fixpoint isnpint (depth : nat) (ctx : context) (x : pyval) : outcome bool :=
  match depth with
  | O => Raise RecursionLimit
  | S depth' =>
    if negb (truth ctx x) then Return true else
    match get_mpf ctx x with
    | Some v => Return (negb (sign v =? 0) && (exp v >=? 0))
    | None =>
      match x with
      | Vmpc (re, im) =>
          if truth ctx (make_mpf im) then Return false
          else isnpint depth' ctx (make_mpf re)
      | PyInt n => Return (n <=? 0)
      | PyMpq p q =>
          if p =? 0 then Return true
          else Return ((q mod p =? 0) && (p <=? 0))
      | _ =>
          y ← convert ctx x true;
          isnpint depth' ctx y
      end
    end
  end.

(** ** Functions defined by [def_mp_function] *)

Definition mpf_fun : Type := mpf_t -> Z -> rounding -> outcome mpf_t.
Definition mpc_fun : Type := mpc_t -> Z -> rounding -> outcome mpc_t.
Definition mpi_fun : Type := mpi_t -> Z -> outcome mpi_t.

(** Calling [mpc_f] when it is [None] is a [TypeError]. *)
Definition call_mpc_f (mpc_f : option mpc_fun) (z : mpc_t) (prec : Z)
    (rounding : rounding) : outcome mpc_t :=
  match mpc_f with
  | Some g => g z prec rounding
  | None => Raise (TypeError "'NoneType' object is not callable")
  end.

(** The closure [f(x, **kwargs)] that [def_mp_function] returns:
<<
    if type(x) not in ctx.types:
        x = ctx.convert(x)
    prec, rounding = ctx._prec_rounding
    if kwargs: ...
    if hasattr(x, '_mpf_'):
        try:
            return ctx.make_mpf(mpf_f(x._mpf_, prec, rounding))
        except ComplexResult:
            # Handle propagation to complex
            if ctx.trap_complex:
                raise
            return ctx.make_mpc(mpc_f((x._mpf_, fzero), prec, rounding))
    elif hasattr(x, '_mpc_'):
        return ctx.make_mpc(mpc_f(x._mpc_, prec, rounding))
    elif hasattr(x, '_mpi_'):
        if mpi_f:
            return ctx.make_mpi(mpi_f(x._mpi_, prec))
    raise NotImplementedError("%s of a %s" % (name, type(x)))
>> *)
Definition def_mp_function (mpf_f : mpf_fun) (mpc_f : option mpc_fun)
    (mpi_f : option mpi_fun)
    (ctx : context) (x : pyval) (kw : prec_kwargs) : outcome pyval :=
  x ← (if in_ctx_types x then Return x else convert ctx x true);
  let '(prec, rounding) := prec_rounding_of ctx kw in
  match get_mpf ctx x with
  | Some v =>
      match mpf_f v prec rounding with
      | Return r => Return (make_mpf r)
      | Raise (ComplexResult msg) =>
          if trap_complex ctx then Raise (ComplexResult msg)
          else make_mpc <$> call_mpc_f mpc_f (v, fzero) prec rounding
      | Raise e => Raise e
      end
  | None =>
      match x with
      | Vmpc z => make_mpc <$> call_mpc_f mpc_f z prec rounding
      | Vmpi i =>
          match mpi_f with
          | Some g => make_mpi <$> g i prec
          | None => Raise (NotImplementedError "of a mpi")
          end
      | _ => Raise (NotImplementedError "of a")
      end
  end.

(** [_mpf.__pow__] on two [mpf] operands, the code of [mpf_pow_same]:
<<
    try:
        val = mpf_pow(sval, tval, prec, rounding) ; obj = new(mpf); ...
    except ComplexResult:
        if mpf.context.trap_complex:
            raise
        mpc = mpf.context.mpc
        val = mpc_pow((sval, fzero), (tval, fzero), prec, rounding) ; ...
>> *)
Definition mpf_pow_same
    (mpf_pow : mpf_t -> mpf_t -> Z -> rounding -> outcome mpf_t)
    (mpc_pow : mpc_t -> mpc_t -> Z -> rounding -> outcome mpc_t)
    (ctx : context) (sval tval : mpf_t) : outcome pyval :=
  let '(prec, rounding) := _prec_rounding ctx in
  match mpf_pow sval tval prec rounding with
  | Return val => Return (make_mpf val)
  | Raise (ComplexResult msg) =>
      if trap_complex ctx then Raise (ComplexResult msg)
      else make_mpc <$> mpc_pow (sval, fzero) (tval, fzero) prec rounding
  | Raise e => Raise e
  end.

(** ** Ordering comparisons *)

Inductive cmp_op : Type := Lt_op | Le_op | Gt_op | Ge_op.

(** The reflected operator ([_Py_SwappedOp]). *)
Definition swapped_op (op : cmp_op) : cmp_op :=
  match op with
  | Lt_op => Gt_op | Le_op => Ge_op | Gt_op => Lt_op | Ge_op => Le_op
  end.

Inductive cmp_result : Type :=
| CmpBool (b : bool)
| CmpNotImplemented.

Definition cmp_method : Type := context -> pyval -> pyval -> outcome cmp_result.

Inductive tower_class : Type := mpf_class | mpc_class | mpi_class.

(** The class of an instance; a [constant] is an [_mpf] subclass and
    inherits its comparison methods. *)
Definition class_of (x : pyval) : option tower_class :=
  match x with
  | Vmpf _ | Vconstant _ => Some mpf_class
  | Vmpc _ => Some mpc_class
  | Vmpi _ => Some mpi_class
  | _ => None
  end.

(** [_mpf.mpf_convert_rhs], on the operands [_cmp] hands it (those without
    [_mpf_]).  A complex operand is turned into an [mpc] object, which the
    kernel comparison then cannot unpack. *)
Definition mpf_convert_rhs (ctx : context) (x : pyval)
  : outcome (option mpf_t) :=
  match x with
  | PyInt n => Return (Some (from_int n))
  | PyFloat f => Return (Some (from_float f))
  | PyComplex _ _ | Vmpc _ => Raise (KernelError "mpc operand")
  | PyMpq p q => Return (Some (from_rational p q (prec ctx)))
  | _ => Return None
  end.

(** [_mpf._cmp(s, t, func)]. *)
Definition _cmp (func : mpf_t -> mpf_t -> bool) : cmp_method :=
  fun ctx s t =>
  match get_mpf ctx s with
  | None => Raise (TypeError "unbound method")
  | Some sv =>
      match get_mpf ctx t with
      | Some tv => Return (CmpBool (func sv tv))
      | None =>
          t' ← mpf_convert_rhs ctx t;
          match t' with
          | None => Return CmpNotImplemented
          | Some tv => Return (CmpBool (func sv tv))
          end
      end
  end.

(** [_mpc._compare] and [_mpi._compare]. *)
Definition mpc_compare : cmp_method :=
  fun _ _ _ =>
    Raise (TypeError "no ordering relation is defined for complex numbers").

Definition mpi_compare : cmp_method :=
  fun _ _ _ =>
    Raise (TypeError "no ordering relation is defined for intervals").

(** The comparison methods found in each class body.  [_mpf] defines all
    four.  [_mpc] and [_mpi] bind
<<
    __gt__ = _compare
    __le__ = _compare
    __gt__ = _compare
    __ge__ = _compare
>>
    so that [__lt__] is not an attribute of either class. *)
Definition lookup_method (c : tower_class) (op : cmp_op)
  : option cmp_method :=
  match c, op with
  | mpf_class, Lt_op => Some (_cmp mpf_lt)
  | mpf_class, Gt_op => Some (_cmp mpf_gt)
  | mpf_class, Le_op => Some (_cmp mpf_le)
  | mpf_class, Ge_op => Some (_cmp mpf_ge)
  | mpc_class, Lt_op => None
  | mpc_class, _ => Some mpc_compare
  | mpi_class, Lt_op => None
  | mpi_class, _ => Some mpi_compare
  end.

(** One side of a rich comparison: the method of [self]'s class for [op],
    or [NotImplemented] when the class has none. *)
Definition half_richcompare (ctx : context) (self other : pyval)
    (op : cmp_op) : outcome cmp_result :=
  match class_of self with
  | None => Return CmpNotImplemented
  | Some c =>
      match lookup_method c op with
      | None => Return CmpNotImplemented
      | Some m => m ctx self other
      end
  end.

(** The interpreter's evaluation of [v op w] on class instances: the
    method of the left operand, and when that is missing or returns
    [NotImplemented], the reflected method of the right operand.  A
    result [CmpNotImplemented] leaves the comparison to the interpreter's
    default ordering. *)
Definition rich_compare (ctx : context) (v w : pyval) (op : cmp_op)
  : outcome cmp_result :=
  r ← half_richcompare ctx v w op;
  match r with
  | CmpBool b => Return (CmpBool b)
  | CmpNotImplemented => half_richcompare ctx w v (swapped_op op)
  end.

End Tower.

(** ** Precision managers *)

(** A [PrecisionManager] object.  [origp] is the attribute that
    [__enter__] writes on the object itself; the decorator form keeps the
    saved precision in a local variable instead. *)
Record PrecisionManager : Type := {
  precfun : option (Z -> Z);
  dpsfun : option (Z -> Z);
  normalize_output : bool;
  origp : option Z
}.

(** The context methods that create the managers. *)
Definition extraprec (n : Z) (normalize_output : bool) : PrecisionManager :=
  {| precfun := Some (fun p => p + n); dpsfun := None;
     normalize_output := normalize_output; origp := None |}.

Definition extradps (n : Z) (normalize_output : bool) : PrecisionManager :=
  {| precfun := None; dpsfun := Some (fun d => d + n);
     normalize_output := normalize_output; origp := None |}.

Definition workprec (n : Z) (normalize_output : bool) : PrecisionManager :=
  {| precfun := Some (fun _ => n); dpsfun := None;
     normalize_output := normalize_output; origp := None |}.

Definition workdps (n : Z) (normalize_output : bool) : PrecisionManager :=
  {| precfun := None; dpsfun := Some (fun _ => n);
     normalize_output := normalize_output; origp := None |}.

(** The mutable state a block of code runs in: the context and the
    manager objects, by address. *)
Record world : Type := World {
  w_ctx : context;
  w_heap : gmap nat PrecisionManager
}.

(** A piece of Python code: it ends normally or raises, and leaves a
    world behind in both cases. *)
Definition comp (A : Type) : Type := world -> outcome A * world.

Section Managers.
Context {K : Kernel}.

Definition set_ctx (w : world) (c : context) : world :=
  {| w_ctx := c; w_heap := w_heap w |}.

Definition set_origp (m : PrecisionManager) (p : Z) : PrecisionManager :=
  {| precfun := precfun m; dpsfun := dpsfun m;
     normalize_output := normalize_output m; origp := Some p |}.

(** Binding a fresh manager object, as in [m = ctx.extraprec(n)]. *)
Definition new_manager (m : PrecisionManager) (w : world) : nat * world :=
  let l := fresh (dom (w_heap w)) in
  (l, {| w_ctx := w_ctx w; w_heap := <[l := m]> (w_heap w) |}).

(** The common first step of [__enter__] and of the decorated call:
<<
    if self.precfun:
        self.ctx.prec = self.precfun(self.ctx.prec)
    else:
        self.ctx.dps = self.dpsfun(self.ctx.dps)
>> *)
Definition apply_manager (m : PrecisionManager) : comp unit :=
  fun w =>
  match precfun m with
  | Some f => (Return (), set_ctx w (set_prec (w_ctx w) (f (prec (w_ctx w)))))
  | None =>
      match dpsfun m with
      | Some g =>
          (Return (), set_ctx w (set_dps (w_ctx w) (g (dps (w_ctx w)))))
      | None => (Raise (TypeError "'NoneType' object is not callable"), w)
      end
  end.

(** [PrecisionManager.__enter__]:
<<
    self.origp = self.ctx.prec
    if self.precfun: ...
>> *)
Definition __enter__ (self : nat) : comp unit :=
  fun w =>
  match w_heap w !! self with
  | None => (Raise (AttributeError "precfun"), w)
  | Some m =>
      let m' := set_origp m (prec (w_ctx w)) in
      apply_manager m'
        {| w_ctx := w_ctx w; w_heap := <[self := m']> (w_heap w) |}
  end.

(** [PrecisionManager.__exit__]:
<<
    self.ctx.prec = self.origp
    return False
>> *)
Definition __exit__ (self : nat) : comp bool :=
  fun w =>
  match w_heap w !! self ≫= origp with
  | None => (Raise (AttributeError "origp"), w)
  | Some p => (Return false, set_ctx w (set_prec (w_ctx w) p))
  end.

(** The statement [with mgr: body].  [__exit__] runs whether the body
    ends normally or raises; it returns [False], so an exception of the
    body is raised again after it. *)
Definition with_stmt {A} (mgr : nat) (body : comp A) : comp A :=
  fun w =>
  match __enter__ mgr w with
  | (Raise e, w1) => (Raise e, w1)
  | (Return _, w1) =>
      let '(r, w2) := body w1 in
      match __exit__ mgr w2 with
      | (Raise e, w3) => (Raise e, w3)
      | (Return suppress, w3) => (r, w3)
      end
  end.

(** Unary plus on a value, at the context's current precision. *)
Definition py_pos (ctx : context) (v : pyval) : outcome pyval :=
  let '(prec, rounding) := _prec_rounding ctx in
  match v with
  | Vmpf x => Return (Vmpf (mpf_pos x prec rounding))
  | Vconstant func => Return (Vmpf (mpf_pos (func prec rounding) prec rounding))
  | Vmpc z => Return (Vmpc (mpc_pos z prec rounding))
  | Vmpi i => Return (Vmpi (mpi_pos i (_prec ctx)))
  | PyInt _ | PyFloat _ | PyComplex _ _ => Return v
  | _ => Raise (TypeError "bad operand type for unary +")
  end.

Fixpoint mapM {A B} (f : A -> outcome B) (l : list A) : outcome (list B) :=
  match l with
  | [] => Return []
  | a :: l' => b ← f a; bs ← mapM f l'; Return (b :: bs)
  end.

(** The function [g] that [PrecisionManager.__call__(f)] returns:
<<
    orig = self.ctx.prec
    try:
        if self.precfun:
            self.ctx.prec = self.precfun(self.ctx.prec)
        else:
            self.ctx.dps = self.dpsfun(self.ctx.dps)
        if self.normalize_output:
            v = f(...)
            if type(v) is tuple:
                return tuple([+a for a in v])
            return +v
        else:
            return f(...)
    finally:
        self.ctx.prec = orig
>> *)
Definition decorated (self : nat) (f : comp pyval) : comp pyval :=
  fun w =>
  match w_heap w !! self with
  | None => (Raise (AttributeError "precfun"), w)
  | Some m =>
      let orig := prec (w_ctx w) in
      let '(r, w') :=
        match apply_manager m w with
        | (Raise e, w1) => (Raise e, w1)
        | (Return _, w1) =>
            if normalize_output m then
              match f w1 with
              | (Raise e, w2) => (Raise e, w2)
              | (Return (PyTuple l), w2) =>
                  (PyTuple <$> mapM (py_pos (w_ctx w2)) l, w2)
              | (Return v, w2) => (py_pos (w_ctx w2) v, w2)
              end
            else f w1
        end in
      (r, set_ctx w' (set_prec (w_ctx w') orig))
  end.

(** The precision a manager object holds in [self.origp], if any. *)
Definition saved_precision (w : world) (mgr : nat) : option Z :=
  w_heap w !! mgr ≫= origp.

(** Code that assigns [ctx.prec = n] and code that raises. *)
Definition assign_prec (n : Z) : comp unit :=
  fun w => (Return (), set_ctx w (set_prec (w_ctx w) n)).

Definition pass : comp unit := fun w => (Return (), w).

Definition raise {A} (e : exn) : comp A := fun w => (Raise e, w).

End Managers.

(** ** Distances to the nearest integer *)

(** An integer or an infinite [mpf]: [nint_distance] returns [ctx.ninf]
    for an exact integer, and [hypsum] computes with the result. *)
Inductive xint : Type :=
| Fin (z : Z)
| PInf
| NInf
| XNan.

Definition xint_neg (a : xint) : xint :=
  match a with
  | Fin z => Fin (- z) | PInf => NInf | NInf => PInf | XNan => XNan
  end.

Definition xint_abs (a : xint) : xint :=
  match a with
  | Fin z => Fin (Z.abs z) | PInf | NInf => PInf | XNan => XNan
  end.

Definition xint_add (a b : xint) : xint :=
  match a, b with
  | Fin x, Fin y => Fin (x + y)
  | XNan, _ | _, XNan => XNan
  | PInf, NInf | NInf, PInf => XNan
  | PInf, _ | _, PInf => PInf
  | NInf, _ | _, NInf => NInf
  end.

(** [a < b]; every comparison with a nan is false. *)
Definition xint_ltb (a b : xint) : bool :=
  match a, b with
  | Fin x, Fin y => x <? y
  | XNan, _ | _, XNan => false
  | _, NInf => false
  | NInf, _ => true
  | PInf, _ => false
  | Fin _, PInf => true
  end.

(** The builtin [max(a, b)]: [b] when [b > a], else [a]. *)
Definition xint_max (a b : xint) : xint :=
  if xint_ltb a b then b else a.

Section NintDistance.
Context {K : Kernel}.

(** The part of [nint_distance] after the dispatch on the type of [x]. *)
Definition nint_distance_re (re : mpf_t) (im_dist : xint)
  : outcome (Z * xint) :=
  let shift := exp re + bc re in
  let man := if sign re =? 0 then man re else - man re in
  if shift <? -1 then Return (0, xint_max (Fin shift) im_dist)
  else if negb (man =? 0) then
    if exp re >=? 0 then
      Return (Z.shiftl man (exp re), xint_max NInf im_dist)
    else
      let xfixed :=
        if shift >=? 0 then Z.shiftl man shift else Z.shiftr man (- shift) in
      let n1 := Z.shiftr xfixed (bc re) in
      let n2 := - Z.shiftr (- xfixed) (bc re) in
      let dist1 := Z.abs (xfixed - Z.shiftl n1 (bc re)) in
      let dist2 := Z.abs (xfixed - Z.shiftl n2 (bc re)) in
      let '(re_dist, n) :=
        if dist1 <? dist2 then (dist1, n1) else (dist2, n2) in
      let re_dist :=
        if negb (re_dist =? 0) then Fin (bitcount re_dist - bc re)
        else NInf in
      Return (n, xint_max re_dist im_dist)
  else if bool_decide (re = fzero) then Return (0, xint_max NInf im_dist)
  else Raise (ValueError "requires a finite number").

(** [nint_distance] on an [mpf], an [mpc], a native integer or an [mpq]. *)
Definition nint_distance_num (ctx : context) (x : pyval)
  : option (outcome (Z * xint)) :=
  match get_mpf ctx x with
  | Some re => Some (nint_distance_re re NInf)
  | None =>
    match x with
    | Vmpc (re, im) =>
        Some (if negb (man im =? 0)
              then nint_distance_re re (Fin (exp im + bc im))
              else if bool_decide (im = fzero) then nint_distance_re re NInf
              else Raise (ValueError "requires a finite number"))
    | PyInt n => Some (Return (n, NInf))
    | PyMpq p q =>
        Some (if q =? 0
              then Raise (ZeroDivisionError "integer division or modulo by zero")
              else
                let n := p / q in
                let r := p mod q in
                if 2 * r >=? q then
                  Return (n + 1,
                          Fin (bitcount (Z.abs (p - (n + 1) * q)) - bitcount q))
                else if r =? 0 then Return (n, NInf)
                else Return (n, Fin (bitcount (Z.abs (p - n * q)) - bitcount q)))
    | _ => None
    end
  end.

(** [MPContext.nint_distance]: anything else is converted first. *)
Definition nint_distance (ctx : context) (x : pyval) : outcome (Z * xint) :=
  match nint_distance_num ctx x with
  | Some r => r
  | None =>
      y ← convert ctx x true;
      match y with
      | Vmpf _ | Vmpc _ | Vconstant _ =>
          from_option id (Raise (TypeError "requires an mpf/mpc"))
                      (nint_distance_num ctx y)
      | _ => Raise (TypeError "requires an mpf/mpc")
      end
  end.

End NintDistance.

(** ** The hypergeometric summation driver *)

(** The value [hypsum] sums at and the value the summator returns: a
    kernel real (type tag ['R'], [have_complex] false) or a kernel complex
    (type tag ['C'], [have_complex] true). *)
Inductive kval : Type :=
| KReal (v : mpf_t)
| KComplex (v : mpc_t).

Definition have_complex (zv : kval) : bool :=
  match zv with KComplex _ => true | KReal _ => false end.

(** The keyword arguments [hypsum] reads; all of them are passed on to the
    summator. *)
Record hyp_kwargs : Type := HypKwargs {
  kw_maxprec : option Z;
  kw_zeroprec : option Z;
  kw_maxterms : option Z
}.

Definition hyp_key : Type := (Z * Z * list ascii * ascii)%type.

(** [summator(coeffs, v, prec, wp, epsshift, mag_dict, **kwargs)] returns
    [(zv, have_complex, magnitude)] and fills [mag_dict] in place; the
    filled dictionary is returned with the rest here. *)
Definition summator_t : Type :=
  list pyval -> kval -> Z -> Z -> Z -> gmap Z (option Z) -> hyp_kwargs ->
  outcome (kval * Z * gmap Z (option Z)).

(** [libmp.make_hyp_summator(key)[1]]. *)
Class HypKernel : Type := {
  make_hyp_summator : hyp_key -> summator_t
}.

(** What a call of [hypsum] leaves behind: its result, the memo
    [ctx.hyp_summators], and the working precisions at which it invoked
    the summator, in order. *)
Record hyp_run : Type := HypRun {
  hr_result : outcome pyval;
  hr_summators : list (hyp_key * summator_t);
  hr_calls : list Z
}.

Section Hypsum.
Context {K : Kernel} {H : HypKernel}.

(** [_mpc.__new__(cls, real=0, imag=0)]. *)
Definition mpc_new (ctx : context) (real imag : pyval) : outcome pyval :=
  let '(real, imag) :=
    match real with
    | PyComplex re im => (PyFloat re, PyFloat im)
    | Vmpc (re, im) => (make_mpf re, make_mpf im)
    | _ => (real, imag)
    end in
  re ← mpf_new ctx real no_kwargs;
  im ← mpf_new ctx imag no_kwargs;
  Return (make_mpc (re, im)).

(** [x <= y] on coefficients: native integers compare as integers, tower
    instances through their methods. *)
Definition py_le (ctx : context) (x y : pyval) : outcome bool :=
  match as_int x, as_int y with
  | Some a, Some b => Return (a <=? b)
  | _, _ =>
      r ← rich_compare ctx x y Le_op;
      Return (match r with
              | CmpBool b => b
              | CmpNotImplemented => default_le x y
              end)
  end.

Definition is_Z_flag (fl : ascii) : bool := bool_decide (fl = "Z"%char).

(** [coeffs[:p]]. *)
Definition slice_to {A} (l : list A) (p : Z) : list A :=
  if p <? 0 then take (Z.to_nat (Z.of_nat (length l) + p)) l
  else take (Z.to_nat p) l.

(** The inner loop of the pole test for the denominator parameter [c]:
<<
    ok = False
    for ii, cc in enumerate(coeffs[:p]):
        # Note: c <= cc or c < cc, depending on convention
        if flags[ii] == 'Z' and cc <= 0 and c <= cc:
            ok = True
>> *)
Fixpoint pole_cancelled (ctx : context) (flags : list ascii) (c : pyval)
    (ii : nat) (numer : list pyval) (ok : bool) : outcome bool :=
  match numer with
  | [] => Return ok
  | cc :: numer' =>
      match flags !! ii with
      | None => Raise IndexError
      | Some fl =>
          t ← (if is_Z_flag fl then
                 b ← py_le ctx cc (PyInt 0);
                 if (b : bool) then py_le ctx c cc else Return false
               else Return false);
          pole_cancelled ctx flags c (S ii) numer' (if (t : bool) then true else ok)
      end
  end.

(** The state of the loop over the coefficients. *)
Record hyp_scan : Type := HypScan {
  magnitude_check : gmap Z xint;
  max_total_jump : xint;
  scan_extraprec : xint
}.

Definition scan_init : hyp_scan :=
  {| magnitude_check := ∅; max_total_jump := Fin 0; scan_extraprec := Fin 50 |}.

(** The loop over the coefficients:
<<
    for i, c in enumerate(coeffs):
        if flags[i] == 'Z':
            if i >= p and c <= 0:
                ok = False
                for ii, cc in enumerate(coeffs[:p]): ...
                if not ok:
                    raise ZeroDivisionError("pole in hypergeometric series")
            continue
        n, d = ctx.nint_distance(c)
        n = -int(n)
        d = -d
        if i >= p and n >= 0 and d > 4:
            if n in magnitude_check:
                magnitude_check[n] += d
            else:
                magnitude_check[n] = d
            extraprec = max(extraprec, d - prec + 60)
        max_total_jump += abs(d)
>> *)
Fixpoint hyp_scan_coeffs (ctx : context) (p : Z) (flags : list ascii)
    (coeffs : list pyval) (i : nat) (rest : list pyval) (st : hyp_scan)
  : outcome hyp_scan :=
  match rest with
  | [] => Return st
  | c :: rest' =>
      match flags !! i with
      | None => Raise IndexError
      | Some fl =>
          if is_Z_flag fl then
            pole ← (if Z.of_nat i >=? p then py_le ctx c (PyInt 0)
                    else Return false);
            if (pole : bool) then
              ok ← pole_cancelled ctx flags c 0 (slice_to coeffs p) false;
              if (ok : bool) then
                hyp_scan_coeffs ctx p flags coeffs (S i) rest' st
              else Raise (ZeroDivisionError "pole in hypergeometric series")
            else hyp_scan_coeffs ctx p flags coeffs (S i) rest' st
          else
            '(n, d) ← nint_distance ctx c;
            let n := - n in
            let d := xint_neg d in
            let st1 :=
              if (Z.of_nat i >=? p) && (n >=? 0) && xint_ltb (Fin 4) d then
                {| magnitude_check :=
                     match magnitude_check st !! n with
                     | Some d0 => <[n := xint_add d0 d]> (magnitude_check st)
                     | None => <[n := d]> (magnitude_check st)
                     end;
                   max_total_jump := max_total_jump st;
                   scan_extraprec :=
                     xint_max (scan_extraprec st)
                       (xint_add (xint_add d (Fin (- prec ctx))) (Fin 60)) |}
              else st in
            hyp_scan_coeffs ctx p flags coeffs (S i) rest'
              {| magnitude_check := magnitude_check st1;
                 max_total_jump := xint_add (max_total_jump st1) (xint_abs d);
                 scan_extraprec := scan_extraprec st1 |}
      end
  end.

(** One pass through the body of [while 1], from the test of
    [extraprec] against [maxprec] to the end of the body. *)
Inductive pass_result : Type :=
| Done (r : outcome pyval)
| Retry (extraprec epsshift : Z).

Section Loop.
Variables (ctx : context) (summator : summator_t) (coeffs : list pyval)
  (v : kval) (maxprec : Z) (st : hyp_scan) (accurate_small : bool)
  (kwargs : hyp_kwargs).

(** [jumps_resolved]:
<<
    jumps_resolved = True
    if extraprec < max_total_jump:
        for n in mag_dict.values():
            if (n is None) or (n < prec):
                jumps_resolved = False
                break
>> *)
Definition jumps_resolved (extraprec : Z) (mag_dict : gmap Z (option Z))
  : bool :=
  if xint_ltb (Fin extraprec) (max_total_jump st) then
    forallb (fun n : option Z =>
               match n with
               | None => false
               | Some n => negb (n <? prec ctx)
               end) (map_to_list mag_dict).*2
  else true.

(** [accurate = (cancel < extraprec-25-5 or not accurate_small)]. *)
Definition accurate (cancel extraprec : Z) : bool :=
  (cancel <? extraprec - 25 - 5) || negb accurate_small.

(** The body of the loop; the second component is the working precision
    at which the pass invoked the summator, if it did.
<<
    while 1:
        if extraprec > maxprec:
            raise ValueError(ctx._hypsum_msg % (prec, prec+extraprec))
        wp = prec + extraprec
        if magnitude_check:
            mag_dict = dict((n,None) for n in magnitude_check)
        else:
            mag_dict = {}
        zv, have_complex, magnitude = summator(coeffs, v, prec, wp,
            epsshift, mag_dict, **kwargs)
        cancel = -magnitude
        jumps_resolved = True
        if extraprec < max_total_jump: ...
        accurate = (cancel < extraprec-25-5 or not accurate_small)
        if jumps_resolved:
            if accurate:
                break
            # zero?
            zeroprec = kwargs.get('zeroprec')
            if zeroprec is not None:
                if cancel > zeroprec:
                    if have_complex:
                        return ctx.mpc(0)
                    else:
                        return ctx.zero
        # Some near-singularities were not included, so increase
        # precision and repeat until they are
        extraprec *= 2
        # Possible workaround for bad roundoff in fixed-point arithmetic
        epsshift += 5
        extraprec += 5
    if have_complex:
        z = ctx.make_mpc(zv)
    else:
        z = ctx.make_mpf(zv)
    return z
>> *)
Definition hypsum_pass (extraprec epsshift : Z) : pass_result * list Z :=
  if extraprec >? maxprec then
    (Done (Raise (HypsumValueError (prec ctx) (prec ctx + extraprec))), [])
  else
    let wp := prec ctx + extraprec in
    let mag_dict : gmap Z (option Z) :=
      (fun _ => None) <$> magnitude_check st in
    match summator coeffs v (prec ctx) wp epsshift mag_dict kwargs with
    | Raise e => (Done (Raise e), [wp])
    | Return (zv, magnitude, mag_dict) =>
        let cancel := - magnitude in
        let retry := Retry (extraprec * 2 + 5) (epsshift + 5) in
        if jumps_resolved extraprec mag_dict then
          if accurate cancel extraprec then
            (Done (Return (match zv with
                           | KComplex z => make_mpc z
                           | KReal x => make_mpf x
                           end)), [wp])
          else
            match kw_zeroprec kwargs with
            | Some zeroprec =>
                if cancel >? zeroprec then
                  if have_complex zv
                  then (Done (mpc_new ctx (PyInt 0) (PyInt 0)), [wp])
                  else (Done (Return (make_mpf fzero)), [wp])
                else (retry, [wp])
            | None => (retry, [wp])
            end
        else (retry, [wp])
    end.

(** The loop; [fuel] bounds the number of passes, and [None] says that
    the loop is still running after that many. *)
Fixpoint hypsum_loop (fuel : nat) (extraprec epsshift : Z) (calls : list Z)
  : option (outcome pyval * list Z) :=
  match fuel with
  | O => None
  | S fuel' =>
      match hypsum_pass extraprec epsshift with
      | (Done r, c) => Some (r, calls ++ c)
      | (Retry extraprec' epsshift', c) =>
          hypsum_loop fuel' extraprec' epsshift' (calls ++ c)
      end
  end.

End Loop.

(** The value [hypsum] sums at, with its type tag:
<<
    if hasattr(z, "_mpf_"):
        key = p, q, flags, 'R'
        v = z._mpf_
    elif hasattr(z, "_mpc_"):
        key = p, q, flags, 'C'
        v = z._mpc_
>> *)
Definition typed_argument (ctx : context) (z : pyval)
  : option (ascii * kval) :=
  match get_mpf ctx z with
  | Some x => Some ("R"%char, KReal x)
  | None => match z with
            | Vmpc c => Some ("C"%char, KComplex c)
            | _ => None
            end
  end.

(** The memo lookup:
<<
    if key not in ctx.hyp_summators:
        ctx.hyp_summators[key] = libmp.make_hyp_summator(key)[1]
    summator = ctx.hyp_summators[key]
>> *)
Definition lookup_summator (key : hyp_key)
    (memo : list (hyp_key * summator_t)) : option summator_t :=
  snd <$> find (fun e => bool_decide (fst e = key)) memo.

Definition get_summator (key : hyp_key) (memo : list (hyp_key * summator_t))
  : summator_t * list (hyp_key * summator_t) :=
  match lookup_summator key memo with
  | Some s => (s, memo)
  | None => let s := make_hyp_summator key in (s, (key, s) :: memo)
  end.

(** [MPContext.hypsum(p, q, flags, coeffs, z, accurate_small, **kwargs)],
    run for at most [fuel] passes of its [while] loop. *)
Definition hypsum (fuel : nat) (ctx : context)
    (memo : list (hyp_key * summator_t)) (p q : Z) (flags : list ascii)
    (coeffs : list pyval) (z : pyval) (accurate_small : bool)
    (kwargs : hyp_kwargs) : option hyp_run :=
  match typed_argument ctx z with
  | None => Some {| hr_result := Raise (UnboundLocalError "key");
                    hr_summators := memo; hr_calls := [] |}
  | Some (tag, v) =>
      let key : hyp_key := (p, q, flags, tag) in
      let '(summator, memo) := get_summator key memo in
      let maxprec :=
        from_option id (default_hyper_maxprec (prec ctx)) (kw_maxprec kwargs) in
      match hyp_scan_coeffs ctx p flags coeffs 0 coeffs scan_init with
      | Raise e => Some {| hr_result := Raise e;
                           hr_summators := memo; hr_calls := [] |}
      | Return st =>
          match scan_extraprec st with
          | Fin extraprec =>
              '(r, calls) ← hypsum_loop ctx summator coeffs v maxprec st
                              accurate_small kwargs fuel extraprec 25 [];
              Some {| hr_result := r; hr_summators := memo;
                      hr_calls := calls |}
          | PInf =>
              (* extraprec > maxprec holds for every integer maxprec,
                 and the %i of the message cannot format the infinite
                 prec+extraprec *)
              Some {| hr_result := Raise FormatError;
                      hr_summators := memo; hr_calls := [] |}
          | NInf | XNan =>
              Some {| hr_result := Raise (KernelError "working precision");
                      hr_summators := memo; hr_calls := [] |}
          end
      end
  end.

End Hypsum.

(** ** What a kernel real stands for *)

(** The special values have a zero mantissa and a nonzero exponent:
    [_mpf.__new__] tests [(not man) and exp]. *)
Definition is_special (v : mpf_t) : bool :=
  (man v =? 0) && negb (exp v =? 0).

(** The signed mantissa ([if sign: man = -man]). *)
Definition smant (v : mpf_t) : Z :=
  if sign v =? 0 then man v else - man v.

(** [v] is finite and its value [smant * 2^exp] is the rational [p/q]. *)
Definition mpf_is_rational (v : mpf_t) (p q : Z) : Prop :=
  is_special v = false /\
  smant v * 2 ^ Z.max 0 (exp v) * q = p * 2 ^ Z.max 0 (- exp v).

(** A native float as a rational or a special value. *)
Definition float_is (K : Kernel) (f : pyfloat) (v : mpf_t) : Prop :=
  match f with
  | FFin m e => mpf_is_rational v (m * 2 ^ Z.max 0 e) (2 ^ Z.max 0 (- e))
  | FInf => v = finf
  | FNegInf => v = fninf
  | FNan => v = fnan
  end.

(** The contract of the kernel constructors that take no precision; the
    docstring of [convert] relies on it ("the conversion will be
    performed losslessly"). *)
Class KernelExact (K : Kernel) : Prop := {
  from_int_exact : forall n, mpf_is_rational (from_int n) n 1;
  from_float_exact : forall f, float_is K f (from_float f)
}.

(** ** A reference kernel *)

(** Modelled from the spec: the NumericKernel, the arbitrary-precision
    collaborator ([libmp]) that [ctx_mp.py] imports and that is not part
    of it.  Kernel reals are [(sign, significand, exponent, bitcount)]
    with the special forms zero, +inf, -inf and nan, and the operations
    round in the direction asked for.  The instances below are a small
    realisation of it, used to run the definitions above on concrete
    inputs; the theorems hold for every kernel. *)
Module Ref.

Definition fzero : mpf_t := Mpf 0 0 0 0.
Definition fone : mpf_t := Mpf 0 1 0 1.
Definition finf : mpf_t := Mpf 0 0 (-456) (-2).
Definition fninf : mpf_t := Mpf 0 0 (-789) (-3).
Definition fnan : mpf_t := Mpf 0 0 (-123) (-1).

Definition bitcount (n : Z) : Z :=
  if n =? 0 then 0 else Z.log2 (Z.abs n) + 1.

Fixpoint pos_ctz (p : positive) : Z :=
  match p with xO p' => 1 + pos_ctz p' | _ => 0 end.

Fixpoint pos_odd (p : positive) : positive :=
  match p with xO p' => pos_odd p' | _ => p end.

(** The normal form of [s * 2^e]: an odd mantissa. *)
Definition mk_mpf (s e : Z) : mpf_t :=
  match s with
  | Z0 => fzero
  | Zpos p => Mpf 0 (Zpos (pos_odd p)) (e + pos_ctz p) (bitcount (Zpos (pos_odd p)))
  | Zneg p => Mpf 1 (Zpos (pos_odd p)) (e + pos_ctz p) (bitcount (Zpos (pos_odd p)))
  end.

(** [s / 2^n] rounded to an integer, for [n > 0]. *)
Definition round_shift (s n : Z) (rnd : rounding) : Z :=
  let lo := Z.shiftr s n in
  let hi := - Z.shiftr (- s) n in
  match rnd with
  | round_floor => lo
  | round_ceiling => hi
  | round_down => if s >=? 0 then lo else hi
  | round_up => if s >=? 0 then hi else lo
  | round_nearest =>
      let r := s - Z.shiftl lo n in
      let half := Z.shiftl 1 (n - 1) in
      if r >? half then hi
      else if r <? half then lo
      else if Z.even lo then lo else hi
  end.

Definition normalize (sign man exp bc prec : Z) (rnd : rounding) : mpf_t :=
  let s := if sign =? 0 then man else - man in
  let n := bc - prec in
  if n >? 0 then mk_mpf (round_shift s n rnd) (exp + n) else mk_mpf s exp.

Definition from_man_exp (man exp prec : Z) (rnd : rounding) : mpf_t :=
  normalize (if man <? 0 then 1 else 0) (Z.abs man) exp
            (bitcount man) prec rnd.

Definition from_int (n : Z) : mpf_t := mk_mpf n 0.

Definition from_float (f : pyfloat) : mpf_t :=
  match f with
  | FFin m e => mk_mpf m e
  | FInf => finf
  | FNegInf => fninf
  | FNan => fnan
  end.

(** [p/q] to [prec] bits, to nearest: the quotient is taken with two
    guard bits and a sticky bit. *)
Definition from_rational (p q prec : Z) : mpf_t :=
  if q =? 0 then fnan
  else
    let k := Z.max 0 (prec + bitcount q - bitcount p) + 2 in
    let num := Z.shiftl (Z.abs p) k in
    let quo := num / Z.abs q in
    let m := 2 * quo + (if num mod Z.abs q =? 0 then 0 else 1) in
    normalize (if Bool.eqb (p <? 0) (q <? 0) then 0 else 1) m (- k - 1)
              (bitcount m) prec round_nearest.

Definition mpf_pos (v : mpf_t) (prec : Z) (rnd : rounding) : mpf_t :=
  if man v =? 0 then v
  else normalize (sign v) (man v) (exp v) (bc v) prec rnd.

Definition mpc_pos (z : mpc_t) (prec : Z) (rnd : rounding) : mpc_t :=
  (mpf_pos (fst z) prec rnd, mpf_pos (snd z) prec rnd).

Definition mpi_pos (i : mpi_t) (prec : Z) : mpi_t :=
  (mpf_pos (fst i) prec round_floor, mpf_pos (snd i) prec round_ceiling).

(** The order of the extended reals; [None] when a nan is involved. *)
Definition compare (a b : mpf_t) : option comparison :=
  if bool_decide (a = fnan) || bool_decide (b = fnan) then None
  else if bool_decide (a = b) then Some Eq
  else if bool_decide (a = fninf) || bool_decide (b = finf) then Some Lt
  else if bool_decide (a = finf) || bool_decide (b = fninf) then Some Gt
  else
    let e := Z.min (exp a) (exp b) in
    Some (Z.shiftl (smant a) (exp a - e) ?= Z.shiftl (smant b) (exp b - e)).

Definition mpf_lt (a b : mpf_t) : bool :=
  match compare a b with Some Lt => true | _ => false end.
Definition mpf_gt (a b : mpf_t) : bool :=
  match compare a b with Some Gt => true | _ => false end.
Definition mpf_le (a b : mpf_t) : bool :=
  match compare a b with Some Lt | Some Eq => true | _ => false end.
Definition mpf_ge (a b : mpf_t) : bool :=
  match compare a b with Some Gt | Some Eq => true | _ => false end.

Definition mpc_is_nonzero (z : mpc_t) : bool :=
  negb (bool_decide (fst z = fzero) && bool_decide (snd z = fzero)).

(** Decimal integer literals, with an optional sign; anything else is a
    [ValueError]. *)
Definition digit_of (c : ascii) : option Z :=
  let n := Z.of_N (N_of_ascii c) in
  if (48 <=? n) && (n <=? 57) then Some (n - 48) else None.

Fixpoint digits_value (acc : Z) (s : string) : option Z :=
  match s with
  | EmptyString => Some acc
  | String c s' =>
      match digit_of c with
      | Some d => digits_value (10 * acc + d) s'
      | None => None
      end
  end.

Definition int_literal (s : string) : option Z :=
  match s with
  | EmptyString => None
  | String c s' =>
      if bool_decide (c = "-"%char) then
        match s' with
        | EmptyString => None
        | _ => Z.opp <$> digits_value 0 s'
        end
      else digits_value 0 s
  end.

Definition from_str (s : string) (prec : Z) (rnd : rounding)
  : outcome mpf_t :=
  match int_literal s with
  | Some n => Return (from_man_exp n 0 prec rnd)
  | None => Raise (ValueError "could not convert string to mpf")
  end.

(** Modelled from the spec: the conversion formulas between bits and
    decimal digits ([prec_to_dps], [dps_to_prec] of [libmp]), with
    [log2 10] taken as [3.3219280948873626] and one guard digit; they
    agree with the defaults of the source, [53] bits and [15] digits. *)
Definition round_div (a b : Z) : Z := (2 * a + b) / (2 * b).

Definition prec_to_dps (n : Z) : Z :=
  Z.max 1 (round_div (n * 10 ^ 16) 33219280948873626 - 1).

Definition dps_to_prec (n : Z) : Z :=
  Z.max 1 (round_div ((n + 1) * 33219280948873626) (10 ^ 16)).

(** The square root, for the functions of [def_mp_function]: a negative
    real has none among the reals. *)
Definition mpf_sqrt : mpf_fun :=
  fun v prec rnd =>
  if bool_decide (v = fnan) || bool_decide (v = finf) || bool_decide (v = fzero)
  then Return v
  else if negb (sign v =? 0) || bool_decide (v = fninf)
  then Raise (ComplexResult "square root of a negative number")
  else
    let k := 2 * (prec + 2) + (exp v) mod 2 in
    let num := Z.shiftl (man v) k in
    let r := Z.sqrt num in
    let m := 2 * r + (if r * r =? num then 0 else 1) in
    Return (normalize 0 m ((exp v - k) / 2 - 1) (bitcount m) prec rnd).

(** The complex square root on the real axis, where the promotion from
    [mpf_sqrt] lands. *)
Definition mpc_sqrt : mpc_fun :=
  fun z prec rnd =>
  let '(re, im) := z in
  if bool_decide (im = fzero) then
    if negb (sign re =? 0) && negb (man re =? 0) then
      i ← mpf_sqrt (Mpf 0 (man re) (exp re) (bc re)) prec rnd;
      Return (fzero, i)
    else
      r ← mpf_sqrt re prec rnd;
      Return (r, fzero)
  else Raise (NotImplementedError "mpc_sqrt off the real axis").

Definition mpi_sqrt : mpi_fun :=
  fun i prec =>
  a ← mpf_sqrt (fst i) prec round_floor;
  b ← mpf_sqrt (snd i) prec round_ceiling;
  Return (a, b).

#[global] Instance kernel : Kernel :=
  Build_Kernel fzero fone finf fninf fnan
    from_int from_float from_str from_rational from_man_exp normalize
    mpf_pos mpc_pos mpi_pos mpf_lt mpf_gt mpf_le mpf_ge mpc_is_nonzero
    bitcount prec_to_dps dps_to_prec
    (* mpq_nonzero *) (fun p _ => negb (p =? 0))
    (* convert_literal *) (fun _ _ _ e => Raise e)
    (* default_hyper_maxprec *) (fun p => 1000 * Z.sqrt (Z.sqrt p) + 4 * p)
    (* default_le *) (fun _ _ => true).

(** [ctx.sqrt], as [init_builtins] defines it:
    [ctx.def_mp_function(libmp.mpf_sqrt, libmp.mpc_sqrt, libmp.mpi_sqrt)]. *)
Definition sqrt : context -> pyval -> prec_kwargs -> outcome pyval :=
  def_mp_function mpf_sqrt (Some mpc_sqrt) (Some mpi_sqrt).

(** The summator of a hypergeometric series with integer parameters at a
    real argument, in fixed point with [wp] fractional bits: the term
    [n] is the term [n-1] times the numerator factors [a + n - 1] and
    [z], divided by the denominator factors [b + n - 1] and by [n].  The
    sum stops at the first term below [2^epsshift] units (at most
    [maxterms] terms are taken), and the magnitude reported is the bit
    size of the sum relative to one.  Other parameters and complex
    arguments are outside this realisation. *)
Definition to_fixed (x : mpf_t) (wp : Z) : Z :=
  let offset := exp x + wp in
  if offset >=? 0 then Z.shiftl (smant x) offset
  else Z.shiftr (smant x) (- offset).

Definition factors (cs : list Z) (n : Z) : Z :=
  foldr (fun c acc => (c + n - 1) * acc) 1 cs.

Fixpoint sum_terms (fuel : nat) (numer denom : list Z) (zfix wp high : Z)
    (n pre sre : Z) (mag_dict : gmap Z (option Z))
  : outcome (Z * gmap Z (option Z)) :=
  match fuel with
  | O => Raise (KernelError "NoConvergence")
  | S fuel' =>
      let mag_dict :=
        match mag_dict !! n with
        | Some _ => <[n := Some (wp - bitcount (Z.abs pre))]> mag_dict
        | None => mag_dict
        end in
      let div := n * factors denom n in
      if div =? 0 then Raise (ZeroDivisionError "division by zero")
      else
        let pre := Z.shiftr (factors numer n * pre * zfix) wp / div in
        let sre := sre + pre in
        if (- high <? pre) && (pre <? high) then Return (sre, mag_dict)
        else sum_terms fuel' numer denom zfix wp high (n + 1) pre sre mag_dict
  end.

Definition as_ints (l : list pyval) : option (list Z) :=
  foldr (fun c acc =>
           match c, acc with
           | PyInt n, Some ns => Some (n :: ns)
           | _, _ => None
           end) (Some []) l.

Definition hyp_summator (key : hyp_key) : summator_t :=
  fun coeffs v prec wp epsshift mag_dict kwargs =>
  let p := Z.to_nat key.1.1.1 in
  match v, as_ints coeffs with
  | KReal x, Some cs =>
      if is_special x then Raise (NotImplementedError "hyp_summator")
      else
        let one := Z.shiftl 1 wp in
        let maxterms := from_option id (100 * wp) (kw_maxterms kwargs) in
        '(sre, mag_dict) ←
          sum_terms (Z.to_nat maxterms) (take p cs) (drop p cs)
            (to_fixed x wp) wp (Z.shiftl 1 epsshift) 1 one one mag_dict;
        let magn := if sre =? 0 then - wp else bitcount sre - wp in
        Return (KReal (from_man_exp sre (- wp) prec round_nearest), magn,
                mag_dict)
  | _, _ => Raise (NotImplementedError "hyp_summator")
  end.

#[global] Instance hyp_kernel : HypKernel := {|
  make_hyp_summator := hyp_summator
|}.

End Ref.

(** ** Inputs of the closed examples *)

Definition Zflag : list ascii := ["Z"%char].

Definition ZZ : list ascii := ["Z"%char; "Z"%char].

Definition no_hyp_kwargs : hyp_kwargs :=
  {| kw_maxprec := None; kw_zeroprec := None; kw_maxterms := None |}.

(** Keyword arguments with [zeroprec] set to a hundred bits. *)
Definition zeroprec_kwargs : hyp_kwargs :=
  {| kw_maxprec := None; kw_zeroprec := Some 100; kw_maxterms := None |}.

(** ** Passes of the escalation loop *)

Section Reach.
Context {K : Kernel} {H : HypKernel}.
Variables (ctx : context) (summator : summator_t) (coeffs : list pyval)
  (v : kval) (maxprec : Z) (st : hyp_scan) (accurate_small : bool)
  (kwargs : hyp_kwargs).

(** [loop_reaches e eps calls e' eps' calls']: the loop started with the
    allowance [e], the shift [eps] and the calls [calls] made so far comes,
    after some retries, to the head of a pass with [e'], [eps'] and
    [calls']. *)
Inductive loop_reaches : Z -> Z -> list Z -> Z -> Z -> list Z -> Prop :=
| reaches_here e eps calls : loop_reaches e eps calls e eps calls
| reaches_retry e eps calls e1 eps1 c e2 eps2 calls2 :
    hypsum_pass ctx summator coeffs v maxprec st accurate_small kwargs e eps
      = (Retry e1 eps1, c) ->
    loop_reaches e1 eps1 (calls ++ c) e2 eps2 calls2 ->
    loop_reaches e eps calls e2 eps2 calls2.

End Reach.

(** The allowance the loop over the coefficients can leave: an integer
    from fifty up, or an infinite one. *)
Definition good_extraprec (x : xint) : Prop :=
  match x with
  | Fin e => 50 <= e
  | PInf => True
  | _ => False
  end.

(** [cc] is a numerator parameter that removes the pole of the
    denominator parameter [c]: [cc <= 0 and c <= cc]. *)
Definition cancels (c : Z) (cc : pyval) : bool :=
  match cc with
  | PyInt n => (n <=? 0) && (c <=? n)
  | _ => false
  end.

(** ** Contracts used by the theorems *)

(** Modelled from the spec: the conversion formulas [prec_to_dps] and
    [dps_to_prec], which [ctx_mp.py] imports from [libmp].  The spec gives
    them up to rounding ([digits ≈ ceil((precision-1) * log10 2)],
    [precision ≈ ceil(digits * log2 10)]) and asks for a precision of at
    least one bit and a consistent pair.  The contract states what
    [set_prec] and [set_dps] use of that: both formulas return at least
    one, and an argument below one is treated as one bit, respectively
    lands on a precision of one digit. *)
Class DigitsContract (K : Kernel) : Prop := {
  prec_to_dps_pos : forall n, 1 <= prec_to_dps n;
  dps_to_prec_pos : forall n, 1 <= dps_to_prec n;
  prec_to_dps_low : forall n, n < 1 -> prec_to_dps n = prec_to_dps 1;
  dps_to_prec_low : forall n, n < 1 -> prec_to_dps (dps_to_prec n) = 1
}.

(** The precision and the digits of a context are consistent when one is
    the image of the other under its conversion formula. *)
Definition consistent {K : Kernel} (ctx : context) : Prop :=
  _dps ctx = prec_to_dps (_prec ctx) \/ _prec ctx = dps_to_prec (_dps ctx).

(** The settings a setter leaves behind are well formed. *)
Definition settings_ok {K : Kernel} (ctx : context) : Prop :=
  1 <= _prec ctx /\ 1 <= _dps ctx /\
  fst (_prec_rounding ctx) = _prec ctx /\ consistent ctx.

(** Flags and coefficients of a [hypsum] call agree when the flag ['Z']
    marks exactly the native integers. *)
Definition flags_agree (flags : list ascii) (coeffs : list pyval) : Prop :=
  Forall2 (fun fl c => is_Z_flag fl = true <-> exists n, c = PyInt n)
          flags coeffs.

(** ** Wrapped special functions *)

Section Specfun.
Context {K : Kernel}.

(** The method [f_wrapped] that [wrap_specfun(name, f, wrap=True)]
    installs:
<<
    convert = ctx.convert
    args = [convert(a) for a in args]
    prec = ctx.prec
    try:
        ctx.prec += 10
        retval = f(ctx, ...)
    finally:
        ctx.prec = prec
    return +retval
>>
    [f] is the wrapped function, run on the converted arguments. *)
Definition f_wrapped (f : list pyval -> comp pyval) (args : list pyval)
  : comp pyval :=
  fun w =>
  match mapM (fun a => convert (w_ctx w) a true) args with
  | Raise e => (Raise e, w)
  | Return args =>
      let prec0 := prec (w_ctx w) in
      let w1 := set_ctx w (set_prec (w_ctx w) (prec (w_ctx w) + 10)) in
      let '(r, w2) := f args w1 in
      let w3 := set_ctx w2 (set_prec (w_ctx w2) prec0) in
      match r with
      | Raise e => (Raise e, w3)
      | Return retval => (py_pos (w_ctx w3) retval, w3)
      end
  end.

End Specfun.

(** ** Parameters of hypergeometric functions *)

(** The builtins of the interpreter that [convert_maybe_rational] uses on
    its argument: [int(s)] on a string, and whether an instance of
    [rational.mpq] passes [isinstance(x, tuple)]. *)
Class Builtins : Type := {
  int_of_str : string -> outcome Z;
  mpq_is_tuple : bool
}.

(** ['/' in x]. *)
Fixpoint has_char (c : ascii) (s : string) : bool :=
  match s with
  | EmptyString => false
  | String d s' => bool_decide (d = c) || has_char c s'
  end.

(** [x.split(sep)] for a separator of one character. *)
Fixpoint split_on (sep : ascii) (s : string) : list string :=
  match s with
  | EmptyString => [EmptyString]
  | String c s' =>
      if bool_decide (c = sep) then EmptyString :: split_on sep s'
      else
        match split_on sep s' with
        | w :: ws => String c w :: ws
        | [] => [String c EmptyString]
        end
  end.

Section MaybeRational.
Context {K : Kernel} {B : Builtins}.

(** The end of [convert_maybe_rational], on the kernel real [v] of [x]:
<<
    sign, man, exp, bc = v
    if man:
        if exp >= -4:
            if sign:
                man = -man
            if exp >= 0:
                return int(man) << exp, 'Z'
            if exp >= -4:
                p, q = int(man), (1<<(-exp))
                return ctx.mpq((p,q)), 'Q'
        x = ctx.make_mpf(v)
        return x, 'R'
    elif not exp:
        return 0, 'Z'
    else:
        return x, 'U'
>> *)
Definition classify_real (x : pyval) (v : mpf_t) : pyval * ascii :=
  if negb (man v =? 0) then
    if exp v >=? -4 then
      let man := if negb (sign v =? 0) then - man v else man v in
      if exp v >=? 0 then (PyInt (Z.shiftl man (exp v)), "Z"%char)
      else (PyMpq man (Z.shiftl 1 (- exp v)), "Q"%char)
    else (make_mpf v, "R"%char)
  else if exp v =? 0 then (PyInt 0, "Z"%char)
  else (x, "U"%char).

(** The dispatch on [_mpc_] and [_mpf_]:
<<
    if hasattr(x, "_mpc_"):
        v, im = x._mpc_
        if im != fzero:
            return x, 'C'
    elif hasattr(x, "_mpf_"):
        v = x._mpf_
>>
    [None] when [x] has neither attribute. *)
Definition classify_tower (ctx : context) (x : pyval)
  : option (pyval * ascii) :=
  match x with
  | Vmpc (v, im) =>
      if negb (bool_decide (im = fzero)) then Some (x, "C"%char)
      else Some (classify_real x v)
  | _ => classify_real x <$> get_mpf ctx x
  end.

(** The pair [(p, q)]:
<<
    if not p % q:
        return p // q, 'Z'
    return ctx.mpq((p,q)), 'Q'
>>
    on two native integers; the remainder of anything else is left to the
    operands, a [TypeError] here. *)
Definition reduce_pair (p q : pyval) : outcome (pyval * ascii) :=
  match p, q with
  | PyInt p, PyInt q =>
      if q =? 0
      then Raise (ZeroDivisionError "integer division or modulo by zero")
      else if p mod q =? 0 then Return (PyInt (p / q), "Z"%char)
      else Return (PyMpq p q, "Q"%char)
  | _, _ => Raise (TypeError "unsupported operand type(s) for %")
  end.

(** [x = ctx.convert(x)] and the second dispatch, which ends in
    [return x, 'U'] for a value with neither attribute. *)
Definition classify_converted (ctx : context) (x : pyval)
  : outcome (pyval * ascii) :=
  y ← convert ctx x true;
  Return (from_option id (y, "U"%char) (classify_tower ctx y)).

(** [MPContext.convert_maybe_rational]:
<<
    if hasattr(x, "_mpc_"): ...
    elif hasattr(x, "_mpf_"): ...
    else:
        if type(x) in int_types:
            return int(x), 'Z'
        p = None
        if isinstance(x, tuple):
            p, q = x
        elif isinstance(x, basestring) and '/' in x:
            p, q = x.split('/')
            p = int(p)
            q = int(q)
        if p is not None:
            if not p % q:
                return p // q, 'Z'
            return ctx.mpq((p,q)), 'Q'
        x = ctx.convert(x)
        ...
>> *)
Definition convert_maybe_rational (ctx : context) (x : pyval)
  : outcome (pyval * ascii) :=
  match classify_tower ctx x with
  | Some r => Return r
  | None =>
      match x with
      | PyInt n => Return (PyInt n, "Z"%char)
      | PyTuple l =>
          match l with
          | [PyNone; _] => classify_converted ctx x
          | [p; q] => reduce_pair p q
          | _ => Raise (ValueError "need exactly 2 values to unpack")
          end
      | PyMpq p q =>
          if mpq_is_tuple then reduce_pair (PyInt p) (PyInt q)
          else classify_converted ctx x
      | PyStr s =>
          if has_char "/"%char s then
            match split_on "/"%char s with
            | [p; q] =>
                p ← int_of_str p;
                q ← int_of_str q;
                reduce_pair (PyInt p) (PyInt q)
            | _ => Raise (ValueError "too many values to unpack")
            end
          else classify_converted ctx x
      | _ => classify_converted ctx x
      end
  end.

(** The parameters of a hypergeometric function as its callers prepare
    them: [[ctx.convert_maybe_rational(a) for a in coeffs]]. *)
Definition convert_params (ctx : context) (xs : list pyval)
  : outcome (list (pyval * ascii)) :=
  mapM (convert_maybe_rational ctx) xs.

End MaybeRational.

(** ** Magnitudes *)

Section Mag.
Context {K : Kernel}.

(** [MPContext._mpf_mag]:
<<
    sign, man, exp, bc = x
    if man:
        return exp+bc
    if x == fzero:
        return ctx.ninf
    if x == finf or x == fninf:
        return ctx.inf
    return ctx.nan
>> *)
Definition _mpf_mag (x : mpf_t) : xint :=
  if negb (man x =? 0) then Fin (exp x + bc x)
  else if bool_decide (x = fzero) then NInf
  else if bool_decide (x = finf) || bool_decide (x = fninf) then PInf
  else XNan.

(** [MPContext.mag] on a value with [_mpf_] or [_mpc_], a native integer
    or an [mpq]. *)
Definition mag_num (ctx : context) (x : pyval) : option xint :=
  match get_mpf ctx x with
  | Some v => Some (_mpf_mag v)
  | None =>
      match x with
      | Vmpc (r, i) =>
          Some (if bool_decide (r = fzero) then _mpf_mag i
                else if bool_decide (i = fzero) then _mpf_mag r
                else xint_add (Fin 1) (xint_max (_mpf_mag r) (_mpf_mag i)))
      | PyInt n =>
          Some (if negb (n =? 0) then Fin (bitcount (Z.abs n)) else NInf)
      | PyMpq p q =>
          Some (if negb (p =? 0)
                then Fin (1 + bitcount (Z.abs p) - bitcount (Z.abs q))
                else NInf)
      | _ => None
      end
  end.

(** [MPContext.mag]:
<<
    if hasattr(x, "_mpf_"):
        return ctx._mpf_mag(x._mpf_)
    elif hasattr(x, "_mpc_"):
        r, i = x._mpc_
        if r == fzero:
            return ctx._mpf_mag(i)
        if i == fzero:
            return ctx._mpf_mag(r)
        return 1+max(ctx._mpf_mag(r), ctx._mpf_mag(i))
    elif isinstance(x, int_types):
        if x:
            return bitcount(abs(x))
        return ctx.ninf
    elif isinstance(x, rational.mpq):
        p, q = x
        if p:
            return 1 + bitcount(abs(p)) - bitcount(abs(q))
        return ctx.ninf
    else:
        x = ctx.convert(x)
        if hasattr(x, "_mpf_") or hasattr(x, "_mpc_"):
            return ctx.mag(x)
        else:
            raise TypeError("requires an mpf/mpc")
>> *)
Definition mag (ctx : context) (x : pyval) : outcome xint :=
  match mag_num ctx x with
  | Some m => Return m
  | None =>
      y ← convert ctx x true;
      match y with
      | Vmpf _ | Vmpc _ | Vconstant _ =>
          from_option Return (Raise (TypeError "requires an mpf/mpc"))
                      (mag_num ctx y)
      | _ => Raise (TypeError "requires an mpf/mpc")
      end
  end.

End Mag.

(** The contract of [libmp.bitcount]: the number of bits of a positive
    integer. *)
Class BitcountContract (K : Kernel) : Prop := {
  bitcount_bounds :
    forall n, 0 < n -> 2 ^ (bitcount n - 1) <= n < 2 ^ bitcount n
}.

(** [num/den < 2^m] and [2^m <= num/den], for a positive [den] and an
    exponent [m] of either sign. *)
Definition below_pow2 (num den m : Z) : Prop :=
  num * 2 ^ Z.max 0 (- m) < den * 2 ^ Z.max 0 m.

Definition at_least_pow2 (num den m : Z) : Prop :=
  den * 2 ^ Z.max 0 m <= num * 2 ^ Z.max 0 (- m).

(** ** Arithmetic *)

(** The arithmetic of [libmp] that the operators and the functions below
    call.  A routine may raise: a division by zero, or [ComplexResult]
    where the reals have no value.  ['f'] is the rounding code that
    [_parse_prec] returns with an exact precision, [to_int] the integer
    part behind [int(x)]. *)
Class ArithKernel : Type := {
  mpf_eq : mpf_t -> mpf_t -> bool;
  mpf_neg : mpf_t -> Z -> rounding -> outcome mpf_t;
  mpf_add : mpf_t -> mpf_t -> Z -> rounding -> outcome mpf_t;
  mpf_sub : mpf_t -> mpf_t -> Z -> rounding -> outcome mpf_t;
  mpf_mul : mpf_t -> mpf_t -> Z -> rounding -> outcome mpf_t;
  mpf_mul_int : mpf_t -> Z -> Z -> rounding -> outcome mpf_t;
  mpf_div : mpf_t -> mpf_t -> Z -> rounding -> outcome mpf_t;
  mpf_mod : mpf_t -> mpf_t -> Z -> rounding -> outcome mpf_t;
  mpf_pow : mpf_t -> mpf_t -> Z -> rounding -> outcome mpf_t;
  mpf_pow_int : mpf_t -> Z -> Z -> rounding -> outcome mpf_t;
  mpc_neg : mpc_t -> Z -> rounding -> outcome mpc_t;
  mpc_add : mpc_t -> mpc_t -> Z -> rounding -> outcome mpc_t;
  mpc_add_mpf : mpc_t -> mpf_t -> Z -> rounding -> outcome mpc_t;
  mpc_sub : mpc_t -> mpc_t -> Z -> rounding -> outcome mpc_t;
  mpc_sub_mpf : mpc_t -> mpf_t -> Z -> rounding -> outcome mpc_t;
  mpc_mul : mpc_t -> mpc_t -> Z -> rounding -> outcome mpc_t;
  mpc_mul_mpf : mpc_t -> mpf_t -> Z -> rounding -> outcome mpc_t;
  mpc_mul_int : mpc_t -> Z -> Z -> rounding -> outcome mpc_t;
  mpc_div : mpc_t -> mpc_t -> Z -> rounding -> outcome mpc_t;
  mpc_div_mpf : mpc_t -> mpf_t -> Z -> rounding -> outcome mpc_t;
  mpc_mpf_div : mpf_t -> mpc_t -> Z -> rounding -> outcome mpc_t;
  mpc_pow : mpc_t -> mpc_t -> Z -> rounding -> outcome mpc_t;
  mpc_pow_mpf : mpc_t -> mpf_t -> Z -> rounding -> outcome mpc_t;
  mpc_pow_int : mpc_t -> Z -> Z -> rounding -> outcome mpc_t;
  mpi_add : mpi_t -> mpi_t -> Z -> outcome mpi_t;
  mpf_nthroot : mpf_t -> Z -> Z -> rounding -> outcome mpf_t;
  mpc_nthroot : mpc_t -> Z -> Z -> rounding -> outcome mpc_t;
  mpf_agm : mpf_t -> mpf_t -> Z -> rounding -> outcome mpf_t;
  mpc_agm : mpc_t -> mpc_t -> Z -> rounding -> outcome mpc_t;
  to_int : mpf_t -> outcome Z;
  round_code_f : rounding
}.

(** What a binary special method returns. *)
Inductive op_result : Type :=
| OpValue (v : pyval)
| OpBool (b : bool)
| OpNotImplemented.

(** The methods that [binary_op] builds for [_mpf]. *)
Inductive binop : Type :=
| Op_eq | Op_add | Op_sub | Op_mul | Op_div | Op_mod | Op_pow.

Section Operators.
Context {K : Kernel} {A : ArithKernel}.

Definition op_mpf (r : outcome mpf_t) : outcome op_result :=
  (fun v => OpValue (make_mpf v)) <$> r.

Definition op_mpc (r : outcome mpc_t) : outcome op_result :=
  (fun v => OpValue (make_mpc v)) <$> r.

(** The code put in for [WITH_MPF], on [sval] and [tval]:
<<
    __eq__   return mpf_eq(sval, tval)
    __add__  val = mpf_add(sval, tval, prec, rounding) ; return obj
    __sub__  val = mpf_sub(sval, tval, prec, rounding) ; ...
    __mul__  val = mpf_mul(sval, tval, prec, rounding) ; ...
    __div__  val = mpf_div(sval, tval, prec, rounding) ; ...
    __mod__  val = mpf_mod(sval, tval, prec, rounding) ; ...
    __pow__  mpf_pow_same
>> *)
Definition with_mpf (op : binop) (ctx : context) (sval tval : mpf_t)
  : outcome op_result :=
  let '(prec, rounding) := _prec_rounding ctx in
  match op with
  | Op_eq => Return (OpBool (mpf_eq sval tval))
  | Op_add => op_mpf (mpf_add sval tval prec rounding)
  | Op_sub => op_mpf (mpf_sub sval tval prec rounding)
  | Op_mul => op_mpf (mpf_mul sval tval prec rounding)
  | Op_div => op_mpf (mpf_div sval tval prec rounding)
  | Op_mod => op_mpf (mpf_mod sval tval prec rounding)
  | Op_pow => OpValue <$> mpf_pow_same mpf_pow mpc_pow ctx sval tval
  end.

(** The code put in for [WITH_INT], on [sval] and the integer [other]:
<<
    __eq__   return mpf_eq(sval, from_int(other))
    __add__  val = mpf_add(sval, from_int(other), prec, rounding) ; ...
    __sub__  val = mpf_sub(sval, from_int(other), prec, rounding) ; ...
    __mul__  val = mpf_mul_int(sval, other, prec, rounding) ; ...
    __div__  val = mpf_div(sval, from_int(other), prec, rounding) ; ...
    __mod__  val = mpf_mod(sval, from_int(other), prec, rounding) ; ...
    __pow__  val = mpf_pow_int(sval, other, prec, rounding) ; ...
>> *)
Definition with_int (op : binop) (ctx : context) (sval : mpf_t) (other : Z)
  : outcome op_result :=
  let '(prec, rounding) := _prec_rounding ctx in
  match op with
  | Op_eq => Return (OpBool (mpf_eq sval (from_int other)))
  | Op_add => op_mpf (mpf_add sval (from_int other) prec rounding)
  | Op_sub => op_mpf (mpf_sub sval (from_int other) prec rounding)
  | Op_mul => op_mpf (mpf_mul_int sval other prec rounding)
  | Op_div => op_mpf (mpf_div sval (from_int other) prec rounding)
  | Op_mod => op_mpf (mpf_mod sval (from_int other) prec rounding)
  | Op_pow => op_mpf (mpf_pow_int sval other prec rounding)
  end.

(** The code put in for [WITH_MPC], on [sval] and the pair [tval]:
<<
    __eq__   return (tval[1] == fzero) and mpf_eq(tval[0], sval)
    __add__  val = mpc_add_mpf(tval, sval, prec, rounding) ; ...
    __sub__  val = mpc_sub((sval, fzero), tval, prec, rounding) ; ...
    __mul__  val = mpc_mul_mpf(tval, sval, prec, rounding) ; ...
    __div__  val = mpc_mpf_div(sval, tval, prec, rounding) ; ...
    __mod__  raise NotImplementedError("complex modulo")
    __pow__  val = mpc_pow((sval, fzero), tval, prec, rounding) ; ...
>> *)
Definition with_mpc (op : binop) (ctx : context) (sval : mpf_t) (tval : mpc_t)
  : outcome op_result :=
  let '(prec, rounding) := _prec_rounding ctx in
  match op with
  | Op_eq =>
      Return (OpBool (bool_decide (snd tval = fzero) && mpf_eq (fst tval) sval))
  | Op_add => op_mpc (mpc_add_mpf tval sval prec rounding)
  | Op_sub => op_mpc (mpc_sub (sval, fzero) tval prec rounding)
  | Op_mul => op_mpc (mpc_mul_mpf tval sval prec rounding)
  | Op_div => op_mpc (mpc_mpf_div sval tval prec rounding)
  | Op_mod => Raise (NotImplementedError "complex modulo")
  | Op_pow => op_mpc (mpc_pow (sval, fzero) tval prec rounding)
  end.

(** The head of the template [mpf_binary_op], which ends the call for an
    operand of a known kind:
<<
    if hasattr(other, '_mpf_'):
        tval = other._mpf_
        WITH_MPF
    ttype = type(other)
    if ttype in int_types:
        WITH_INT
    elif ttype is float:
        tval = from_float(other)
        WITH_MPF
    elif hasattr(other, '_mpc_'):
        tval = other._mpc_
        mpc = type(other)
        WITH_MPC
    elif ttype is complex:
        tval = from_float(other.real), from_float(other.imag)
        mpc = self.context.mpc
        WITH_MPC
>> *)
Definition mpf_operand (op : binop) (ctx : context) (sval : mpf_t)
    (other : pyval) : option (outcome op_result) :=
  match get_mpf ctx other with
  | Some tval => Some (with_mpf op ctx sval tval)
  | None =>
      match other with
      | PyInt n => Some (with_int op ctx sval n)
      | PyFloat f => Some (with_mpf op ctx sval (from_float f))
      | Vmpc tval => Some (with_mpc op ctx sval tval)
      | PyComplex re im =>
          Some (with_mpc op ctx sval (from_float re, from_float im))
      | _ => None
      end
  end.

(** The method [op] of [_mpf]; the template ends in a call of the method
    itself, and [depth] is the interpreter's recursion limit:
<<
    if isinstance(other, mpnumeric):
        return NotImplemented
    try:
        other = mpf.context.convert(other, strings=False)
    except TypeError:
        return NotImplemented
    return self.NAME(other)
>> *)
Fixpoint mpf_binary_op (depth : nat) (op : binop) (ctx : context)
    (self other : pyval) : outcome op_result :=
  match depth with
  | O => Raise RecursionLimit
  | S depth' =>
    match get_mpf ctx self with
    | None => Raise (AttributeError "_mpf_")
    | Some sval =>
        match mpf_operand op ctx sval other with
        | Some r => r
        | None =>
            if in_ctx_types other then Return OpNotImplemented
            else
              match convert ctx other false with
              | Return y => mpf_binary_op depth' op ctx self y
              | Raise (TypeError _) => Return OpNotImplemented
              | Raise e => Raise e
              end
        end
    end
  end.

(** [_mpc.mpc_convert_lhs]: [None] stands for [NotImplemented].
<<
    try:
        y = cls.context.convert(x)
        return y
    except TypeError:
        return NotImplemented
>> *)
Definition mpc_convert_lhs (ctx : context) (x : pyval)
  : outcome (option pyval) :=
  match convert ctx x true with
  | Return y => Return (Some y)
  | Raise (TypeError _) => Return None
  | Raise e => Raise e
  end.

(** The shape shared by [_mpc.__add__], [__sub__] and [__div__], with the
    kernel routines [f] for two complex operands and [g] for a complex
    and a real one:
<<
    cls, new, (prec, rounding) = s._ctxdata
    if not hasattr(t, '_mpc_'):
        t = s.mpc_convert_lhs(t)
        if t is NotImplemented:
            return t
        if hasattr(t, '_mpf_'):
            v = new(cls)
            v._mpc_ = g(s._mpc_, t._mpf_, prec, rounding)
            return v
    v = new(cls)
    v._mpc_ = f(s._mpc_, t._mpc_, prec, rounding)
    return v
>> *)
Definition mpc_binary
    (f : mpc_t -> mpc_t -> Z -> rounding -> outcome mpc_t)
    (g : mpc_t -> mpf_t -> Z -> rounding -> outcome mpc_t)
    (ctx : context) (s : mpc_t) (t : pyval) : outcome op_result :=
  let '(prec, rounding) := _prec_rounding ctx in
  match t with
  | Vmpc tz => op_mpc (f s tz prec rounding)
  | _ =>
      t ← mpc_convert_lhs ctx t;
      match t with
      | None => Return OpNotImplemented
      | Some t =>
          match get_mpf ctx t with
          | Some tv => op_mpc (g s tv prec rounding)
          | None =>
              match t with
              | Vmpc tz => op_mpc (f s tz prec rounding)
              | _ => Raise (AttributeError "_mpc_")
              end
          end
      end
  end.

Definition mpc___add__ : context -> mpc_t -> pyval -> outcome op_result :=
  mpc_binary mpc_add mpc_add_mpf.

Definition mpc___sub__ : context -> mpc_t -> pyval -> outcome op_result :=
  mpc_binary mpc_sub mpc_sub_mpf.

Definition mpc___div__ : context -> mpc_t -> pyval -> outcome op_result :=
  mpc_binary mpc_div mpc_div_mpf.

(** [_mpc.__eq__]:
<<
    if not hasattr(t, '_mpc_'):
        if isinstance(t, str):
            return False
        t = s.mpc_convert_lhs(t)
        if t is NotImplemented:
            return t
    return s.real == t.real and s.imag == t.imag
>>
    The two comparisons are [_mpf.__eq__] on two [mpf]; the imaginary
    part of an [mpf] is [ctx.zero], and an interval has no [real]. *)
Definition mpc___eq__ (ctx : context) (s : mpc_t) (t : pyval)
  : outcome op_result :=
  let same (tz : mpc_t) :=
    Return (OpBool (mpf_eq (fst s) (fst tz) && mpf_eq (snd s) (snd tz))) in
  match t with
  | Vmpc tz => same tz
  | PyStr _ => Return (OpBool false)
  | _ =>
      t ← mpc_convert_lhs ctx t;
      match t with
      | None => Return OpNotImplemented
      | Some t =>
          match get_mpf ctx t with
          | Some tv => same (tv, fzero)
          | None =>
              match t with
              | Vmpc tz => same tz
              | _ => Raise (AttributeError "real")
              end
          end
      end
  end.

(** [_mpi.__add__]:
<<
    if not hasattr(other, "_mpi_"):
        other = self.context.mpi(other)
    return self.context.make_mpi(mpi_add(self._mpi_, other._mpi_,
        self.context.prec))
>> *)
Definition mpi___add__ (ctx : context) (self : mpi_t) (other : pyval)
  : outcome op_result :=
  other ← mpi_new ctx other None;
  match other with
  | Vmpi o => (fun v => OpValue (make_mpi v)) <$> mpi_add self o (prec ctx)
  | _ => Raise (AttributeError "_mpi_")
  end.

(** The method [__add__] of the class of [self]; every class of the
    tower binds [__radd__] to the same function.  A native number has no
    method that knows the classes of the tower. *)
Definition add_method (depth : nat) (ctx : context) (self other : pyval)
  : outcome op_result :=
  match self with
  | Vmpf _ | Vconstant _ => mpf_binary_op depth Op_add ctx self other
  | Vmpc s => mpc___add__ ctx s other
  | Vmpi s => mpi___add__ ctx s other
  | _ => Return OpNotImplemented
  end.

(** The type of an instance, as far as the interpreter compares the types
    of two operands. *)
Definition same_type (x y : pyval) : bool :=
  match x, y with
  | Vmpf _, Vmpf _ | Vmpc _, Vmpc _ | Vmpi _, Vmpi _
  | Vconstant _, Vconstant _ => true
  | _, _ => false
  end.

(** The interpreter's evaluation of [x + y] when one operand at least is
    an instance of the tower and the other is one too or a native
    number: [x.__add__(y)], and when that is [NotImplemented] and the
    types differ, [y.__radd__(x)]; a [TypeError] when both decline. *)
Definition py_add (depth : nat) (ctx : context) (x y : pyval)
  : outcome pyval :=
  let unsupported := Raise (TypeError "unsupported operand type(s) for +") in
  r ← add_method depth ctx x y;
  match r with
  | OpValue v => Return v
  | OpBool _ => unsupported
  | OpNotImplemented =>
      if same_type x y then unsupported
      else
        r ← add_method depth ctx y x;
        match r with
        | OpValue v => Return v
        | _ => unsupported
        end
  end.

(** ** Functions of the context that call the kernel *)

(** [MPContext._nthroot]:
<<
    if hasattr(x, '_mpf_'):
        try:
            return ctx.make_mpf(libmp.mpf_nthroot(x._mpf_, n, ...))
        except ComplexResult:
            if ctx.trap_complex:
                raise
            x = (x._mpf_, libmp.fzero)
    else:
        x = x._mpc_
    return ctx.make_mpc(libmp.mpc_nthroot(x, n, ...))
>> *)
Definition _nthroot (ctx : context) (x : pyval) (n : Z) : outcome pyval :=
  let '(prec, rounding) := _prec_rounding ctx in
  match get_mpf ctx x with
  | Some v =>
      match mpf_nthroot v n prec rounding with
      | Return r => Return (make_mpf r)
      | Raise (ComplexResult msg) =>
          if trap_complex ctx then Raise (ComplexResult msg)
          else make_mpc <$> mpc_nthroot (v, fzero) n prec rounding
      | Raise e => Raise e
      end
  | None =>
      match x with
      | Vmpc z => make_mpc <$> mpc_nthroot z n prec rounding
      | _ => Raise (AttributeError "_mpc_")
      end
  end.

(** The operand of the complex mean:
<<
    if hasattr(a, '_mpf_'): a = (a._mpf_, libmp.fzero)
    else: a = a._mpc_
>> *)
Definition agm_operand (ctx : context) (a : pyval) : outcome mpc_t :=
  match get_mpf ctx a with
  | Some v => Return (v, fzero)
  | None =>
      match a with
      | Vmpc z => Return z
      | _ => Raise (AttributeError "_mpc_")
      end
  end.

(** [MPContext._agm(a, b=1)]:
<<
    prec, rounding = ctx._prec_rounding
    if hasattr(a, '_mpf_') and hasattr(b, '_mpf_'):
        try:
            v = libmp.mpf_agm(a._mpf_, b._mpf_, prec, rounding)
            return ctx.make_mpf(v)
        except ComplexResult:
            pass
    if hasattr(a, '_mpf_'): a = (a._mpf_, libmp.fzero)
    else: a = a._mpc_
    if hasattr(b, '_mpf_'): b = (b._mpf_, libmp.fzero)
    else: b = b._mpc_
    return ctx.make_mpc(libmp.mpc_agm(a, b, prec, rounding))
>> *)
Definition _agm (ctx : context) (a b : pyval) : outcome pyval :=
  let '(prec, rounding) := _prec_rounding ctx in
  let complex_mean :=
    az ← agm_operand ctx a;
    bz ← agm_operand ctx b;
    make_mpc <$> mpc_agm az bz prec rounding in
  match get_mpf ctx a, get_mpf ctx b with
  | Some av, Some bv =>
      match mpf_agm av bv prec rounding with
      | Return v => Return (make_mpf v)
      | Raise (ComplexResult _) => complex_mean
      | Raise e => Raise e
      end
  | _, _ => complex_mean
  end.

(** The keyword arguments that [_parse_prec] reads, with integers for
    [prec] and [dps]. *)
Record parse_kwargs : Type := ParseKwargs {
  pk_exact : bool;
  pk_rounding : option rounding;
  pk_prec : option Z;
  pk_dps : option Z
}.

(** [MPContext._parse_prec]; the comparison of an integer with [ctx.inf]
    is [_mpf.__eq__] of [ctx.inf] with the integer.
<<
    if kwargs:
        if kwargs.get('exact'):
            return 0, 'f'
        prec, rounding = ctx._prec_rounding
        if 'rounding' in kwargs:
            rounding = kwargs['rounding']
        if 'prec' in kwargs:
            prec = kwargs['prec']
            if prec == ctx.inf:
                return 0, 'f'
        elif 'dps' in kwargs:
            dps = kwargs['dps']
            if dps == ctx.inf:
                return 0, 'f'
            prec = dps_to_prec(dps)
        return prec, rounding
    return ctx._prec_rounding
>> *)
Definition _parse_prec (ctx : context) (kwargs : parse_kwargs)
  : Z * rounding :=
  if pk_exact kwargs then (0, round_code_f)
  else
    let '(prec, rounding) := _prec_rounding ctx in
    let rounding := from_option id rounding (pk_rounding kwargs) in
    match pk_prec kwargs with
    | Some prec =>
        if mpf_eq finf (from_int prec) then (0, round_code_f)
        else (prec, rounding)
    | None =>
        match pk_dps kwargs with
        | Some dps =>
            if mpf_eq finf (from_int dps) then (0, round_code_f)
            else (dps_to_prec dps, rounding)
        | None => (prec, rounding)
        end
    end.

(** [MPContext.fneg]:
<<
    prec, rounding = ctx._parse_prec(kwargs)
    x = ctx.convert(x)
    if hasattr(x, '_mpf_'):
        return ctx.make_mpf(mpf_neg(x._mpf_, prec, rounding))
    if hasattr(x, '_mpc_'):
        return ctx.make_mpc(mpc_neg(x._mpc_, prec, rounding))
    raise ValueError("Arguments need to be mpf or mpc compatible numbers")
>> *)
Definition fneg (ctx : context) (x : pyval) (kwargs : parse_kwargs)
  : outcome pyval :=
  let '(prec, rounding) := _parse_prec ctx kwargs in
  x ← convert ctx x true;
  match get_mpf ctx x with
  | Some v => make_mpf <$> mpf_neg v prec rounding
  | None =>
      match x with
      | Vmpc z => make_mpc <$> mpc_neg z prec rounding
      | _ => Raise (ValueError
               "Arguments need to be mpf or mpc compatible numbers")
      end
  end.

(** [MPContext.fdiv]:
<<
    prec, rounding = ctx._parse_prec(kwargs)
    if not prec:
        raise ValueError("division is not an exact operation")
    x = ctx.convert(x)
    y = ctx.convert(y)
    if hasattr(x, '_mpf_'):
        if hasattr(y, '_mpf_'):
            return ctx.make_mpf(mpf_div(x._mpf_, y._mpf_, prec, rounding))
        if hasattr(y, '_mpc_'):
            return ctx.make_mpc(mpc_div((x._mpf_, fzero), y._mpc_, prec, rounding))
    if hasattr(x, '_mpc_'):
        if hasattr(y, '_mpf_'):
            return ctx.make_mpc(mpc_div_mpf(x._mpc_, y._mpf_, prec, rounding))
        if hasattr(y, '_mpc_'):
            return ctx.make_mpc(mpc_div(x._mpc_, y._mpc_, prec, rounding))
    raise ValueError("Arguments need to be mpf or mpc compatible numbers")
>> *)
Definition fdiv (ctx : context) (x y : pyval) (kwargs : parse_kwargs)
  : outcome pyval :=
  let '(prec, rounding) := _parse_prec ctx kwargs in
  let incompatible :=
    Raise (ValueError "Arguments need to be mpf or mpc compatible numbers") in
  if prec =? 0 then Raise (ValueError "division is not an exact operation")
  else
    x ← convert ctx x true;
    y ← convert ctx y true;
    match get_mpf ctx x, get_mpf ctx y with
    | Some xv, Some yv => make_mpf <$> mpf_div xv yv prec rounding
    | Some xv, None =>
        match y with
        | Vmpc yz => make_mpc <$> mpc_div (xv, fzero) yz prec rounding
        | _ => incompatible
        end
    | None, Some yv =>
        match x with
        | Vmpc xz => make_mpc <$> mpc_div_mpf xz yv prec rounding
        | _ => incompatible
        end
    | None, None =>
        match x, y with
        | Vmpc xz, Vmpc yz => make_mpc <$> mpc_div xz yz prec rounding
        | _, _ => incompatible
        end
    end.

(** [MPContext.isint]:
<<
    if isinstance(x, int_types):
        return True
    try:
        x = ctx.convert(x)
    except:
        return False
    if hasattr(x, '_mpf_'):
        if ctx.isnan(x) or ctx.isinf(x):
            return False
        return x == int(x)
    if isinstance(x, ctx.mpq):
        p, q = x
        return not (p % q)
    return False
>>
    [int(x)] is [int(to_int(x._mpf_))], and [x == n] the method
    [_mpf.__eq__] on an integer. *)
Definition isint (ctx : context) (x : pyval) : outcome bool :=
  match x with
  | PyInt _ => Return true
  | _ =>
      match convert ctx x true with
      | Raise _ => Return false
      | Return x =>
          match get_mpf ctx x with
          | Some v =>
              if isnan ctx x || isinf ctx x then Return false
              else
                n ← to_int v;
                Return (mpf_eq v (from_int n))
          | None =>
              match x with
              | PyMpq p q =>
                  if q =? 0
                  then Raise (ZeroDivisionError
                                "integer division or modulo by zero")
                  else Return (p mod q =? 0)
              | _ => Return false
              end
          end
      end
  end.

End Operators.

(** ** A reference arithmetic *)

(** Modelled from the spec: the arithmetic of the NumericKernel, the
    collaborator ([libmp]) that [ctx_mp.py] imports.  Finite reals are
    combined exactly and rounded once, in the direction asked for, to
    [prec] bits; the precision 0 asks for the exact result.  The
    realisation is small: it is used to run the operators above on
    concrete inputs, and the theorems hold for every arithmetic. *)
Module RefArith.

Definition round_to (s e prec : Z) (rnd : rounding) : mpf_t :=
  if prec =? 0 then Ref.mk_mpf s e
  else Ref.normalize (if s <? 0 then 1 else 0) (Z.abs s) e (Ref.bitcount s)
                     prec rnd.

Definition is_nan (v : mpf_t) : bool := bool_decide (v = Ref.fnan).

(** Both operands on the smaller of the two exponents. *)
Definition aligned (a b : mpf_t) : Z * Z * Z :=
  let e := Z.min (exp a) (exp b) in
  (Z.shiftl (smant a) (exp a - e), Z.shiftl (smant b) (exp b - e), e).

Definition mpf_eq (a b : mpf_t) : bool :=
  match Ref.compare a b with Some Eq => true | _ => false end.

Definition mpf_neg (v : mpf_t) (prec : Z) (rnd : rounding) : outcome mpf_t :=
  if bool_decide (v = Ref.finf) then Return Ref.fninf
  else if bool_decide (v = Ref.fninf) then Return Ref.finf
  else if is_special v then Return v
  else Return (round_to (- smant v) (exp v) prec rnd).

Definition mpf_add (a b : mpf_t) (prec : Z) (rnd : rounding)
  : outcome mpf_t :=
  if is_special a || is_special b then
    if is_nan a || is_nan b then Return Ref.fnan
    else if is_special a && is_special b then
      Return (if bool_decide (a = b) then a else Ref.fnan)
    else Return (if is_special a then a else b)
  else
    let '(x, y, e) := aligned a b in
    Return (round_to (x + y) e prec rnd).

Definition mpf_sub (a b : mpf_t) (prec : Z) (rnd : rounding)
  : outcome mpf_t :=
  nb ← mpf_neg b 0 rnd;
  mpf_add a nb prec rnd.

Definition mpf_mul (a b : mpf_t) (prec : Z) (rnd : rounding)
  : outcome mpf_t :=
  if is_special a || is_special b then
    if is_nan a || is_nan b || bool_decide (a = Ref.fzero)
       || bool_decide (b = Ref.fzero)
    then Return Ref.fnan
    else
      let neg (v : mpf_t) :=
        bool_decide (v = Ref.fninf) || (negb (is_special v) && (smant v <? 0)) in
      Return (if Bool.eqb (neg a) (neg b) then Ref.finf else Ref.fninf)
  else Return (round_to (smant a * smant b) (exp a + exp b) prec rnd).

Definition mpf_mul_int (a : mpf_t) (n : Z) (prec : Z) (rnd : rounding)
  : outcome mpf_t :=
  mpf_mul a (Ref.from_int n) prec rnd.

(** The quotient, taken with two guard bits and a sticky bit. *)
Definition mpf_div (a b : mpf_t) (prec : Z) (rnd : rounding)
  : outcome mpf_t :=
  if is_special a || is_special b then
    Raise (NotImplementedError "division of special values")
  else if smant b =? 0 then Raise (ZeroDivisionError "division by zero")
  else
    let k := Z.max 0 (prec + bc b - bc a) + 2 in
    let num := Z.shiftl (Z.abs (smant a)) k in
    let quo := num / Z.abs (smant b) in
    let m := 2 * quo + (if num mod Z.abs (smant b) =? 0 then 0 else 1) in
    let s := if Bool.eqb (smant a <? 0) (smant b <? 0) then m else - m in
    Return (round_to s (exp a - exp b - k - 1) prec rnd).

Definition mpf_mod (a b : mpf_t) (prec : Z) (rnd : rounding)
  : outcome mpf_t :=
  if is_special a || is_special b then
    Raise (NotImplementedError "remainder of special values")
  else if smant b =? 0 then Raise (ZeroDivisionError "modulo by zero")
  else
    let '(x, y, e) := aligned a b in
    Return (round_to (x mod y) e prec rnd).

Definition mpf_pow_int (a : mpf_t) (n : Z) (prec : Z) (rnd : rounding)
  : outcome mpf_t :=
  if is_special a then Raise (NotImplementedError "power of a special value")
  else if n >=? 0 then Return (round_to (smant a ^ n) (exp a * n) prec rnd)
  else mpf_div Ref.fone (Ref.mk_mpf (smant a ^ (- n)) (exp a * (- n))) prec rnd.

Definition mpf_pow (a b : mpf_t) (prec : Z) (rnd : rounding)
  : outcome mpf_t :=
  if is_special a || is_special b then
    Raise (NotImplementedError "power of special values")
  else if exp b >=? 0 then mpf_pow_int a (Z.shiftl (smant b) (exp b)) prec rnd
  else if smant a <? 0 then
    Raise (ComplexResult "negative number raised to a fractional power")
  else if bool_decide (b = Mpf 0 1 (-1) 1) then Ref.mpf_sqrt a prec rnd
  else Raise (NotImplementedError "fractional power").

Definition mpc_neg (z : mpc_t) (prec : Z) (rnd : rounding) : outcome mpc_t :=
  re ← mpf_neg (fst z) prec rnd; im ← mpf_neg (snd z) prec rnd;
  Return (re, im).

Definition mpc_add (z w : mpc_t) (prec : Z) (rnd : rounding)
  : outcome mpc_t :=
  re ← mpf_add (fst z) (fst w) prec rnd;
  im ← mpf_add (snd z) (snd w) prec rnd;
  Return (re, im).

Definition mpc_add_mpf (z : mpc_t) (x : mpf_t) (prec : Z) (rnd : rounding)
  : outcome mpc_t :=
  re ← mpf_add (fst z) x prec rnd;
  Return (re, Ref.mpf_pos (snd z) prec rnd).

Definition mpc_sub (z w : mpc_t) (prec : Z) (rnd : rounding)
  : outcome mpc_t :=
  re ← mpf_sub (fst z) (fst w) prec rnd;
  im ← mpf_sub (snd z) (snd w) prec rnd;
  Return (re, im).

Definition mpc_sub_mpf (z : mpc_t) (x : mpf_t) (prec : Z) (rnd : rounding)
  : outcome mpc_t :=
  re ← mpf_sub (fst z) x prec rnd;
  Return (re, Ref.mpf_pos (snd z) prec rnd).

Definition mpc_mul (z w : mpc_t) (prec : Z) (rnd : rounding)
  : outcome mpc_t :=
  ac ← mpf_mul (fst z) (fst w) 0 rnd;
  bd ← mpf_mul (snd z) (snd w) 0 rnd;
  ad ← mpf_mul (fst z) (snd w) 0 rnd;
  bc ← mpf_mul (snd z) (fst w) 0 rnd;
  re ← mpf_sub ac bd prec rnd;
  im ← mpf_add ad bc prec rnd;
  Return (re, im).

Definition mpc_mul_mpf (z : mpc_t) (x : mpf_t) (prec : Z) (rnd : rounding)
  : outcome mpc_t :=
  re ← mpf_mul (fst z) x prec rnd;
  im ← mpf_mul (snd z) x prec rnd;
  Return (re, im).

Definition mpc_mul_int (z : mpc_t) (n : Z) (prec : Z) (rnd : rounding)
  : outcome mpc_t :=
  mpc_mul_mpf z (Ref.from_int n) prec rnd.

Definition mpc_div_mpf (z : mpc_t) (x : mpf_t) (prec : Z) (rnd : rounding)
  : outcome mpc_t :=
  re ← mpf_div (fst z) x prec rnd;
  im ← mpf_div (snd z) x prec rnd;
  Return (re, im).

Definition mpc_div (z w : mpc_t) (prec : Z) (rnd : rounding)
  : outcome mpc_t :=
  cc ← mpf_mul (fst w) (fst w) 0 rnd;
  dd ← mpf_mul (snd w) (snd w) 0 rnd;
  den ← mpf_add cc dd 0 rnd;
  '(nre, nim) ← mpc_mul z (fst w, Ref.mk_mpf (- smant (snd w)) (exp (snd w)))
                  0 rnd;
  mpc_div_mpf (nre, nim) den prec rnd.

Definition mpc_mpf_div (x : mpf_t) (w : mpc_t) (prec : Z) (rnd : rounding)
  : outcome mpc_t :=
  mpc_div (x, Ref.fzero) w prec rnd.

Fixpoint mpc_power (n : nat) (z : mpc_t) (rnd : rounding) : outcome mpc_t :=
  match n with
  | O => Return (Ref.fone, Ref.fzero)
  | S n' => w ← mpc_power n' z rnd; mpc_mul w z 0 rnd
  end.

Definition mpc_pow_int (z : mpc_t) (n : Z) (prec : Z) (rnd : rounding)
  : outcome mpc_t :=
  if n >=? 0 then
    w ← mpc_power (Z.to_nat n) z rnd;
    Return (Ref.mpc_pos w prec rnd)
  else
    w ← mpc_power (Z.to_nat (- n)) z rnd;
    mpc_div (Ref.fone, Ref.fzero) w prec rnd.

Definition mpc_pow_mpf (z : mpc_t) (x : mpf_t) (prec : Z) (rnd : rounding)
  : outcome mpc_t :=
  if is_special x then Raise (NotImplementedError "power of special values")
  else if exp x >=? 0 then mpc_pow_int z (Z.shiftl (smant x) (exp x)) prec rnd
  else if bool_decide (x = Mpf 0 1 (-1) 1) then Ref.mpc_sqrt z prec rnd
  else Raise (NotImplementedError "fractional power").

Definition mpc_pow (z w : mpc_t) (prec : Z) (rnd : rounding)
  : outcome mpc_t :=
  if bool_decide (snd w = Ref.fzero) then mpc_pow_mpf z (fst w) prec rnd
  else Raise (NotImplementedError "complex exponent").

Definition mpi_add (i j : mpi_t) (prec : Z) : outcome mpi_t :=
  lo ← mpf_add (fst i) (fst j) prec round_floor;
  hi ← mpf_add (snd i) (snd j) prec round_ceiling;
  Return (lo, hi).

Definition mpf_nthroot (x : mpf_t) (n : Z) (prec : Z) (rnd : rounding)
  : outcome mpf_t :=
  if n =? 1 then Return (Ref.mpf_pos x prec rnd)
  else if n =? 2 then Ref.mpf_sqrt x prec rnd
  else if Z.even n && negb (is_special x) && (smant x <? 0) then
    Raise (ComplexResult "even root of a negative number")
  else Raise (NotImplementedError "nthroot").

Definition mpc_nthroot (z : mpc_t) (n : Z) (prec : Z) (rnd : rounding)
  : outcome mpc_t :=
  if n =? 1 then Return (Ref.mpc_pos z prec rnd)
  else if n =? 2 then Ref.mpc_sqrt z prec rnd
  else Raise (NotImplementedError "nthroot").

(** The arithmetic-geometric mean of two positive reals by the iteration
    [a, b := (a + b) / 2, sqrt(a * b)], which converges quadratically. *)
Fixpoint agm_iter (n : nat) (a b : mpf_t) (wp : Z) : outcome mpf_t :=
  match n with
  | O => Return a
  | S n' =>
      s ← mpf_add a b wp round_nearest;
      p ← mpf_mul a b wp round_nearest;
      g ← Ref.mpf_sqrt p wp round_nearest;
      agm_iter n' (Ref.mk_mpf (smant s) (exp s - 1)) g wp
  end.

Definition mpf_agm (a b : mpf_t) (prec : Z) (rnd : rounding)
  : outcome mpf_t :=
  if is_special a || is_special b then
    Raise (NotImplementedError "mean of special values")
  else if (smant a =? 0) || (smant b =? 0) then Return Ref.fzero
  else if negb (Bool.eqb (smant a <? 0) (smant b <? 0)) then
    Raise (ComplexResult "agm of a negative and a positive number")
  else
    m ← agm_iter (Z.to_nat (Z.log2 (Z.max 1 prec) + 6))
          (Ref.mk_mpf (Z.abs (smant a)) (exp a))
          (Ref.mk_mpf (Z.abs (smant b)) (exp b)) (prec + 20);
    Return (round_to (if smant a <? 0 then - smant m else smant m) (exp m)
                     prec rnd).

(** The complex mean where it needs no complex square root off the real
    axis: equal operands, and opposite ones, whose mean is zero. *)
Definition mpc_agm (z w : mpc_t) (prec : Z) (rnd : rounding)
  : outcome mpc_t :=
  if bool_decide (z = w) then Return (Ref.mpc_pos z prec rnd)
  else
    s ← mpc_add z w 0 rnd;
    if bool_decide (s = (Ref.fzero, Ref.fzero)) then Return s
    else Raise (NotImplementedError "complex mean").

(** The integer part, toward zero. *)
Definition to_int (v : mpf_t) : outcome Z :=
  if is_special v then Raise (ValueError "cannot convert inf or nan to int")
  else if exp v >=? 0 then Return (Z.shiftl (smant v) (exp v))
  else Return (Z.sgn (smant v) * Z.shiftr (Z.abs (smant v)) (- exp v)).

#[global] Instance arith : ArithKernel :=
  Build_ArithKernel mpf_eq mpf_neg mpf_add mpf_sub mpf_mul mpf_mul_int
    mpf_div mpf_mod mpf_pow mpf_pow_int
    mpc_neg mpc_add mpc_add_mpf mpc_sub mpc_sub_mpf mpc_mul mpc_mul_mpf
    mpc_mul_int mpc_div mpc_div_mpf mpc_mpf_div mpc_pow mpc_pow_mpf
    mpc_pow_int mpi_add mpf_nthroot mpc_nthroot mpf_agm mpc_agm to_int
    (* the code 'f' *) round_floor.

(** [int(s)] on a decimal literal, and [rational.mpq] as the subclass of
    [tuple] that its construction from a pair suggests. *)
#[global] Instance builtins : Builtins := {|
  int_of_str := fun s =>
    match Ref.int_literal s with
    | Some n => Return n
    | None => Raise (ValueError "invalid literal for int()")
    end;
  mpq_is_tuple := true
|}.

End RefArith.

(** * Theorems *)

Section Theorems.
Context {K : Kernel}.

(** ** Precision and digits *)

Lemma set_prec_fields ctx n :
  _prec (set_prec ctx n) = Z.max 1 n /\
  _dps (set_prec ctx n) = prec_to_dps n /\
  _prec_rounding (set_prec ctx n) = (Z.max 1 n, snd (_prec_rounding ctx)) /\
  trap_complex (set_prec ctx n) = trap_complex ctx.
Proof. by unfold set_prec. Qed.

Lemma set_dps_fields ctx n :
  _prec (set_dps ctx n) = dps_to_prec n /\
  _dps (set_dps ctx n) = Z.max 1 n /\
  _prec_rounding (set_dps ctx n) = (dps_to_prec n, snd (_prec_rounding ctx)) /\
  trap_complex (set_dps ctx n) = trap_complex ctx.
Proof. by unfold set_dps. Qed.

(** C6.  After [set_prec(n)] and after [set_dps(n)], for every integer
    [n], also below one, the stored precision and the stored digits are
    both at least one, the shared [_prec_rounding] holds the same
    precision, and the pair is consistent under the conversion formulas
    [prec_to_dps] and [dps_to_prec], which are [libmp]'s and are taken
    under their contract. *)
Theorem set_prec_set_dps_consistent `{!DigitsContract K} (ctx : context)
    (n : Z) :
  settings_ok (set_prec ctx n) /\ settings_ok (set_dps ctx n).
Proof.
  split; unfold settings_ok, consistent; simpl.
  - split; [lia|]. split; [apply prec_to_dps_pos|]. split; [done|].
    left. destruct (Z.lt_ge_cases n 1) as [Hlt|Hge].
    + rewrite Z.max_l; [|lia]. by apply prec_to_dps_low.
    + by rewrite Z.max_r.
  - split; [apply dps_to_prec_pos|]. split; [lia|]. split; [done|].
    destruct (Z.lt_ge_cases n 1) as [Hlt|Hge].
    + left. rewrite Z.max_l; [|lia]. symmetry. by apply dps_to_prec_low.
    + right. by rewrite Z.max_r.
Qed.

(** ** Non-positive integers *)

Lemma isnpint_mpq depth ctx p q :
  isnpint (S depth) ctx (PyMpq p q) =
  Return (negb (mpq_nonzero p q) || (p =? 0) || ((q mod p =? 0) && (p <=? 0))).
Proof.
  simpl. destruct (mpq_nonzero p q); simpl; [|done].
  by destruct (p =? 0).
Qed.

(** C10.  The code at the failing input of the claim: for the rational
    [-1/2], which is not an integer ([2] does not divide [-1]),
    [isnpint] answers [True]; the test of the source is [q % p], with the
    operands of the divisibility test exchanged. *)
Theorem isnpint_mpq_minus_half (depth : nat) (ctx : context) :
  isnpint (S depth) ctx (PyMpq (-1) 2) = Return true /\ ~ (2 | -1).
Proof.
  split.
  - rewrite isnpint_mpq. by destruct (mpq_nonzero (-1) 2).
  - intros [k Hk]. lia.
Qed.

(** ** Ordering *)

(** C4.  Each of the four ordering operators applied to two [mpc] values,
    or to two [mpi] values, raises the [TypeError] of [_compare]; for [<],
    which neither class defines, the interpreter reaches it through the
    reflected [__gt__] of the right operand. *)
Theorem ordering_unsupported (ctx : context) (op : cmp_op) :
  (forall z1 z2 : mpc_t,
     rich_compare ctx (Vmpc z1) (Vmpc z2) op =
     Raise (TypeError "no ordering relation is defined for complex numbers"))
  /\
  (forall i1 i2 : mpi_t,
     rich_compare ctx (Vmpi i1) (Vmpi i2) op =
     Raise (TypeError "no ordering relation is defined for intervals")).
Proof. split; intros; by destruct op. Qed.

(** Where the missing [__lt__] shows: against an operand of another type
    that has no reflected method to offer, [<] raises nothing and is left
    to the interpreter's default ordering, while [>] raises. *)
Lemma mpc_lt_native (ctx : context) (z : mpc_t) (n : Z) :
  rich_compare ctx (Vmpc z) (PyInt n) Lt_op = Return CmpNotImplemented /\
  rich_compare ctx (Vmpc z) (PyInt n) Gt_op =
  Raise (TypeError "no ordering relation is defined for complex numbers").
Proof. done. Qed.

(** ** Promotion to complex *)

(** C3.  Let [f] be a context method defined by [def_mp_function] from
    the kernel functions [mpf_f] and [mpc_f], and let its argument be
    real, with kernel value [v] (a tower real as it is, a native number
    after [convert]).  If [mpf_f] signals [ComplexResult] on [v], then
    with [trap_complex] false the call returns, as an [mpc], what [mpc_f]
    computes on [(v, fzero)] at the same precision and rounding, and with
    [trap_complex] true it raises the [ComplexResult]. *)
Theorem def_mp_function_complex_result (mpf_f : mpf_fun) (mpc_f : mpc_fun)
    (mpi_f : option mpi_fun) (ctx : context) (x x' : pyval) (v : mpf_t)
    (kw : prec_kwargs) (msg : string) :
  (if in_ctx_types x then Return x else convert ctx x true) = Return x' ->
  get_mpf ctx x' = Some v ->
  mpf_f v (fst (prec_rounding_of ctx kw)) (snd (prec_rounding_of ctx kw))
    = Raise (ComplexResult msg) ->
  def_mp_function mpf_f (Some mpc_f) mpi_f ctx x kw =
  if trap_complex ctx then Raise (ComplexResult msg)
  else make_mpc <$> mpc_f (v, fzero) (fst (prec_rounding_of ctx kw))
                          (snd (prec_rounding_of ctx kw)).
Proof.
  intros Hx Hv Hf. unfold def_mp_function. rewrite Hx. simpl.
  destruct (prec_rounding_of ctx kw) as [prec rounding] eqn:Hpr.
  simpl in Hf. rewrite Hv, Hf. done.
Qed.

(** The same promotion in [_mpf.__pow__]. *)
Lemma mpf_pow_same_complex_result mpf_pow mpc_pow ctx sval tval msg :
  mpf_pow sval tval (fst (_prec_rounding ctx)) (snd (_prec_rounding ctx))
    = Raise (ComplexResult msg) ->
  mpf_pow_same mpf_pow mpc_pow ctx sval tval =
  if trap_complex ctx then Raise (ComplexResult msg)
  else make_mpc <$> mpc_pow (sval, fzero) (tval, fzero)
                      (fst (_prec_rounding ctx)) (snd (_prec_rounding ctx)).
Proof.
  intros Hpow. unfold mpf_pow_same.
  destruct (_prec_rounding ctx) as [prec rounding]. simpl in Hpow.
  by rewrite Hpow.
Qed.

End Theorems.

Section ScopeTheorems.
Context {K : Kernel}.

(** ** Precision scopes *)

Lemma apply_manager_heap m w :
  w_heap (apply_manager m w).2 = w_heap w.
Proof.
  unfold apply_manager. destruct (precfun m); [done|].
  by destruct (dpsfun m).
Qed.

Lemma enter_saves mgr m w :
  w_heap w !! mgr = Some m ->
  saved_precision (__enter__ mgr w).2 mgr = Some (prec (w_ctx w)).
Proof.
  intros Hm. unfold __enter__, saved_precision. rewrite Hm.
  rewrite apply_manager_heap. simpl. by rewrite lookup_insert_eq.
Qed.

Lemma exit_restores mgr w p :
  saved_precision w mgr = Some p -> 1 <= p ->
  __exit__ mgr w = (Return false, set_ctx w (set_prec (w_ctx w) p)) /\
  prec (w_ctx (__exit__ mgr w).2) = p.
Proof.
  intros Hp Hge. unfold __exit__, saved_precision in *. rewrite Hp.
  split; [done|]. simpl. unfold prec. simpl. lia.
Qed.

(** A [with] block restores the precision it found when its body leaves
    the saved precision of its manager alone, whether the body ends
    normally or raises. *)
Lemma with_stmt_restores {A} (mgr : nat) (body : comp A) (w : world) m :
  w_heap w !! mgr = Some m ->
  is_raise (__enter__ mgr w).1 = false ->
  1 <= prec (w_ctx w) ->
  (forall w1, saved_precision (body w1).2 mgr = saved_precision w1 mgr) ->
  (with_stmt mgr body w).1 = (body (__enter__ mgr w).2).1 /\
  prec (w_ctx (with_stmt mgr body w).2) = prec (w_ctx w).
Proof.
  intros Hm Henter Hge Hframe. unfold with_stmt.
  pose proof (enter_saves mgr m w Hm) as Hsaved.
  destruct (__enter__ mgr w) as [[u|e] w1] eqn:He; [|done].
  simpl in *. specialize (Hframe w1).
  destruct (body w1) as [r w2] eqn:Hb. simpl in *.
  rewrite Hsaved in Hframe.
  destruct (exit_restores mgr w2 _ Hframe Hge) as [Hex Hp].
  rewrite Hex in *. done.
Qed.

(** A block on another manager leaves the saved precision of [mgr]
    alone when its body does. *)
Lemma with_stmt_frame {A} (mgr other : nat) (body : comp A) :
  mgr <> other ->
  (forall w, saved_precision (body w).2 mgr = saved_precision w mgr) ->
  forall w, saved_precision (with_stmt other body w).2 mgr
            = saved_precision w mgr.
Proof.
  intros Hne Hframe w. unfold with_stmt.
  assert (Henter : saved_precision (__enter__ other w).2 mgr
                   = saved_precision w mgr).
  { unfold __enter__, saved_precision.
    destruct (w_heap w !! other) as [m|]; [|done].
    rewrite apply_manager_heap. simpl. by rewrite lookup_insert_ne. }
  destruct (__enter__ other w) as [[u|e] w1]; [|done].
  specialize (Hframe w1). destruct (body w1) as [r w2]. simpl in *.
  assert (Hexit : saved_precision (__exit__ other w2).2 mgr
                  = saved_precision w2 mgr).
  { unfold __exit__. by destruct (w_heap w2 !! other ≫= origp). }
  destruct (__exit__ other w2) as [[b|e] w3]; simpl in *; congruence.
Qed.

(** Two blocks on two different manager objects, one inside the other:
    the outer block ends at the precision it was entered with. *)
Lemma with_stmt_nested {A} (outer inner : nat) (body : comp A) (w : world)
    m :
  outer <> inner ->
  w_heap w !! outer = Some m ->
  is_raise (__enter__ outer w).1 = false ->
  1 <= prec (w_ctx w) ->
  (forall w1, saved_precision (body w1).2 outer = saved_precision w1 outer) ->
  prec (w_ctx (with_stmt outer (with_stmt inner body) w).2) = prec (w_ctx w).
Proof.
  intros Hne Hm Henter Hge Hframe.
  apply (with_stmt_restores outer (with_stmt inner body) w m);
    [done|done|done|].
  by apply with_stmt_frame.
Qed.

(** The decorated function restores the precision whatever the wrapped
    function does: its saved precision is a local variable. *)
Lemma decorated_restores (self : nat) (f : comp pyval) (w : world) m :
  w_heap w !! self = Some m ->
  1 <= prec (w_ctx w) ->
  prec (w_ctx (decorated self f w).2) = prec (w_ctx w).
Proof.
  intros Hm Hge. unfold decorated. rewrite Hm.
  match goal with |- context [let '(r, w') := ?t in _] => destruct t as [r w'] end.
  simpl. unfold prec in *. simpl. lia.
Qed.

(** C5.  The code at the failing input of the claim: one manager object,
    made by [extraprec(10)], is entered again inside its own block.  The
    inner [__enter__] overwrites [self.origp], and the outer block, entered
    at 53 bits, ends normally at 63 bits. *)
Theorem with_stmt_reentered :
  let w := {| w_ctx := init_context;
              w_heap := {[ 0%nat := extraprec 10 false ]} |} in
  prec (w_ctx w) = 53 /\
  (with_stmt 0 (with_stmt 0 pass) w).1 = Return () /\
  prec (w_ctx (with_stmt 0 (with_stmt 0 pass) w).2) = 63.
Proof. by vm_compute. Qed.

(** ** Intervals *)

(** C8, amended.  When the first argument is not already an interval and
    both endpoints convert ([a1] rounded toward floor, [b1] toward
    ceiling): if one of them is nan the result is the interval
    [(-inf, +inf)]; otherwise the result is [(a1, b1)] when [a1 <= b1] and
    the construction raises [AssertionError] when not; and every interval
    the constructor builds has [lower <= upper]. *)
Theorem mpi_new_spec (ctx : context) (a : pyval) (b : option pyval)
    (a1 b1 : mpf_t) :
  (forall i, a <> Vmpi i) ->
  mpf_new ctx a (with_rounding round_floor) = Return a1 ->
  mpf_new ctx (upper_argument a b) (with_rounding round_ceiling) = Return b1 ->
  (a1 = fnan \/ b1 = fnan -> mpf_le fninf finf = true ->
   mpi_new ctx a b = Return (Vmpi (fninf, finf))) /\
  (a1 <> fnan -> b1 <> fnan -> mpf_le a1 b1 = true ->
   mpi_new ctx a b = Return (Vmpi (a1, b1))) /\
  (a1 <> fnan -> b1 <> fnan -> mpf_le a1 b1 = false ->
   mpi_new ctx a b =
   Raise (AssertionError "endpoints must be properly ordered")) /\
  (forall lo hi, mpi_new ctx a b = Return (Vmpi (lo, hi)) ->
   mpf_le lo hi = true).
Proof.
  intros Ha Hfloor Hceil.
  assert (Hnew : mpi_new ctx a b =
    let '(a2, b2) :=
      if bool_decide (a1 = fnan) || bool_decide (b1 = fnan)
      then (fninf, finf) else (a1, b1) in
    if mpf_le a2 b2 then Return (make_mpi (a2, b2))
    else Raise (AssertionError "endpoints must be properly ordered")).
  { unfold mpi_new. destruct a; try (rewrite Hfloor; simpl; rewrite Hceil; done).
    by destruct (Ha v). }
  rewrite Hnew. clear Hnew.
  repeat split.
  - intros Hnan Hle.
    assert (bool_decide (a1 = fnan) || bool_decide (b1 = fnan) = true) as ->.
    { destruct Hnan as [->| ->];
        rewrite (bool_decide_eq_true_2 (fnan = fnan)) by done;
        [done|apply orb_true_r]. }
    by rewrite Hle.
  - intros Hna Hnb Hle.
    rewrite !bool_decide_eq_false_2 by done. simpl. by rewrite Hle.
  - intros Hna Hnb Hle.
    rewrite !bool_decide_eq_false_2 by done. simpl. by rewrite Hle.
  - intros lo hi.
    destruct (bool_decide (a1 = fnan) || bool_decide (b1 = fnan)).
    + destruct (mpf_le fninf finf) eqn:Hle; [|done].
      intros [= <- <-]. done.
    + destruct (mpf_le a1 b1) eqn:Hle; [|done].
      intros [= <- <-]. done.
Qed.

(** ** Conversion *)

(** C7, amended.  [convert] is lossless for native integers, floats and
    complex numbers: under every working precision the result stands for
    exactly the input.  An [mpq] and a string are read by the kernel at
    the context's working precision (and the string with its rounding
    mode). *)
Theorem convert_lossless_native `{!KernelExact K} (ctx : context)
    (strings : bool) :
  (forall n, exists v, convert ctx (PyInt n) strings = Return (Vmpf v) /\
                       mpf_is_rational v n 1) /\
  (forall f, exists v, convert ctx (PyFloat f) strings = Return (Vmpf v) /\
                       float_is K f v) /\
  (forall re im, exists v w,
     convert ctx (PyComplex re im) strings = Return (Vmpc (v, w)) /\
     float_is K re v /\ float_is K im w) /\
  (forall p q, convert ctx (PyMpq p q) strings =
               Return (Vmpf (from_rational p q (fst (_prec_rounding ctx))))) /\
  (forall s v,
     from_str s (fst (_prec_rounding ctx)) (snd (_prec_rounding ctx))
       = Return v ->
     convert ctx (PyStr s) true = Return (Vmpf v)).
Proof.
  repeat split.
  - intros n. exists (from_int n). split; [done|apply from_int_exact].
  - intros f. exists (from_float f). split; [done|apply from_float_exact].
  - intros re im. exists (from_float re), (from_float im).
    split; [done|]. split; apply from_float_exact.
  - intros p q. unfold convert. simpl. by destruct (_prec_rounding ctx).
  - intros s v Hs. unfold convert. simpl.
    destruct (_prec_rounding ctx) as [prec rounding]. simpl in Hs.
    by rewrite Hs.
Qed.

End ScopeTheorems.

Section HypsumTheorems.
Context {K : Kernel} {H : HypKernel}.

(** ** The pole test *)

(** The flag of position [S k] of a list, from the flags of the list that
    starts one position earlier. *)
Ltac shift_flags Hfl i :=
  let k := fresh "k" in
  let c := fresh "c" in
  let Hk := fresh "Hk" in
  let fl := fresh "fl" in
  let Hl := fresh "Hl" in
  let Hz := fresh "Hz" in
  intros k c Hk; destruct (Hfl (S k) c Hk) as (fl & Hl & Hz);
  exists fl; split; [|done];
  by replace (S i + k)%nat with (i + S k)%nat by lia.

Lemma py_le_int ctx a b : py_le ctx (PyInt a) (PyInt b) = Return (a <=? b).
Proof. done. Qed.

Lemma pole_cancelled_spec ctx flags c numer :
  forall ii ok,
  (forall k cc, numer !! k = Some cc ->
     exists fl, flags !! (ii + k)%nat = Some fl /\
                (is_Z_flag fl = true <-> exists n, cc = PyInt n)) ->
  pole_cancelled ctx flags (PyInt c) ii numer ok =
  Return (ok || existsb (cancels c) numer).
Proof.
  induction numer as [|cc numer IH]; intros ii ok Hfl; simpl.
  - by rewrite orb_false_r.
  - destruct (Hfl 0%nat cc eq_refl) as (fl & Hlook & Hz).
    rewrite Nat.add_0_r in Hlook. rewrite Hlook.
    assert (Htail : forall k cc', numer !! k = Some cc' ->
              exists fl', flags !! (S ii + k)%nat = Some fl' /\
                (is_Z_flag fl' = true <-> exists n, cc' = PyInt n)).
    { shift_flags Hfl ii. }
    destruct (is_Z_flag fl) eqn:Hflag.
    + destruct (proj1 Hz eq_refl) as [n ->]. rewrite py_le_int. simpl.
      destruct (n <=? 0) eqn:Hn; simpl.
      * rewrite IH by done. by destruct (c <=? n), ok.
      * rewrite IH by done. by destruct ok.
    + simpl. rewrite IH by done.
      assert (cancels c cc = false) as ->.
      { destruct cc; try done.
        exfalso. enough (false = true) by done. apply Hz. by eexists. }
      by destruct ok.
Qed.

Lemma existsb_cancels_false (c : Z) (numer : list pyval) :
  (forall k cc, numer !! k = Some (PyInt cc) -> ~ (cc <= 0 /\ c <= cc)) ->
  existsb (cancels c) numer = false.
Proof.
  intros Hno. apply not_true_iff_false. intros Hex.
  apply existsb_exists in Hex as (cc & Hin & Hc).
  apply list_elem_of_In, list_elem_of_lookup in Hin as [k Hk].
  destruct cc; try done. simpl in Hc.
  apply andb_true_iff in Hc as [H1 H2].
  apply (Hno k n Hk). lia.
Qed.

Lemma slice_to_lookup {A} (l : list A) p k x :
  0 <= p -> slice_to l p !! k = Some x -> l !! k = Some x /\ Z.of_nat k < p.
Proof.
  intros Hp. unfold slice_to. destruct (p <? 0) eqn:Hneg; [lia|].
  intros Hk. apply lookup_take_Some in Hk as [Hk Hlt]. split; [done|lia].
Qed.

(** The loop over the coefficients stops with the pole error at the
    first denominator-side integer whose pole no numerator removes. *)
Lemma hyp_scan_pole ctx p flags coeffs :
  (forall k cc, slice_to coeffs p !! k = Some cc ->
     exists fl, flags !! k = Some fl /\
                (is_Z_flag fl = true <-> exists n, cc = PyInt n)) ->
  forall rest i st,
  (forall k c, rest !! k = Some c ->
     exists fl, flags !! (i + k)%nat = Some fl /\
                (is_Z_flag fl = true <-> exists n, c = PyInt n)) ->
  (forall c, c ∈ rest -> as_int c = None ->
     is_raise (nint_distance ctx c) = false) ->
  (exists k c, rest !! k = Some (PyInt c) /\ p <= Z.of_nat (i + k) /\
               c <= 0 /\ existsb (cancels c) (slice_to coeffs p) = false) ->
  hyp_scan_coeffs ctx p flags coeffs i rest st =
  Raise (ZeroDivisionError "pole in hypergeometric series").
Proof.
  intros Hnum. induction rest as [|c0 rest IH]; intros i st Hfl Hfin Hbad.
  { destruct Hbad as (k & c & Hk & _). done. }
  simpl. destruct (Hfl 0%nat c0 eq_refl) as (fl & Hlook & Hz).
  rewrite Nat.add_0_r in Hlook. rewrite Hlook.
  assert (Htail : forall k c, rest !! k = Some c ->
            exists fl', flags !! (S i + k)%nat = Some fl' /\
              (is_Z_flag fl' = true <-> exists n, c = PyInt n)).
  { shift_flags Hfl i. }
  assert (Hfin' : forall c, c ∈ rest -> as_int c = None ->
            is_raise (nint_distance ctx c) = false).
  { intros c Hc. apply Hfin. by right. }
  destruct (is_Z_flag fl) eqn:Hflag.
  - destruct (proj1 Hz eq_refl) as [n ->].
    assert (Hcont : (~ (p <= Z.of_nat i /\ n <= 0 /\
                       existsb (cancels n) (slice_to coeffs p) = false)) ->
              hyp_scan_coeffs ctx p flags coeffs (S i) rest st =
              Raise (ZeroDivisionError "pole in hypergeometric series")).
    { intros Hhead. apply IH; [done|done|].
      destruct Hbad as (k & c & Hk & Hp & Hc & Hex). destruct k as [|k].
      - simpl in Hk. injection Hk as ->. rewrite Nat.add_0_r in Hp.
        by destruct Hhead.
      - exists k, c. split; [done|]. split; [|done]. lia. }
    destruct (Z.of_nat i >=? p) eqn:Hip; simpl.
    + destruct (n <=? 0) eqn:Hn; simpl.
      * rewrite pole_cancelled_spec by (intros k cc Hk; by apply Hnum).
        simpl. destruct (existsb (cancels n) (slice_to coeffs p)) eqn:Hex;
          [|done].
        apply Hcont. intros (_ & _ & ?). done.
      * apply Hcont. intros (_ & ? & _). lia.
    + apply Hcont. intros (? & _ & _). lia.
  - assert (Hni : as_int c0 = None).
    { destruct c0; try done.
      exfalso. enough (false = true) by done. apply Hz. by eexists. }
    pose proof (Hfin c0 (list_elem_of_here _ _) Hni) as Hok.
    destruct (nint_distance ctx c0) as [[n d]|e]; [|done]. simpl.
    apply IH; [done|done|].
    destruct Hbad as (k & c & Hk & Hp & Hc & Hex). destruct k as [|k].
    + simpl in Hk. injection Hk as ->. done.
    + exists k, c. split; [done|]. split; [|done]. lia.
Qed.

(** C1, amended.  Take a call of [hypsum] whose flags mark exactly the
    native integers, whose other coefficients have a nearest-integer
    distance, and whose coefficient list contains a denominator-side
    parameter (index [i >= p]) that is an integer [c <= 0] such that no
    numerator-side parameter is an integer [cc <= 0] with [c <= cc].  The
    call raises the pole error, whatever the fuel: the summator is never
    invoked and no value is returned. *)
Theorem hypsum_pole_error (fuel : nat) (ctx : context)
    (memo : list (hyp_key * summator_t)) (p q : Z) (flags : list ascii)
    (coeffs : list pyval) (z : pyval) (accurate_small : bool)
    (kwargs : hyp_kwargs) (i : nat) (c : Z) :
  0 <= p ->
  flags_agree flags coeffs ->
  is_Some (typed_argument ctx z) ->
  (forall c', c' ∈ coeffs -> as_int c' = None ->
     is_raise (nint_distance ctx c') = false) ->
  coeffs !! i = Some (PyInt c) ->
  p <= Z.of_nat i ->
  c <= 0 ->
  (forall ii cc, Z.of_nat ii < p -> coeffs !! ii = Some (PyInt cc) ->
     ~ (cc <= 0 /\ c <= cc)) ->
  exists memo',
    hypsum fuel ctx memo p q flags coeffs z accurate_small kwargs =
    Some {| hr_result :=
              Raise (ZeroDivisionError "pole in hypergeometric series");
            hr_summators := memo';
            hr_calls := [] |}.
Proof.
  intros Hp Hagree [[tag v] Hz] Hfin Hi Hip Hc Hnone.
  unfold hypsum. rewrite Hz.
  destruct (get_summator (p, q, flags, tag) memo) as [summator memo'].
  exists memo'.
  rewrite (hyp_scan_pole ctx p flags coeffs); [done| | |done|].
  - intros k cc Hk. apply slice_to_lookup in Hk as [Hk _]; [|done].
    destruct (Forall2_lookup_r _ _ _ _ _ Hagree Hk) as (fl & Hl & Hr).
    by exists fl.
  - intros k c' Hk.
    destruct (Forall2_lookup_r _ _ _ _ _ Hagree Hk) as (fl & Hl & Hr).
    by exists fl.
  - exists i, c. split; [done|]. split; [simpl; lia|]. split; [done|].
    apply existsb_cancels_false. intros k cc Hk.
    apply slice_to_lookup in Hk as [Hk Hlt]; [|done]. by apply (Hnone k).
Qed.

(** ** The escalation loop *)

Lemma xint_max_good a b : good_extraprec a -> good_extraprec (xint_max a b).
Proof.
  unfold xint_max. destruct a as [x| | |], b as [y| | |]; simpl; try done.
  destruct (x <? y) eqn:Hlt; simpl; lia.
Qed.

Lemma hyp_scan_good ctx p flags coeffs rest :
  forall i st st',
  good_extraprec (scan_extraprec st) ->
  hyp_scan_coeffs ctx p flags coeffs i rest st = Return st' ->
  good_extraprec (scan_extraprec st').
Proof.
  induction rest as [|c rest IH]; intros i st st' Hgood; simpl.
  - by intros [= <-].
  - destruct (flags !! i) as [fl|]; [|done].
    destruct (is_Z_flag fl).
    + destruct (if Z.of_nat i >=? p then py_le ctx c (PyInt 0) else Return false)
        as [[|]|e]; simpl; [|by apply IH|done].
      destruct (pole_cancelled ctx flags c 0 (slice_to coeffs p) false)
        as [[|]|e]; simpl; [by apply IH|done|done].
    + destruct (nint_distance ctx c) as [[n d]|e]; simpl; [|done].
      apply IH.
      match goal with
      | |- context [if ?b then _ else _] => destruct b
      end; simpl; [by apply xint_max_good|done].
Qed.

Section LoopFacts.
Variables (ctx : context) (summator : summator_t) (coeffs : list pyval)
  (v : kval) (maxprec : Z) (st : hyp_scan) (accurate_small : bool)
  (kwargs : hyp_kwargs).

Local Abbreviation one_pass := (hypsum_pass ctx summator coeffs v maxprec st
                    accurate_small kwargs).
Local Abbreviation run_loop := (hypsum_loop ctx summator coeffs v maxprec st
                    accurate_small kwargs).

Lemma pass_exceeds e eps :
  maxprec < e ->
  one_pass e eps =
  (Done (Raise (HypsumValueError (prec ctx) (prec ctx + e))), []).
Proof.
  intros Hlt. unfold hypsum_pass.
  destruct (e >? maxprec) eqn:Hgt; [done|lia].
Qed.

Lemma pass_retry e eps e' eps' c :
  one_pass e eps = (Retry e' eps', c) ->
  e' = e * 2 + 5 /\ eps' = eps + 5 /\ e <= maxprec /\ c = [prec ctx + e].
Proof.
  unfold hypsum_pass. destruct (e >? maxprec) eqn:Hgt; [done|].
  destruct (summator _ _ _ _ _ _ _) as [[[zv magnitude] mag_dict]|err];
    [|done].
  assert (Hle : e <= maxprec) by lia.
  destruct (jumps_resolved _ _ _ _).
  - destruct (accurate _ _ _); [done|].
    destruct (kw_zeroprec kwargs) as [zp|].
    + destruct (- magnitude >? zp).
      * by destruct (have_complex zv).
      * intros Heq. by inversion Heq.
    + intros Heq. by inversion Heq.
  - intros Heq. by inversion Heq.
Qed.

Lemma loop_mono fuel :
  forall e eps calls r fuel',
  run_loop fuel e eps calls = Some r -> (fuel <= fuel')%nat ->
  run_loop fuel' e eps calls = Some r.
Proof.
  induction fuel as [|fuel IH]; intros e eps calls r fuel' Hrun Hle; [done|].
  destruct fuel' as [|fuel']; [lia|]. simpl in *.
  destruct (one_pass e eps) as [[r0|e1 eps1] c]; [done|].
  apply IH; [done|lia].
Qed.

(** From an allowance that is not negative, the loop ends within
    [maxprec - e + 2] passes. *)
Lemma loop_terminates n :
  forall e eps calls,
  0 <= e -> (Z.to_nat (maxprec - e + 1) <= n)%nat ->
  exists r, run_loop (S n) e eps calls = Some r.
Proof.
  induction n as [|n IH]; intros e eps calls He Hn; simpl.
  - destruct (one_pass e eps) as [[r0|e1 eps1] c] eqn:Hpass; [by eexists|].
    apply pass_retry in Hpass as (_ & _ & Hle & _). lia.
  - destruct (one_pass e eps) as [[r0|e1 eps1] c] eqn:Hpass; [by eexists|].
    apply pass_retry in Hpass as (-> & -> & Hle & _).
    apply IH; lia.
Qed.

Lemma loop_reaches_run e eps calls e2 eps2 calls2 :
  loop_reaches ctx summator coeffs v maxprec st accurate_small kwargs
    e eps calls e2 eps2 calls2 ->
  forall fuel2 r, run_loop fuel2 e2 eps2 calls2 = Some r ->
  exists fuel, run_loop fuel e eps calls = Some r.
Proof.
  induction 1 as [|e eps calls e1 eps1 c e2 eps2 calls2 Hpass _ IH];
    intros fuel2 r Hrun.
  - by exists fuel2.
  - destruct (IH fuel2 r Hrun) as [fuel Hfuel].
    exists (S fuel). simpl. by rewrite Hpass.
Qed.

(** The pass that ends in the zero of the cancelled sum. *)
Lemma pass_zero e eps zv magnitude mag_dict zeroprec :
  e <= maxprec ->
  summator coeffs v (prec ctx) (prec ctx + e) eps
    ((fun _ => None) <$> magnitude_check st) kwargs
    = Return (zv, magnitude, mag_dict) ->
  jumps_resolved ctx st e mag_dict = true ->
  accurate accurate_small (- magnitude) e = false ->
  kw_zeroprec kwargs = Some zeroprec ->
  zeroprec < - magnitude ->
  one_pass e eps =
  (Done (if have_complex zv then mpc_new ctx (PyInt 0) (PyInt 0)
         else Return (make_mpf fzero)), [prec ctx + e]).
Proof.
  intros Hle Hsum Hjumps Hacc Hzp Hcancel. unfold hypsum_pass.
  destruct (e >? maxprec) eqn:Hgt; [lia|].
  rewrite Hsum, Hjumps, Hacc, Hzp.
  destruct (- magnitude >? zeroprec) eqn:Hc; [|lia].
  by destruct (have_complex zv).
Qed.

End LoopFacts.

Lemma mpc_new_zero ctx :
  mpf_pos (from_int 0) (fst (_prec_rounding ctx)) (snd (_prec_rounding ctx))
    = fzero ->
  mpc_new ctx (PyInt 0) (PyInt 0) = Return (make_mpc (fzero, fzero)).
Proof.
  intros Hz. unfold mpc_new, mpf_new, prec_rounding_of. simpl.
  destruct (_prec_rounding ctx) as [prec rounding]. simpl in *.
  by rewrite Hz.
Qed.

(** A call that ends before the loop needs no fuel. *)
Ltac ends_before_loop := by exists 0%nat; eexists.


(** C9.  Take a call of [hypsum] with [zeroprec] configured whose loop
    comes to a pass, with allowance [e] within [maxprec], in which the
    summator returns [(zv, have_complex, magnitude)] with every recorded
    term index resolved ([jumps_resolved]), the result not accepted as
    accurate, and the cancellation estimate [-magnitude] above
    [zeroprec].  Then the call returns an exact zero, [mpc(0)] when
    [have_complex] is set and [ctx.zero] when not, instead of retrying or
    raising.  ([mpc(0)] goes through [mpf(0)], which is [fzero] when the
    kernel's [mpf_pos] leaves the integer zero alone.) *)
Theorem hypsum_zero_within_threshold (ctx : context)
    (memo : list (hyp_key * summator_t)) (p q : Z) (flags : list ascii)
    (coeffs : list pyval) (z : pyval) (accurate_small : bool)
    (kwargs : hyp_kwargs) (tag : ascii) (v : kval) (st : hyp_scan)
    (e0 e eps : Z) (calls : list Z) (zv : kval) (magnitude : Z)
    (mag_dict : gmap Z (option Z)) (zeroprec : Z) :
  let summator := (get_summator (p, q, flags, tag) memo).1 in
  let maxprec := from_option id (default_hyper_maxprec (prec ctx))
                   (kw_maxprec kwargs) in
  typed_argument ctx z = Some (tag, v) ->
  hyp_scan_coeffs ctx p flags coeffs 0 coeffs scan_init = Return st ->
  scan_extraprec st = Fin e0 ->
  loop_reaches ctx summator coeffs v maxprec st accurate_small kwargs
    e0 25 [] e eps calls ->
  e <= maxprec ->
  summator coeffs v (prec ctx) (prec ctx + e) eps
    ((fun _ => None) <$> magnitude_check st) kwargs
    = Return (zv, magnitude, mag_dict) ->
  jumps_resolved ctx st e mag_dict = true ->
  accurate accurate_small (- magnitude) e = false ->
  kw_zeroprec kwargs = Some zeroprec ->
  zeroprec < - magnitude ->
  mpf_pos (from_int 0) (fst (_prec_rounding ctx)) (snd (_prec_rounding ctx))
    = fzero ->
  exists fuel, forall fuel', (fuel <= fuel')%nat ->
    hypsum fuel' ctx memo p q flags coeffs z accurate_small kwargs =
    Some {| hr_result :=
              Return (if have_complex zv then make_mpc (fzero, fzero)
                      else make_mpf fzero);
            hr_summators := (get_summator (p, q, flags, tag) memo).2;
            hr_calls := calls ++ [prec ctx + e] |}.
Proof.
  intros summator maxprec Hz Hscan He0 Hreach Hle Hsum Hjumps Hacc Hzp Hcancel
    Hzero.
  pose proof (pass_zero ctx summator coeffs v maxprec st accurate_small kwargs
                e eps zv magnitude mag_dict zeroprec Hle Hsum Hjumps Hacc Hzp
                Hcancel) as Hpass.
  assert (Hlast : hypsum_loop ctx summator coeffs v maxprec st accurate_small
                    kwargs 1 e eps calls =
                  Some (Return (if have_complex zv then make_mpc (fzero, fzero)
                                else make_mpf fzero), calls ++ [prec ctx + e])).
  { simpl. rewrite Hpass. destruct (have_complex zv); [|done].
    by rewrite mpc_new_zero. }
  destruct (loop_reaches_run _ _ _ _ _ _ _ _ _ _ _ _ _ _ Hreach _ _ Hlast)
    as [fuel Hfuel].
  exists fuel. intros fuel' Hge.
  unfold hypsum. rewrite Hz.
  subst summator maxprec.
  destruct (get_summator (p, q, flags, tag) memo) as [summator memo'].
  simpl in *. rewrite Hscan, He0.
  by rewrite (loop_mono _ _ _ _ _ _ _ _ _ _ _ _ _ _ Hfuel Hge).
Qed.

End HypsumTheorems.

(** ** The reference kernel meets the contracts *)

Lemma pos_odd_ctz (p : positive) :
  0 <= Ref.pos_ctz p /\
  Z.pos p = Z.pos (Ref.pos_odd p) * 2 ^ Ref.pos_ctz p.
Proof.
  induction p as [p IH|p [IH1 IH2]|]; simpl Ref.pos_ctz; simpl Ref.pos_odd.
  - split; [lia|]. rewrite Z.pow_0_r. lia.
  - split; [lia|]. rewrite Z.pow_add_r, Z.pow_1_r by lia.
    rewrite Pos2Z.inj_xO, IH2 at 1. lia.
  - split; [lia|]. by rewrite Z.pow_0_r.
Qed.

Lemma mk_mpf_rational (m e : Z) :
  mpf_is_rational (Ref.mk_mpf m e) (m * 2 ^ Z.max 0 e) (2 ^ Z.max 0 (- e)).
Proof.
  assert (Hpow : forall o c : Z, 0 <= c ->
            o * 2 ^ Z.max 0 (e + c) * 2 ^ Z.max 0 (- e) =
            o * 2 ^ c * 2 ^ Z.max 0 e * 2 ^ Z.max 0 (- (e + c))).
  { intros o c Hc. rewrite <- !Z.mul_assoc. f_equal.
    rewrite <- !Z.pow_add_r by lia. f_equal. lia. }
  destruct m as [|p|p]; unfold Ref.mk_mpf, mpf_is_rational, is_special, smant;
    simpl sign; simpl man; simpl exp.
  - split; [done|]. simpl. lia.
  - destruct (pos_odd_ctz p) as [Hc Hp]. split; [done|].
    change (0 =? 0) with true. cbv iota. rewrite Hp. by apply Hpow.
  - destruct (pos_odd_ctz p) as [Hc Hp]. split; [done|].
    change (1 =? 0) with false. cbv iota.
    rewrite <- Pos2Z.opp_pos. rewrite Hp.
    rewrite <- !Z.mul_opp_l. by apply Hpow.
Qed.

#[global] Instance Ref_kernel_exact : KernelExact Ref.kernel.
Proof.
  split.
  - intros n. pose proof (mk_mpf_rational n 0) as Hn.
    simpl in Hn. rewrite Z.mul_1_r in Hn. exact Hn.
  - intros [m e| | |]; simpl; [apply mk_mpf_rational|done..].
Qed.

Lemma round_div_le a b c : 0 < b -> 2 * a + b < 2 * b * (c + 1) ->
  Ref.round_div a b <= c.
Proof.
  intros Hb Hlt. unfold Ref.round_div.
  apply Z.lt_succ_r, Z.div_lt_upper_bound; lia.
Qed.

#[global] Instance Ref_digits_contract : DigitsContract Ref.kernel.
Proof.
  split; simpl.
  - intros n. unfold Ref.prec_to_dps. lia.
  - intros n. unfold Ref.dps_to_prec. lia.
  - intros n Hn. change (Ref.prec_to_dps 1) with 1. unfold Ref.prec_to_dps.
    pose proof (round_div_le (n * 10 ^ 16) 33219280948873626 0) as Hle.
    change (10 ^ 16) with 10000000000000000 in *. lia.
  - intros n Hn.
    assert (Hd : 1 <= Ref.dps_to_prec n <= 3).
    { unfold Ref.dps_to_prec.
      pose proof (round_div_le ((n + 1) * 33219280948873626) (10 ^ 16) 3)
        as Hle.
      change (10 ^ 16) with 10000000000000000 in *. lia. }
    assert (Hcases : Ref.dps_to_prec n = 1 \/ Ref.dps_to_prec n = 2 \/
                     Ref.dps_to_prec n = 3) by lia.
    destruct Hcases as [-> | [-> | ->]]; reflexivity.
Qed.

(** ** Closed instances *)

(** No power of two is a multiple of three, so no kernel real is one
    third: whatever the kernel, [convert] cannot return [mpq(1, 3)]
    unchanged. *)
Lemma pow2_mod3 (b : Z) : 0 <= b -> 2 ^ b mod 3 = 1 \/ 2 ^ b mod 3 = 2.
Proof.
  intros Hb. pattern b. apply natlike_ind; [by left| |done].
  intros x Hx IH. rewrite Z.pow_succ_r by done.
  rewrite Z.mul_mod by done.
  destruct IH as [-> | ->]; [by right|by left].
Qed.

Lemma no_mpf_is_one_third (v : mpf_t) : ~ mpf_is_rational v 1 3.
Proof.
  intros [_ Heq].
  destruct (pow2_mod3 (Z.max 0 (- exp v))) as [Hm|Hm]; [lia| |];
    rewrite Z.mul_1_l in Heq; rewrite <- Heq in Hm;
    rewrite Z.mod_mul in Hm; done.
Qed.

(** C7, counterexample.  At the default precision of 53 bits, [convert]
    turns the exact rational [mpq(1, 3)] into a kernel real that is not
    one third. *)
Lemma convert_mpq_not_lossless :
  exists v, convert (K := Ref.kernel) init_context (PyMpq 1 3) true
              = Return (Vmpf v) /\
            ~ mpf_is_rational v 1 3.
Proof.
  eexists. split; [reflexivity|]. apply no_mpf_is_one_third.
Qed.

Lemma convert_lossless_native_witness :
  (exists v, convert (K := Ref.kernel) init_context (PyInt (-12)) true
               = Return (Vmpf v) /\ mpf_is_rational v (-12) 1) /\
  convert (K := Ref.kernel) init_context (PyMpq 1 3) true =
    Return (Vmpf (Ref.from_rational 1 3 53)).
Proof.
  destruct (convert_lossless_native (K := Ref.kernel) init_context true)
    as (Hint & _ & _ & Hmpq & _).
  split; [apply Hint|apply Hmpq].
Defined.

(** C8, counterexample.  The endpoints [2] and [1] convert to kernel
    reals with [2 > 1], and the construction raises [AssertionError], not
    [ValueError]. *)
Lemma mpi_new_inverted_assertion :
  mpf_new (K := Ref.kernel) init_context (PyInt 2) (with_rounding round_floor)
    = Return (Ref.from_int 2) /\
  mpf_new (K := Ref.kernel) init_context (PyInt 1)
    (with_rounding round_ceiling) = Return (Ref.from_int 1) /\
  Ref.mpf_gt (Ref.from_int 2) (Ref.from_int 1) = true /\
  mpi_new (K := Ref.kernel) init_context (PyInt 2) (Some (PyInt 1)) =
    Raise (AssertionError "endpoints must be properly ordered") /\
  forall msg, mpi_new (K := Ref.kernel) init_context (PyInt 2)
                (Some (PyInt 1)) <> Raise (ValueError msg).
Proof. repeat split; by vm_compute. Qed.

Lemma mpi_new_spec_witness :
  mpi_new (K := Ref.kernel) init_context (PyInt 1) (Some (PyInt 2)) =
    Return (Vmpi (Ref.from_int 1, Ref.from_int 2)) /\
  mpi_new (K := Ref.kernel) init_context (PyInt 2) (Some (PyInt 1)) =
    Raise (AssertionError "endpoints must be properly ordered").
Proof.
  split.
  - apply (mpi_new_spec (K := Ref.kernel) init_context (PyInt 1)
             (Some (PyInt 2)) (Ref.from_int 1) (Ref.from_int 2));
      [done|reflexivity|reflexivity|by vm_compute|by vm_compute|reflexivity].
  - apply (mpi_new_spec (K := Ref.kernel) init_context (PyInt 2)
             (Some (PyInt 1)) (Ref.from_int 2) (Ref.from_int 1));
      [done|reflexivity|reflexivity|by vm_compute|by vm_compute|reflexivity].
Defined.

(** A nan endpoint on the reference kernel: the interval is the whole
    line. *)
Example mpi_new_nan :
  mpi_new (K := Ref.kernel) init_context (Vmpf Ref.fnan) (Some (PyInt 2)) =
  Return (Vmpi (Ref.fninf, Ref.finf)).
Proof. reflexivity. Qed.

Lemma set_prec_set_dps_consistent_witness :
  settings_ok (K := Ref.kernel) (set_prec init_context 0) /\
  settings_ok (K := Ref.kernel) (set_dps init_context 0).
Proof.
  exact (set_prec_set_dps_consistent (K := Ref.kernel) init_context 0).
Defined.

(** [sqrt(-1)] on the reference kernel: the imaginary unit [ctx.j] when
    [trap_complex] is false, the [ComplexResult] when it is true. *)
Lemma def_mp_function_complex_result_witness :
  Ref.sqrt init_context (PyInt (-1)) no_kwargs
    = Return (make_mpc (Ref.fzero, Ref.fone)) /\
  Ref.sqrt (set_trap_complex init_context true) (PyInt (-1)) no_kwargs
    = Raise (ComplexResult "square root of a negative number").
Proof.
  unfold Ref.sqrt. split.
  - rewrite (def_mp_function_complex_result (K := Ref.kernel)
               Ref.mpf_sqrt Ref.mpc_sqrt (Some Ref.mpi_sqrt) init_context
               (PyInt (-1)) (Vmpf (Ref.from_int (-1))) (Ref.from_int (-1))
               no_kwargs "square root of a negative number");
      reflexivity.
  - rewrite (def_mp_function_complex_result (K := Ref.kernel)
               Ref.mpf_sqrt Ref.mpc_sqrt (Some Ref.mpi_sqrt)
               (set_trap_complex init_context true) (PyInt (-1))
               (Vmpf (Ref.from_int (-1))) (Ref.from_int (-1)) no_kwargs
               "square root of a negative number");
      reflexivity.
Defined.

(** C1, counterexample.  With one numerator parameter [-2] and one
    denominator parameter [-5], the denominator parameter is an integer
    [<= 0] and no numerator parameter is an integer [<= 0] that is no
    greater than it ([-2 > -5]); yet the call does not raise the pole
    error, and it invokes the summator, at 103 bits. *)
Lemma hypsum_pole_claim_counterexample :
  let coeffs := [PyInt (-2); PyInt (-5)] in
  let run := hypsum (K := Ref.kernel) 1 init_context [] 1 1 ZZ coeffs
               (Vmpf Ref.fone) true no_hyp_kwargs in
  (exists i c, coeffs !! i = Some (PyInt c) /\ (1 <= i)%nat /\ c <= 0 /\
     forall ii cc, (ii < 1)%nat -> coeffs !! ii = Some (PyInt cc) ->
       ~ (cc <= 0 /\ cc <= c)) /\
  is_raise <$> (hr_result <$> run) = Some false /\
  hr_calls <$> run = Some [103].
Proof.
  split; [|split; by vm_compute].
  exists 1%nat, (-5). repeat split; try done.
  intros ii cc Hii Hcc. destruct ii as [|ii]; [|lia].
  injection Hcc as <-. lia.
Qed.

Lemma hypsum_pole_error_witness :
  exists memo',
    hypsum (K := Ref.kernel) 0 init_context [] 1 1 ZZ
      [PyInt (-5); PyInt (-2)] (Vmpf Ref.fone) true no_hyp_kwargs =
    Some {| hr_result :=
              Raise (ZeroDivisionError "pole in hypergeometric series");
            hr_summators := memo';
            hr_calls := [] |}.
Proof.
  apply (hypsum_pole_error (K := Ref.kernel) 0 init_context [] 1 1 ZZ
           [PyInt (-5); PyInt (-2)] (Vmpf Ref.fone) true no_hyp_kwargs
           1 (-2)).
  - lia.
  - repeat constructor; by eexists.
  - by eexists.
  - intros c' Hin Hnone.
    apply list_elem_of_In in Hin. simpl in Hin.
    destruct Hin as [<- | [<- | []]]; discriminate Hnone.
  - reflexivity.
  - simpl. lia.
  - lia.
  - intros ii cc Hii Hcc. destruct ii as [|ii]; [|lia].
    injection Hcc as <-. lia.
Defined.


(** The series [1 - 3 + 3 - 1], whose sum is exactly zero.  Without
    [zeroprec] no pass is accurate: the allowance goes
    50, 105, 215, 435, 875, 1755, and at 3515, above the ceiling of 2212
    bits, the call raises the [ValueError] with the precisions 53 and
    3568. *)
Example hypsum_escalation :
  let run := hypsum (K := Ref.kernel) 7 init_context [] 1 0 Zflag
               [PyInt (-3)] (Vmpf (Ref.from_int 1)) true no_hyp_kwargs in
  hr_result <$> run = Some (Raise (HypsumValueError 53 3568)) /\
  hr_calls <$> run = Some [103; 158; 268; 488; 928; 1808].
Proof. split; by vm_compute. Qed.

(** The binomial sum [1 + 3 + 3 + 1], which is exactly [2^3], at the base
    precision and in one pass. *)
Example hypsum_binomial :
  let run := hypsum (K := Ref.kernel) 1 init_context [] 1 0 Zflag
               [PyInt (-3)] (Vmpf (Ref.from_int (-1))) true no_hyp_kwargs in
  hr_result <$> run = Some (Return (Vmpf (Ref.from_int 8))) /\
  hr_calls <$> run = Some [103].
Proof. split; by vm_compute. Qed.

(** The same zero sum with [zeroprec] set to a hundred bits: the first
    pass, at 103 bits, reports a cancellation of 103 bits and the call
    returns the real zero. *)
Lemma hypsum_zero_within_threshold_witness :
  exists fuel, forall fuel', (fuel <= fuel')%nat ->
    hypsum (K := Ref.kernel) fuel' init_context [] 1 0 Zflag [PyInt (-3)]
      (Vmpf (Ref.from_int 1)) true zeroprec_kwargs =
    Some {| hr_result := Return (make_mpf Ref.fzero);
            hr_summators :=
              [((1, 0, Zflag, "R"%char),
                Ref.hyp_summator (1, 0, Zflag, "R"%char))];
            hr_calls := [103] |}.
Proof.
  refine (hypsum_zero_within_threshold (K := Ref.kernel) init_context
            [] 1 0 Zflag [PyInt (-3)] (Vmpf (Ref.from_int 1)) true
            zeroprec_kwargs "R"%char (KReal (Ref.from_int 1)) scan_init
            50 50 25 [] (KReal Ref.fzero) (-103) ∅ 100
            _ _ _ _ _ _ _ _ _ _ _).
  - reflexivity.
  - reflexivity.
  - reflexivity.
  - constructor.
  - by vm_compute.
  - by vm_compute.
  - reflexivity.
  - reflexivity.
  - reflexivity.
  - lia.
  - reflexivity.
Defined.

(** * Further properties of the module *)

Section ScopeExtras.
Context {K : Kernel}.

(** ** Scopes and wrapped functions *)

(** X1.  Two [with] blocks on two different manager objects, one inside
    the other, around a body that leaves the saved precision of both
    managers alone: the statement ends with the outcome of the body, an
    exception included, and the context is back at the precision the
    outer block was entered with. *)
Theorem nested_blocks_restore {A} (outer inner : nat) (body : comp A)
    (w : world) (m m' : PrecisionManager) :
  outer <> inner ->
  w_heap w !! outer = Some m ->
  w_heap w !! inner = Some m' ->
  is_raise (__enter__ outer w).1 = false ->
  is_raise (__enter__ inner (__enter__ outer w).2).1 = false ->
  1 <= prec (w_ctx w) ->
  (forall mgr w1, saved_precision (body w1).2 mgr = saved_precision w1 mgr) ->
  (with_stmt outer (with_stmt inner body) w).1 =
    (body (__enter__ inner (__enter__ outer w).2).2).1 /\
  prec (w_ctx (with_stmt outer (with_stmt inner body) w).2) = prec (w_ctx w).
Proof.
  intros Hne Hm Hm' Hout Hin Hge Hframe.
  destruct (with_stmt_restores outer (with_stmt inner body) w m)
    as [Hres Hprec]; [done|done|done| |].
  { apply with_stmt_frame; [done|]. intros w1. apply Hframe. }
  split; [|done]. rewrite Hres.
  set (w1 := (__enter__ outer w).2) in *.
  assert (Hm1 : exists m1, w_heap w1 !! inner = Some m1).
  { subst w1. unfold __enter__. rewrite Hm. rewrite apply_manager_heap.
    simpl. rewrite lookup_insert_ne by done. by eexists. }
  destruct Hm1 as [m1 Hm1].
  unfold with_stmt.
  pose proof (enter_saves inner m1 w1 Hm1) as Hsaved.
  destruct (__enter__ inner w1) as [[u|e] w2] eqn:He; [|done].
  simpl in *. specialize (Hframe inner w2).
  destruct (body w2) as [r w3]. simpl in *.
  unfold __exit__. unfold saved_precision in *.
  rewrite Hframe, Hsaved. done.
Qed.

(** X2.  The function that a manager returns when it is used as a
    decorator restores the precision whatever the wrapped function does
    (it may return, raise, or set the precision itself), and without
    [normalize_output] its outcome is the outcome of the wrapped function,
    run in the changed context. *)
Theorem decorated_call_restores (self : nat) (f : comp pyval) (w : world)
    (m : PrecisionManager) :
  w_heap w !! self = Some m ->
  1 <= prec (w_ctx w) ->
  prec (w_ctx (decorated self f w).2) = prec (w_ctx w) /\
  (normalize_output m = false ->
   is_raise (apply_manager m w).1 = false ->
   (decorated self f w).1 = (f (apply_manager m w).2).1).
Proof.
  intros Hm Hge. unfold decorated. rewrite Hm. split.
  - match goal with
    | |- context [let '(r, w') := ?t in _] => destruct t as [r w']
    end.
    simpl. unfold prec in *. simpl. lia.
  - intros Hno Happly. rewrite Hno.
    destruct (apply_manager m w) as [[u|e] w1]; [|done].
    simpl. by destruct (f w1).
Qed.

(** X3.  With [normalize_output] the decorated function rounds the value
    inside the scope: a real result [x] of a function that leaves the
    precision alone comes back as [+x] at the precision of the scope,
    [prec + n] for [extraprec(n)], although the context is back at [prec]
    when the call returns. *)
Theorem decorated_normalizes_in_scope (self : nat) (n : Z)
    (f : comp pyval) (w : world) (x : mpf_t) :
  w_heap w !! self = Some (extraprec n true) ->
  1 <= prec (w_ctx w) ->
  (forall w1, exists w2, f w1 = (Return (Vmpf x), w2) /\ w_ctx w2 = w_ctx w1) ->
  (decorated self f w).1 =
    Return (Vmpf (mpf_pos x (Z.max 1 (prec (w_ctx w) + n))
                    (snd (_prec_rounding (w_ctx w))))) /\
  prec (w_ctx (decorated self f w).2) = prec (w_ctx w).
Proof.
  intros Hm Hge Hf. unfold decorated. rewrite Hm. simpl.
  destruct (Hf (set_ctx w (set_prec (w_ctx w) (prec (w_ctx w) + n))))
    as (w2 & Hw & Hctx).
  rewrite Hw. simpl. unfold py_pos. rewrite Hctx. simpl.
  split; [done|]. unfold prec in *. simpl. lia.
Qed.

(** X4.  A function installed by [wrap_specfun] runs the wrapped function
    at ten more bits on the converted arguments and ends with the
    precision it was called with, whether the wrapped function returns or
    raises; a returned value is rounded by [+retval] after the precision
    is restored, and an exception is passed on.  When an argument does not
    convert, the wrapped function is not run and the context is
    untouched. *)
Theorem f_wrapped_restores (f : list pyval -> comp pyval)
    (args : list pyval) (w : world) :
  1 <= prec (w_ctx w) ->
  prec (w_ctx (f_wrapped f args w).2) = prec (w_ctx w) /\
  (forall e, mapM (fun a => convert (w_ctx w) a true) args = Raise e ->
     f_wrapped f args w = (Raise e, w)) /\
  (forall args' r w2,
     mapM (fun a => convert (w_ctx w) a true) args = Return args' ->
     f args' (set_ctx w (set_prec (w_ctx w) (prec (w_ctx w) + 10))) = (r, w2) ->
     (f_wrapped f args w).1 =
       (r ≫= py_pos (set_prec (w_ctx w2) (prec (w_ctx w))))).
Proof.
  intros Hge. unfold f_wrapped.
  destruct (mapM _ args) as [args'|e]; repeat split; try done.
  - destruct (f args' _) as [[v|e] w2]; simpl; unfold prec in *; simpl; lia.
  - intros ? r w2 [= <-] Hf. rewrite Hf. by destruct r.
  - by intros e' [= <-].
Qed.

End ScopeExtras.

Section HypsumExtras.
Context {K : Kernel} {H : HypKernel}.

(** ** The calls of the summator *)

Lemma pass_done ctx summator coeffs v maxprec st accurate_small kwargs
    e eps r c :
  hypsum_pass ctx summator coeffs v maxprec st accurate_small kwargs e eps
    = (Done r, c) ->
  (c = [] /\ maxprec < e /\ is_raise r = true) \/
  (c = [prec ctx + e] /\ e <= maxprec).
Proof.
  unfold hypsum_pass. destruct (e >? maxprec) eqn:Hgt.
  - intros [= <- <-]. left. repeat split; try done; lia.
  - assert (e <= maxprec) by lia.
    destruct (summator _ _ _ _ _ _ _) as [[[zv magnitude] mag_dict]|err].
    + destruct (jumps_resolved _ _ _ _); [|done].
      destruct (accurate _ _ _); [intros [= <- <-]; by right|].
      destruct (kw_zeroprec kwargs) as [zp|]; [|done].
      destruct (- magnitude >? zp); [|done].
      destruct (have_complex zv); intros [= <- <-]; by right.
    + intros [= <- <-]. by right.
Qed.

Lemma loop_calls ctx summator coeffs v maxprec st accurate_small kwargs fuel :
  forall e eps calls r calls',
  hypsum_loop ctx summator coeffs v maxprec st accurate_small kwargs
    fuel e eps calls = Some (r, calls') ->
  exists new, calls' = calls ++ new /\
    (forall k wp, new !! k = Some wp ->
       wp = prec ctx + Nat.iter k (fun e => e * 2 + 5) e /\
       wp <= prec ctx + maxprec) /\
    (is_raise r = false -> new <> []).
Proof.
  induction fuel as [|fuel IH]; intros e eps calls r calls'; [done|]. simpl.
  destruct (hypsum_pass _ _ _ _ _ _ _ _ _ _) as [[r0|e1 eps1] c] eqn:Hpass.
  - intros [= <- <-]. exists c. split; [done|].
    apply pass_done in Hpass as [(-> & Hlt & Hr)|(-> & Hle)].
    + split; [done|]. by rewrite Hr.
    + split; [|done]. intros [|k] wp; [|done]. intros [= <-]. simpl. lia.
  - intros Hrun. apply pass_retry in Hpass as (-> & -> & Hle & ->).
    apply IH in Hrun as (new & -> & Hnew & Hret).
    exists ((prec ctx + e) :: new). split; [by rewrite <- app_assoc|].
    split; [|done].
    intros [|k] wp; [simpl; intros [= <-]; lia|].
    intros Hk. change (new !! k = Some wp) in Hk. apply Hnew in Hk.
    by rewrite Nat.iter_succ_r.
Qed.

(** X5.  The working precisions at which a call of [hypsum] invokes the
    summator, in order: the first is [prec + e0] for an allowance [e0] of
    at least fifty bits that the scan of the parameters fixes, each later
    one comes from doubling the allowance and adding five, and none
    exceeds [prec + maxprec].  A call that returns a value has invoked
    the summator at least once. *)
Theorem hypsum_call_precisions (fuel : nat) (ctx : context)
    (memo : list (hyp_key * summator_t)) (p q : Z) (flags : list ascii)
    (coeffs : list pyval) (z : pyval) (accurate_small : bool)
    (kwargs : hyp_kwargs) (run : hyp_run) :
  hypsum fuel ctx memo p q flags coeffs z accurate_small kwargs = Some run ->
  let maxprec := from_option id (default_hyper_maxprec (prec ctx))
                   (kw_maxprec kwargs) in
  (exists e0, 50 <= e0 /\
     forall k wp, hr_calls run !! k = Some wp ->
       wp = prec ctx + Nat.iter k (fun e => e * 2 + 5) e0 /\
       wp <= prec ctx + maxprec) /\
  (is_raise (hr_result run) = false -> hr_calls run <> []).
Proof.
  intros Hrun maxprec. unfold hypsum in Hrun.
  assert (Hnone : hr_calls run = [] ->
            is_raise (hr_result run) = true ->
            (exists e0, 50 <= e0 /\
               forall k wp, hr_calls run !! k = Some wp ->
                 wp = prec ctx + Nat.iter k (fun e => e * 2 + 5) e0 /\
                 wp <= prec ctx + maxprec) /\
            (is_raise (hr_result run) = false -> hr_calls run <> [])).
  { intros -> ->. split; [|done]. exists 50. split; [lia|]. by intros k wp. }
  destruct (typed_argument ctx z) as [[tag v]|];
    [|injection Hrun as <-; by apply Hnone].
  destruct (get_summator (p, q, flags, tag) memo) as [summator memo'].
  destruct (hyp_scan_coeffs ctx p flags coeffs 0 coeffs scan_init)
    as [st|err] eqn:Hscan; [|injection Hrun as <-; by apply Hnone].
  pose proof (hyp_scan_good ctx p flags coeffs coeffs 0%nat scan_init st)
    as Hgood.
  destruct (scan_extraprec st) as [e| | |] eqn:He;
    try (injection Hrun as <-; by apply Hnone).
  simpl in Hgood.
  destruct (hypsum_loop _ _ _ _ _ _ _ _ _ _ _ _) as [[r calls]|] eqn:Hloop;
    [|done].
  simpl in Hrun. injection Hrun as <-. simpl.
  apply loop_calls in Hloop as (new & -> & Hnew & Hret). simpl.
  split; [|done]. exists e. split; [|done]. apply Hgood; [lia|done].
Qed.

(** ** The memo of summators *)

Lemma lookup_summator_cons key key' s memo :
  lookup_summator key' ((key, s) :: memo) =
  if bool_decide (key = key') then Some s else lookup_summator key' memo.
Proof.
  unfold lookup_summator. simpl. by destruct (bool_decide (key = key')).
Qed.

Lemma get_summator_spec key memo :
  lookup_summator key (get_summator key memo).2
    = Some (get_summator key memo).1 /\
  (forall key' s, lookup_summator key' memo = Some s ->
     lookup_summator key' (get_summator key memo).2 = Some s) /\
  (lookup_summator key memo = None ->
   get_summator key memo
     = (make_hyp_summator key, (key, make_hyp_summator key) :: memo)).
Proof.
  unfold get_summator.
  destruct (lookup_summator key memo) as [s|] eqn:Hl; simpl.
  - done.
  - repeat split.
    + rewrite lookup_summator_cons. by rewrite bool_decide_eq_true_2.
    + intros key' s Hs. rewrite lookup_summator_cons.
      destruct (bool_decide (key = key')) eqn:Hk; [|done].
      apply bool_decide_eq_true_1 in Hk as <-. congruence.
Qed.

Lemma hypsum_summators fuel ctx memo p q flags coeffs z accurate_small kwargs
    run :
  hypsum fuel ctx memo p q flags coeffs z accurate_small kwargs = Some run ->
  hr_summators run =
  match typed_argument ctx z with
  | Some (tag, _) => (get_summator (p, q, flags, tag) memo).2
  | None => memo
  end.
Proof.
  unfold hypsum. destruct (typed_argument ctx z) as [[tag v]|];
    [|by intros [= <-]].
  destruct (get_summator (p, q, flags, tag) memo) as [summator memo'].
  destruct (hyp_scan_coeffs _ _ _ _ _ _ _) as [st|err]; [|by intros [= <-]].
  destruct (scan_extraprec st) as [e| | |]; try by intros [= <-].
  destruct (hypsum_loop _ _ _ _ _ _ _ _ _ _ _ _) as [[r calls]|]; [|done].
  by intros [= <-].
Qed.

(** X6.  The memo [ctx.hyp_summators] only grows: a call of [hypsum]
    keeps every summator the memo held, builds the one of its key
    [(p, q, flags, type)] with [make_hyp_summator] when the memo has none
    and puts it in the memo, and a later call with the same key, whatever
    its coefficients and options, leaves the memo as it is. *)
Theorem hypsum_memo_grows (fuel : nat) (ctx : context)
    (memo : list (hyp_key * summator_t)) (p q : Z) (flags : list ascii)
    (coeffs : list pyval) (z : pyval) (accurate_small : bool)
    (kwargs : hyp_kwargs) (run : hyp_run) (tag : ascii) (v : kval) :
  hypsum fuel ctx memo p q flags coeffs z accurate_small kwargs = Some run ->
  typed_argument ctx z = Some (tag, v) ->
  (forall key s, lookup_summator key memo = Some s ->
     lookup_summator key (hr_summators run) = Some s) /\
  (lookup_summator (p, q, flags, tag) memo = None ->
   hr_summators run
     = ((p, q, flags, tag), make_hyp_summator (p, q, flags, tag)) :: memo) /\
  (forall fuel' coeffs' accurate_small' kwargs' run',
     hypsum fuel' ctx (hr_summators run) p q flags coeffs' z accurate_small'
       kwargs' = Some run' ->
     hr_summators run' = hr_summators run).
Proof.
  intros Hrun Hz. apply hypsum_summators in Hrun. rewrite Hz in Hrun.
  destruct (get_summator_spec (p, q, flags, tag) memo) as (Hkey & Hold & Hnew).
  rewrite Hrun. repeat split.
  - done.
  - intros Hnone. by rewrite (Hnew Hnone).
  - intros fuel' coeffs' acc' kwargs' run' Hrun'.
    apply hypsum_summators in Hrun'. rewrite Hz in Hrun'. rewrite Hrun'.
    unfold get_summator at 1. by rewrite Hkey.
Qed.

End HypsumExtras.

Section NumberExtras.
Context {K : Kernel}.

(** ** Nearest integers *)

(** X7.  For a rational [p/q] with a positive denominator, [nint_distance]
    returns an integer [n] with [|p/q - n| <= 1/2], and the distance it
    reports is [-inf] exactly when [q] divides [p]. *)
Theorem nint_distance_mpq_nearest (ctx : context) (p q : Z) :
  0 < q ->
  exists n d, nint_distance ctx (PyMpq p q) = Return (n, d) /\
    2 * Z.abs (p - n * q) <= q /\
    (d = NInf <-> (q | p)).
Proof.
  intros Hq. unfold nint_distance. simpl.
  destruct (q =? 0) eqn:Hq0; [lia|].
  pose proof (Z.div_mod p q ltac:(lia)) as Hdm.
  pose proof (Z.mod_pos_bound p q Hq) as Hr.
  assert (Hdiv : (q | p) <-> p mod q = 0).
  { split; [apply Z.mod_divide; lia|]. intros H0. apply Z.mod_divide; [lia|done]. }
  destruct (2 * (p mod q) >=? q) eqn:Hhalf.
  - eexists _, _. split; [done|]. split; [lia|].
    rewrite Hdiv. split; [done|lia].
  - destruct (p mod q =? 0) eqn:Hz.
    + apply Z.eqb_eq in Hz.
      eexists _, _. split; [done|]. split; [lia|]. by rewrite Hdiv.
    + apply Z.eqb_neq in Hz.
      eexists _, _. split; [done|]. split; [lia|].
      rewrite Hdiv. split; [done|lia].
Qed.

(** The choice between the floor [n1] and the ceiling [n2] of [X / B]. *)
Lemma nearest_of_fixed (X B : Z) :
  0 < B ->
  let n1 := X / B in
  let n2 := - (- X / B) in
  let dist1 := Z.abs (X - n1 * B) in
  let dist2 := Z.abs (X - n2 * B) in
  let n := if dist1 <? dist2 then n1 else n2 in
  2 * Z.abs (X - n * B) <= B /\
  (0 <= 2 * X < B -> n = 0) /\
  (- B <= 2 * X < 0 -> n = 0).
Proof.
  intros HB n1 n2 dist1 dist2 n.
  pose proof (Z.div_mod X B ltac:(lia)) as Hdm.
  pose proof (Z.mod_pos_bound X B HB) as Hr.
  pose proof (Z.div_mod (- X) B ltac:(lia)) as Hdm'.
  pose proof (Z.mod_pos_bound (- X) B HB) as Hr'.
  subst n dist1 dist2 n1 n2.
  generalize dependent (X / B). generalize dependent (X mod B).
  generalize dependent (- X / B). generalize dependent (- X mod B).
  intros r' Hr' a' Hdm' r Hr a Hdm.
  assert (Ha : a + a' = 0 \/ a + a' = -1) by nia.
  replace (X - a * B) with r by lia.
  replace (X - - a' * B) with (- r') by lia.
  destruct (Z.abs r <? Z.abs (- r')) eqn:Hlt.
  - replace (X - a * B) with r by lia.
    repeat split; [lia| |]; intros Hx; nia.
  - replace (X - - a' * B) with (- r') by lia.
    repeat split; [lia| |]; intros Hx; nia.
Qed.

(** X8.  For a finite nonzero kernel real, with a mantissa below
    [2^bc], [nint_distance] returns a nearest integer: the integer [n] it
    returns is at most one half away from the value [smant * 2^exp]. *)
Theorem nint_distance_mpf_nearest (ctx : context) (v : mpf_t) :
  0 < man v -> man v < 2 ^ bc v ->
  exists n d, nint_distance ctx (Vmpf v) = Return (n, d) /\
    Z.abs (2 * smant v * 2 ^ Z.max 0 (exp v) - 2 * n * 2 ^ Z.max 0 (- exp v))
      <= 2 ^ Z.max 0 (- exp v).
Proof.
  intros Hman Hbc.
  assert (Hbc1 : 1 <= bc v).
  { destruct (Z.le_gt_cases 1 (bc v)) as [|Hlt]; [done|].
    assert (2 ^ bc v <= 2 ^ 0) by (destruct (Z.le_gt_cases 0 (bc v));
      [apply Z.pow_le_mono_r; lia|rewrite Z.pow_neg_r; simpl; lia]).
    simpl in *. lia. }
  unfold nint_distance, nint_distance_num, nint_distance_re. simpl.
  fold (smant v). set (s := smant v).
  assert (Hs : Z.abs s = man v) by (subst s; unfold smant; destruct (sign v =? 0); lia).
  assert (HB : 0 < 2 ^ bc v) by (apply Z.pow_pos_nonneg; lia).
  destruct (exp v + bc v <? -1) eqn:Hshift.
  - eexists _, _. split; [done|].
    rewrite Z.max_l by lia. rewrite Z.max_r by lia.
    assert (2 ^ (bc v + 1) <= 2 ^ (- exp v)) by (apply Z.pow_le_mono_r; lia).
    rewrite Z.pow_add_r in * by lia. lia.
  - destruct (s =? 0) eqn:Hs0; [lia|]. simpl.
    destruct (exp v >=? 0) eqn:Hexp.
    + eexists _, _. split; [done|].
      rewrite Z.max_r by lia. rewrite Z.max_l by lia.
      rewrite Z.shiftl_mul_pow2 by lia. simpl. lia.
    + rewrite Z.max_l by lia. rewrite Z.max_r by lia.
      set (xfixed := if exp v + bc v >=? 0 then Z.shiftl s (exp v + bc v)
                     else Z.shiftr s (- (exp v + bc v))).
      rewrite !Z.shiftr_div_pow2, !Z.shiftl_mul_pow2 by lia.
      pose proof (nearest_of_fixed xfixed (2 ^ bc v) HB) as Hnear.
      simpl in Hnear.
      set (n1 := xfixed / 2 ^ bc v) in *.
      set (n2 := - (- xfixed / 2 ^ bc v)) in *.
      set (n := if Z.abs (xfixed - n1 * 2 ^ bc v) <?
                   Z.abs (xfixed - n2 * 2 ^ bc v) then n1 else n2) in *.
      exists n.
      assert (Hret : exists d,
        (let '(re_dist, n) :=
           if Z.abs (xfixed - n1 * 2 ^ bc v) <? Z.abs (xfixed - n2 * 2 ^ bc v)
           then (Z.abs (xfixed - n1 * 2 ^ bc v), n1)
           else (Z.abs (xfixed - n2 * 2 ^ bc v), n2) in
         Return (n, xint_max
                      (if negb (re_dist =? 0)
                       then Fin (bitcount re_dist - bc v) else NInf) NInf))
        = Return (n, d)).
      { subst n. destruct (Z.abs (xfixed - n1 * 2 ^ bc v) <?
                           Z.abs (xfixed - n2 * 2 ^ bc v));
          eexists; reflexivity. }
      destruct Hret as [d Hret]. exists d. split; [exact Hret|].
      clear Hret. clearbody n. clear n1 n2.
      destruct Hnear as (Hhalf & Hpos & Hneg).
      rewrite Z.pow_0_r, Z.mul_1_r.
      subst xfixed. destruct (exp v + bc v >=? 0) eqn:Hsh.
      * rewrite Z.shiftl_mul_pow2 in * by lia.
        set (T := 2 ^ (- exp v)) in *.
        set (P := 2 ^ (exp v + bc v)) in *.
        assert (HP : 0 < P) by (apply Z.pow_pos_nonneg; lia).
        assert (HT : 2 ^ bc v = P * T).
        { subst P T. rewrite <- Z.pow_add_r by lia. f_equal. lia. }
        rewrite HT in Hhalf.
        replace (s * P - n * (P * T)) with (P * (s - n * T)) in Hhalf by lia.
        rewrite Z.abs_mul, (Z.abs_eq P) in Hhalf by lia.
        replace (2 * s - 2 * n * T) with (2 * (s - n * T)) by lia.
        rewrite Z.abs_mul. simpl (Z.abs 2). nia.
      * assert (Hsh1 : exp v + bc v = -1) by lia.
        replace (- (exp v + bc v)) with 1 in * by lia.
        rewrite Z.shiftr_div_pow2 in * by lia. change (2 ^ 1) with 2 in *.
        pose proof (Z.div_mod s 2 ltac:(lia)) as Hdm.
        pose proof (Z.mod_pos_bound s 2 ltac:(lia)) as Hr.
        assert (HT : 2 ^ (- exp v) = 2 * 2 ^ bc v).
        { replace (- exp v) with (1 + bc v) by lia.
          by rewrite Z.pow_add_r by lia. }
        rewrite HT.
        assert (Hn0 : n = 0).
        { destruct (Z.le_gt_cases 0 s); [apply Hpos|apply Hneg]; lia. }
        rewrite Hn0. lia.
Qed.

End NumberExtras.

Section TowerExtras.
Context {K : Kernel}.

(** ** Conversion *)

Lemma convert_tower (ctx : context) (strings : bool) (x y : pyval) :
  (forall s, x <> PyStr s) ->
  convert ctx x strings = Return y -> in_ctx_types y = true.
Proof.
  intros Hstr Hconv. unfold convert in Hconv.
  destruct (in_ctx_types x) eqn:Hx; [by injection Hconv as <-|].
  destruct (_prec_rounding ctx) as [prec rounding].
  destruct x; try done; try (by injection Hconv as <-).
  by destruct (Hstr s).
Qed.

(** X9.  Whatever [convert] returns for an argument that is not a string
    is an instance of one of the context's types, and [convert] returns
    such an instance as it is, under every context and precision: the
    conversion is idempotent and never rounds a tower value again. *)
Theorem convert_idempotent (ctx : context) (strings : bool) (x y : pyval) :
  (forall s, x <> PyStr s) ->
  convert ctx x strings = Return y ->
  in_ctx_types y = true /\
  forall ctx' strings', convert ctx' y strings' = Return y.
Proof.
  intros Hstr Hconv.
  pose proof (convert_tower ctx strings x y Hstr Hconv) as Hy.
  split; [done|]. intros ctx' strings'. unfold convert. by rewrite Hy.
Qed.

(** ** Non-positive integers *)

(** X10.  [isnpint] does not return on an interval: an interval is true,
    has neither [_mpf_] nor [_mpc_], is no integer and no [mpq], and
    [convert] gives it back unchanged, so the method calls itself with
    the same argument until the recursion limit is hit, whatever the
    limit. *)
Theorem isnpint_interval_recursion (depth : nat) (ctx : context)
    (i : mpi_t) :
  isnpint depth ctx (Vmpi i) = Raise RecursionLimit.
Proof.
  induction depth as [|depth IH]; [done|]. simpl. exact IH.
Qed.

(** X11.  On a kernel real in normal form (an odd mantissa) that is not
    the kernel's zero, [isnpint] is right: it returns true exactly when
    the value [smant * 2^exp] is an integer that is not positive. *)
Theorem isnpint_mpf_correct (depth : nat) (ctx : context) (v : mpf_t) :
  0 < man v -> Z.odd (man v) = true -> v <> fzero ->
  exists b, isnpint (S depth) ctx (Vmpf v) = Return b /\
    (b = true <-> exists n, n <= 0 /\ mpf_is_rational v n 1).
Proof.
  intros Hman Hodd Hz. simpl.
  rewrite bool_decide_eq_false_2 by done. simpl.
  eexists. split; [done|].
  unfold mpf_is_rational, is_special, smant.
  rewrite andb_true_iff, negb_true_iff, Z.eqb_neq, Z.geb_le.
  assert (Hm0 : (man v =? 0) = false) by lia. rewrite Hm0. simpl.
  split.
  - intros [Hs He]. exists (- man v * 2 ^ exp v).
    destruct (sign v =? 0) eqn:Hs0; [lia|].
    rewrite Z.max_r, Z.max_l by lia. simpl.
    assert (0 < 2 ^ exp v) by (apply Z.pow_pos_nonneg; lia).
    split; [nia|split; [done|lia]].
  - intros (n & Hn & _ & Heq).
    destruct (Z.le_gt_cases 0 (exp v)) as [He|He].
    + rewrite Z.max_r, Z.max_l in Heq by lia. simpl in Heq.
      assert (0 < 2 ^ exp v) by (apply Z.pow_pos_nonneg; lia).
      destruct (sign v =? 0) eqn:Hs0; [nia|]. split; [lia|done].
    + exfalso. rewrite Z.max_l, Z.max_r in Heq by lia. simpl in Heq.
      replace (- exp v) with (1 + (- exp v - 1)) in Heq by lia.
      rewrite Z.pow_add_r in Heq by lia. change (2 ^ 1) with 2 in Heq.
      assert (Heven : Z.even (man v) = true).
      { rewrite Z.even_spec.
        destruct (sign v =? 0).
        - exists (n * 2 ^ (- exp v - 1)). lia.
        - exists (- n * 2 ^ (- exp v - 1)). lia. }
      rewrite <- Z.negb_odd, Hodd in Heven. done.
Qed.

End TowerExtras.

Section MaybeRationalExtras.
Context {K : Kernel} {B : Builtins}.

(** ** Parameters of hypergeometric functions *)

Lemma classify_real_flag (x : pyval) (v : mpf_t) (y : pyval) (fl : ascii) :
  (forall n, x <> PyInt n) ->
  classify_real x v = (y, fl) ->
  (is_Z_flag fl = true <-> exists n, y = PyInt n).
Proof.
  intros Hx. unfold classify_real.
  destruct (negb (man v =? 0)).
  - destruct (exp v >=? -4).
    + destruct (exp v >=? 0); intros [= <- <-].
      * split; [by eexists|done].
      * split; [done|by intros [n ?]].
    + intros [= <- <-]. split; [done|by intros [n ?]].
  - destruct (exp v =? 0); intros [= <- <-].
    + split; [by eexists|done].
    + split; [done|]. intros [n ->]. by destruct (Hx n).
Qed.

Lemma classify_tower_flag (ctx : context) (x y : pyval) (fl : ascii) :
  classify_tower ctx x = Some (y, fl) ->
  (is_Z_flag fl = true <-> exists n, y = PyInt n).
Proof.
  unfold classify_tower.
  destruct x as [| | | | | | | |v|[v im]|i|func]; simpl; try done.
  - intros [= Heq]. by apply classify_real_flag in Heq.
  - destruct (negb (bool_decide (im = fzero))).
    + intros [= <- <-]. split; [done|by intros [n ?]].
    + intros [= Heq]. by apply classify_real_flag in Heq.
  - intros [= Heq]. by apply classify_real_flag in Heq.
Qed.

Lemma reduce_pair_flag (p q y : pyval) (fl : ascii) :
  reduce_pair p q = Return (y, fl) ->
  (is_Z_flag fl = true <-> exists n, y = PyInt n).
Proof.
  unfold reduce_pair. destruct p as [p| | | | | | | | | | |]; try done.
  destruct q as [q| | | | | | | | | | |]; try done.
  destruct (q =? 0); [done|].
  destruct (p mod q =? 0); intros [= <- <-].
  - split; [by eexists|done].
  - split; [done|by intros [n ?]].
Qed.

Lemma classify_converted_flag (ctx : context) (x y : pyval) (fl : ascii) :
  (forall y, convert ctx x true = Return y -> in_ctx_types y = true) ->
  classify_converted ctx x = Return (y, fl) ->
  (is_Z_flag fl = true <-> exists n, y = PyInt n).
Proof.
  intros Htower. unfold classify_converted.
  destruct (convert ctx x true) as [y0|e]; [|done]. simpl.
  specialize (Htower y0 eq_refl).
  destruct (classify_tower ctx y0) as [[y1 fl1]|] eqn:Hc; simpl.
  - intros [= <- <-]. by apply classify_tower_flag in Hc.
  - intros [= <- <-]. split; [done|]. intros [n ->]. done.
Qed.

Lemma convert_maybe_rational_flag (ctx : context) (x y : pyval) (fl : ascii) :
  (forall y, convert ctx x true = Return y -> in_ctx_types y = true) ->
  convert_maybe_rational ctx x = Return (y, fl) ->
  (is_Z_flag fl = true <-> exists n, y = PyInt n).
Proof.
  intros Htower. unfold convert_maybe_rational.
  destruct (classify_tower ctx x) as [[y1 fl1]|] eqn:Hc.
  { intros [= <- <-]. by apply classify_tower_flag in Hc. }
  destruct x as [n| | |s|l|p q| | | | | |];
    try (by apply classify_converted_flag).
  - intros [= <- <-]. split; [by eexists|done].
  - destruct (has_char "/" s); [|by apply classify_converted_flag].
    destruct (split_on "/" s) as [|ps [|qs [|]]]; try done.
    destruct (int_of_str ps) as [p|]; [|done]. simpl.
    destruct (int_of_str qs) as [q|]; [|done].
    apply (reduce_pair_flag (PyInt p) (PyInt q)).
  - destruct l as [|p [|q [|]]]; try done;
      destruct p; try done; try (by apply (reduce_pair_flag _ q)).
    by apply classify_converted_flag.
  - destruct mpq_is_tuple; [apply (reduce_pair_flag (PyInt p) (PyInt q))|].
    by apply classify_converted_flag.
Qed.


(** X13.  On a kernel real [convert_maybe_rational] loses nothing.  A
    nonzero finite value [smant * 2^exp] comes back as the native integer
    of the same value when [exp >= 0], as the fraction
    [smant / 2^(-exp)] (with a denominator 2, 4, 8 or 16) when
    [-4 <= exp < 0], and as the same real, marked ['R'], when [exp < -4];
    a zero mantissa with a zero exponent gives the integer 0, and a
    special value comes back unchanged, marked ['U']. *)
Theorem convert_maybe_rational_exact (ctx : context) (v : mpf_t) :
  (man v <> 0 -> 0 <= exp v ->
   exists n, convert_maybe_rational ctx (Vmpf v) = Return (PyInt n, "Z"%char)
             /\ mpf_is_rational v n 1) /\
  (man v <> 0 -> -4 <= exp v < 0 ->
   exists p q, convert_maybe_rational ctx (Vmpf v)
                 = Return (PyMpq p q, "Q"%char)
               /\ q = 2 ^ (- exp v) /\ 2 <= q <= 16
               /\ mpf_is_rational v p q) /\
  (man v <> 0 -> exp v < -4 ->
   convert_maybe_rational ctx (Vmpf v) = Return (Vmpf v, "R"%char)) /\
  (man v = 0 -> exp v = 0 ->
   convert_maybe_rational ctx (Vmpf v) = Return (PyInt 0, "Z"%char)) /\
  (man v = 0 -> exp v <> 0 ->
   convert_maybe_rational ctx (Vmpf v) = Return (Vmpf v, "U"%char)).
Proof.
  unfold convert_maybe_rational, classify_tower, classify_real. simpl.
  repeat split.
  - intros Hm He.
    destruct (man v =? 0) eqn:Hm0; [lia|]. simpl.
    destruct (exp v >=? -4) eqn:H4; [|lia]. destruct (exp v >=? 0) eqn:H0; [|lia].
    eexists. split; [done|]. unfold mpf_is_rational, is_special, smant.
    rewrite Hm0. split; [done|].
    rewrite Z.shiftl_mul_pow2 by lia.
    rewrite Z.max_r, Z.max_l by lia.
    destruct (sign v =? 0); simpl; lia.
  - intros Hm He.
    destruct (man v =? 0) eqn:Hm0; [lia|]. simpl.
    destruct (exp v >=? -4) eqn:H4; [|lia]. destruct (exp v >=? 0) eqn:H0; [lia|].
    eexists _, _. split; [done|].
    rewrite Z.shiftl_mul_pow2, Z.mul_1_l by lia.
    split; [done|]. split.
    + assert (2 ^ 1 <= 2 ^ (- exp v) <= 2 ^ 4)
        by (split; apply Z.pow_le_mono_r; lia).
      simpl in *. lia.
    + unfold mpf_is_rational, is_special, smant. rewrite Hm0. split; [done|].
      rewrite Z.max_l, Z.max_r by lia.
      destruct (sign v =? 0); simpl; lia.
  - intros Hm He.
    destruct (man v =? 0) eqn:Hm0; [lia|]. simpl.
    by destruct (exp v >=? -4) eqn:H4; [lia|].
  - intros Hm He.
    destruct (man v =? 0) eqn:Hm0; [|lia]. simpl.
    by destruct (exp v =? 0) eqn:H0; [|lia].
  - intros Hm He.
    destruct (man v =? 0) eqn:Hm0; [|lia]. simpl.
    by destruct (exp v =? 0) eqn:H0; [lia|].
Qed.

(** X14.  A pair [(p, q)] of native integers is divided out when the
    division is exact and kept as it is when not: the result is the
    integer [p // q], marked ['Z'], when [q] divides [p], and otherwise
    the fraction [mpq((p, q))] with the numerator and the denominator
    given (it is not reduced to lowest terms), marked ['Q'].  A zero
    denominator raises [ZeroDivisionError]. *)
Theorem convert_maybe_rational_pair (ctx : context) (p q : Z) :
  (q = 0 ->
   convert_maybe_rational ctx (PyTuple [PyInt p; PyInt q])
     = Raise (ZeroDivisionError "integer division or modulo by zero")) /\
  (q <> 0 -> (q | p) ->
   exists n, convert_maybe_rational ctx (PyTuple [PyInt p; PyInt q])
               = Return (PyInt n, "Z"%char) /\ n * q = p) /\
  (q <> 0 -> ~ (q | p) ->
   convert_maybe_rational ctx (PyTuple [PyInt p; PyInt q])
     = Return (PyMpq p q, "Q"%char)).
Proof.
  unfold convert_maybe_rational. simpl. repeat split.
  - intros ->. done.
  - intros Hq Hdiv. destruct (q =? 0) eqn:Hq0; [lia|].
    apply Z.mod_divide in Hdiv; [|done]. rewrite Hdiv. simpl.
    eexists. split; [done|].
    pose proof (Z.div_mod p q Hq). lia.
  - intros Hq Hdiv. destruct (q =? 0) eqn:Hq0; [lia|].
    destruct (p mod q =? 0) eqn:Hr; [|done].
    exfalso. apply Hdiv. apply Z.mod_divide; [done|lia].
Qed.

End MaybeRationalExtras.

Section MagExtras.
Context {K : Kernel} `{!BitcountContract K}.

(** ** Magnitudes *)

Lemma bitcount_ge_1 n : 0 < n -> 1 <= bitcount n.
Proof.
  intros Hn. destruct (bitcount_bounds n Hn) as [_ Hlt].
  destruct (Z.le_gt_cases 1 (bitcount n)) as [|Hb]; [done|].
  assert (2 ^ bitcount n <= 2 ^ 0).
  { destruct (Z.le_gt_cases 0 (bitcount n));
      [apply Z.pow_le_mono_r; lia|rewrite Z.pow_neg_r; simpl; lia]. }
  simpl in *. lia.
Qed.

(** X15.  [mag] bounds its argument by a power of two.  For a nonzero
    native integer [n] it returns the [m] with [2^(m-1) <= |n| < 2^m]; for
    a fraction [p/q] with nonzero [p] and [q] it returns an [m] with
    [2^(m-2) <= |p/q| < 2^m], so the estimate is never off by more than
    two; and an integer or a fraction that is zero gives [-inf]. *)
Theorem mag_bounds (ctx : context) :
  (forall n, n <> 0 ->
     exists m, mag ctx (PyInt n) = Return (Fin m) /\
               2 ^ (m - 1) <= Z.abs n < 2 ^ m) /\
  (forall p q, p <> 0 -> q <> 0 ->
     exists m, mag ctx (PyMpq p q) = Return (Fin m) /\
               below_pow2 (Z.abs p) (Z.abs q) m /\
               at_least_pow2 (Z.abs p) (Z.abs q) (m - 2)) /\
  mag ctx (PyInt 0) = Return NInf /\
  (forall q, mag ctx (PyMpq 0 q) = Return NInf).
Proof.
  unfold mag. simpl. repeat split; try done.
  - intros n Hn. destruct (n =? 0) eqn:Hn0; [lia|]. simpl.
    eexists. split; [done|]. apply bitcount_bounds. lia.
  - intros p q Hp Hq. destruct (p =? 0) eqn:Hp0; [lia|]. simpl.
    eexists. split; [done|].
    pose proof (bitcount_bounds (Z.abs p) ltac:(lia)) as [Hp1 Hp2].
    pose proof (bitcount_bounds (Z.abs q) ltac:(lia)) as [Hq1 Hq2].
    pose proof (bitcount_ge_1 (Z.abs p) ltac:(lia)) as Hbp.
    pose proof (bitcount_ge_1 (Z.abs q) ltac:(lia)) as Hbq.
    set (bp := bitcount (Z.abs p)) in *. set (bq := bitcount (Z.abs q)) in *.
    set (P := Z.abs p) in *. set (Q := Z.abs q) in *.
    unfold below_pow2, at_least_pow2. split.
    + destruct (Z.le_gt_cases 0 (1 + bp - bq)) as [Hm|Hm].
      * rewrite Z.max_l, Z.max_r by lia. simpl.
        assert (Heq : 2 ^ bp = 2 ^ (1 + bp - bq) * 2 ^ (bq - 1))
          by (rewrite <- Z.pow_add_r by lia; f_equal; lia).
        assert (0 < 2 ^ (1 + bp - bq)) by (apply Z.pow_pos_nonneg; lia).
        nia.
      * rewrite Z.max_r, Z.max_l by lia.
        assert (Heq : 2 ^ (bq - 1) = 2 ^ bp * 2 ^ (- (1 + bp - bq)))
          by (rewrite <- Z.pow_add_r by lia; f_equal; lia).
        assert (0 < 2 ^ (- (1 + bp - bq))) by (apply Z.pow_pos_nonneg; lia).
        nia.
    + replace (1 + bp - bq - 2) with (bp - bq - 1) by lia.
      destruct (Z.le_gt_cases 0 (bp - bq - 1)) as [Hm|Hm].
      * rewrite Z.max_r, Z.max_l by lia. simpl.
        assert (Heq : 2 ^ (bp - 1) = 2 ^ bq * 2 ^ (bp - bq - 1))
          by (rewrite <- Z.pow_add_r by lia; f_equal; lia).
        assert (0 < 2 ^ (bp - bq - 1)) by (apply Z.pow_pos_nonneg; lia).
        nia.
      * rewrite Z.max_l, Z.max_r by lia.
        assert (Heq : 2 ^ bq = 2 ^ (bp - 1) * 2 ^ (- (bp - bq - 1)))
          by (rewrite <- Z.pow_add_r by lia; f_equal; lia).
        assert (0 < 2 ^ (- (bp - bq - 1))) by (apply Z.pow_pos_nonneg; lia).
        nia.
Qed.

End MagExtras.

Section OperatorExtras.
Context {K : Kernel} {A : ArithKernel}.

(** ** Operators *)

Lemma convert_unparsed_tower (ctx : context) (x y : pyval) :
  convert ctx x false = Return y -> in_ctx_types y = true.
Proof.
  intros Hconv.
  assert (Hcases : (exists s, x = PyStr s) \/ forall s, x <> PyStr s).
  { destruct x; try (by right); left; by eexists. }
  destruct Hcases as [[s ->]|Hns]; [|by apply (convert_tower ctx false x y)].
  unfold convert in Hconv. simpl in Hconv.
  by destruct (_prec_rounding ctx).
Qed.

(** X16.  Every binary method of [_mpf] built from the template declines
    an operand that is a string, [None], a tuple, an object of another
    class or an interval: it returns [NotImplemented] and raises
    nothing, and in particular it never parses a string. *)
Theorem mpf_binary_op_declines (depth : nat) (op : binop) (ctx : context)
    (s : mpf_t) :
  (forall t, mpf_binary_op (S depth) op ctx (Vmpf s) (PyStr t)
             = Return OpNotImplemented) /\
  (forall i, mpf_binary_op (S depth) op ctx (Vmpf s) (Vmpi i)
             = Return OpNotImplemented) /\
  (forall l, mpf_binary_op (S depth) op ctx (Vmpf s) (PyTuple l)
             = Return OpNotImplemented) /\
  (forall name, mpf_binary_op (S depth) op ctx (Vmpf s) (PyObject name)
                = Return OpNotImplemented) /\
  mpf_binary_op (S depth) op ctx (Vmpf s) PyNone = Return OpNotImplemented.
Proof.
  repeat split; intros; simpl; unfold convert; simpl;
    by destruct (_prec_rounding ctx).
Qed.

(** X17.  The template calls itself at most once: beyond two levels the
    recursion limit has no influence on the result.  An [mpq] operand is
    the case that takes the second level; it is first rounded to the
    working precision by [from_rational], and the method then runs its
    code for two reals. *)
Theorem mpf_binary_op_converts_once (depth : nat) (op : binop)
    (ctx : context) (self other : pyval) :
  mpf_binary_op (S (S depth)) op ctx self other
    = mpf_binary_op 2 op ctx self other /\
  forall s p q,
    mpf_binary_op (S (S depth)) op ctx (Vmpf s) (PyMpq p q)
      = with_mpf op ctx s (from_rational p q (fst (_prec_rounding ctx))).
Proof.
  split.
  - simpl. destruct (get_mpf ctx self) as [sval|]; [|done].
    destruct (mpf_operand op ctx sval other) as [r|]; [done|].
    destruct (in_ctx_types other); [done|].
    destruct (convert ctx other false) as [y|e] eqn:Hconv; [|done].
    apply convert_unparsed_tower in Hconv.
    destruct depth as [|depth]; [done|]. simpl.
    destruct (mpf_operand op ctx sval y) as [r|] eqn:Hop; [done|].
    by rewrite Hconv.
  - intros s p q. simpl. unfold convert. simpl.
    by destruct (_prec_rounding ctx).
Qed.

(** X18.  A real plus a complex number is a complex number, and the
    order of the operands does not matter: [x + z] and [z + x] both end
    in the one kernel call [mpc_add_mpf(z, x, prec, rounding)] at the
    working precision. *)
Theorem py_add_real_complex (depth : nat) (ctx : context) (x : mpf_t)
    (z : mpc_t) :
  py_add (S depth) ctx (Vmpf x) (Vmpc z) =
    make_mpc <$> mpc_add_mpf z x (fst (_prec_rounding ctx))
                   (snd (_prec_rounding ctx)) /\
  py_add (S depth) ctx (Vmpc z) (Vmpf x) =
    make_mpc <$> mpc_add_mpf z x (fst (_prec_rounding ctx))
                   (snd (_prec_rounding ctx)).
Proof.
  unfold py_add, add_method, mpc___add__, mpc_binary, mpc_convert_lhs. simpl.
  unfold with_mpc, op_mpc.
  destruct (_prec_rounding ctx) as [prec rounding]. simpl.
  split; by destruct (mpc_add_mpf z x prec rounding).
Qed.

(** X19.  A real plus an interval is an interval, in either order.  The
    method of the real declines, the method of the interval turns the
    real [x] into the interval [mpi(x)] (its value rounded down and up to
    the working precision), and both [x + i] and [i + x] end in the kernel
    call [mpi_add(i, mpi(x), prec)]. *)
Theorem py_add_real_interval (depth : nat) (ctx : context) (x : mpf_t)
    (i o : mpi_t) :
  mpi_new ctx (Vmpf x) None = Return (Vmpi o) ->
  py_add (S depth) ctx (Vmpf x) (Vmpi i)
    = make_mpi <$> mpi_add i o (prec ctx) /\
  py_add (S depth) ctx (Vmpi i) (Vmpf x)
    = make_mpi <$> mpi_add i o (prec ctx).
Proof.
  intros Hnew. unfold py_add, add_method, mpi___add__.
  rewrite Hnew. simpl.
  split; by destruct (mpi_add i o (prec ctx)).
Qed.

(** X20.  A complex number and an interval cannot be added, and the two
    orders fail differently: [z + i] raises [AttributeError] inside
    [_mpc.__add__], which looks for [_mpc_] on the interval, and [i + z]
    raises the [TypeError] of [mpf(z)] inside the interval
    constructor. *)
Theorem py_add_complex_interval (depth : nat) (ctx : context) (z : mpc_t)
    (i : mpi_t) :
  py_add depth ctx (Vmpc z) (Vmpi i) = Raise (AttributeError "_mpc_") /\
  py_add depth ctx (Vmpi i) (Vmpc z)
    = Raise (TypeError "cannot create mpf from").
Proof.
  unfold py_add, add_method, mpc___add__, mpc_binary, mpc_convert_lhs,
    mpi___add__, mpi_new, mpf_new, prec_rounding_of. simpl.
  by destruct (_prec_rounding ctx).
Qed.

(** X21.  Strings are operands of complex arithmetic but not of real
    arithmetic.  For a string [t] that [from_str] reads as [v]:
    [z + t] is the complex sum of [z] and [v], [x + t] on a real [x] is a
    [TypeError] (the method of the real declines and a string has no
    method for it), and [z == t] is false without the string being
    read. *)
Theorem strings_as_operands (depth : nat) (ctx : context) (x : mpf_t)
    (z : mpc_t) (t : string) (v : mpf_t) :
  from_str t (fst (_prec_rounding ctx)) (snd (_prec_rounding ctx)) = Return v ->
  py_add (S depth) ctx (Vmpc z) (PyStr t) =
    make_mpc <$> mpc_add_mpf z v (fst (_prec_rounding ctx))
                   (snd (_prec_rounding ctx)) /\
  py_add (S depth) ctx (Vmpf x) (PyStr t)
    = Raise (TypeError "unsupported operand type(s) for +") /\
  mpc___eq__ ctx z (PyStr t) = Return (OpBool false).
Proof.
  intros Hstr.
  unfold py_add, add_method, mpc___add__, mpc_binary, mpc_convert_lhs. simpl.
  unfold convert. simpl.
  destruct (_prec_rounding ctx) as [prec rounding]. simpl in *.
  rewrite Hstr. simpl. repeat split.
  unfold op_mpc. by destruct (mpc_add_mpf z v prec rounding).
Qed.

(** ** Functions of the context *)

(** X22.  [trap_complex] is honoured by [_nthroot] and ignored by [_agm].
    When the real kernel routine raises [ComplexResult] on real
    arguments and [trap_complex] is set, [_nthroot] raises the exception
    again, whereas [_agm] swallows it and returns the complex mean. *)
Theorem agm_ignores_trap_complex (ctx : context) (a b : mpf_t) (n : Z)
    (msg msg' : string) :
  trap_complex ctx = true ->
  mpf_nthroot a n (fst (_prec_rounding ctx)) (snd (_prec_rounding ctx))
    = Raise (ComplexResult msg) ->
  mpf_agm a b (fst (_prec_rounding ctx)) (snd (_prec_rounding ctx))
    = Raise (ComplexResult msg') ->
  _nthroot ctx (Vmpf a) n = Raise (ComplexResult msg) /\
  _agm ctx (Vmpf a) (Vmpf b) =
    make_mpc <$> mpc_agm (a, fzero) (b, fzero) (fst (_prec_rounding ctx))
                   (snd (_prec_rounding ctx)).
Proof.
  intros Htrap Hroot Hagm. unfold _nthroot, _agm. simpl.
  destruct (_prec_rounding ctx) as [prec rounding]. simpl in *.
  by rewrite Hroot, Hagm, Htrap.
Qed.

(** X23.  The default [b=1] of [_agm] cannot be used: the native integer
    has neither [_mpf_] nor [_mpc_], so a call that leaves [b] out raises
    [AttributeError] for every first argument. *)
Theorem agm_default_unusable (ctx : context) (a : pyval) :
  _agm ctx a (PyInt 1) = Raise (AttributeError "_mpc_").
Proof.
  unfold _agm, agm_operand. simpl.
  destruct (_prec_rounding ctx) as [prec rounding].
  destruct (get_mpf ctx a); [done|]. by destruct a.
Qed.

(** X24.  [isint] answers false for every complex number, every native
    complex and every interval, whatever their value, and for everything
    that [convert] rejects; it raises nothing there.  A fraction is
    judged after [convert] has rounded it to the working precision: the
    branch of the method for an [mpq] is never reached by one. *)
Theorem isint_not_real (ctx : context) :
  (forall z, isint ctx (Vmpc z) = Return false) /\
  (forall re im, isint ctx (PyComplex re im) = Return false) /\
  (forall i, isint ctx (Vmpi i) = Return false) /\
  (forall x e, (forall n, x <> PyInt n) -> convert ctx x true = Raise e ->
     isint ctx x = Return false) /\
  (forall p q, isint ctx (PyMpq p q) =
     isint ctx (Vmpf (from_rational p q (fst (_prec_rounding ctx))))).
Proof.
  repeat split; try done.
  - intros x e Hx Hconv. unfold isint. rewrite Hconv.
    destruct x; try done; by destruct (Hx n).
  - intros p q. unfold isint, convert. simpl.
    by destruct (_prec_rounding ctx).
Qed.

(** X25.  [fdiv] refuses an exact division before it looks at its
    operands: with [exact=True], or with [prec=0], it raises the
    [ValueError] for every pair of arguments, numbers or not.  [fneg]
    accepts [exact=True] and calls the kernel with the precision 0. *)
Theorem fdiv_refuses_exact (ctx : context) (x y : pyval)
    (kwargs : parse_kwargs) :
  pk_exact kwargs = true \/ pk_prec kwargs = Some 0 ->
  fdiv ctx x y kwargs = Raise (ValueError "division is not an exact operation")
  /\
  (pk_exact kwargs = true ->
   forall v, fneg ctx (Vmpf v) kwargs = make_mpf <$> mpf_neg v 0 round_code_f).
Proof.
  intros Hkw. split.
  - unfold fdiv, _parse_prec.
    destruct (pk_exact kwargs); [done|].
    destruct Hkw as [|Hp]; [done|]. rewrite Hp.
    destruct (_prec_rounding ctx) as [prec rounding].
    by destruct (mpf_eq finf (from_int 0)).
  - intros He v. unfold fneg, _parse_prec. by rewrite He.
Qed.

(** X26.  The keywords [prec] and [dps] given together are read
    differently by the two families of functions: [_parse_prec], behind
    [fneg], [fadd] and the like, takes [prec] and ignores [dps], while the
    override of [mpf(...)] and of the functions of [def_mp_function]
    lets [dps] win. *)
Theorem prec_and_dps_precedence (ctx : context) (p d : Z)
    (r : option rounding) :
  mpf_eq finf (from_int p) = false ->
  fst (_parse_prec ctx {| pk_exact := false; pk_rounding := r;
                          pk_prec := Some p; pk_dps := Some d |}) = p /\
  fst (prec_rounding_of ctx {| kw_prec := Some p; kw_dps := Some d;
                               kw_rounding := r |}) = dps_to_prec d.
Proof.
  intros Hfin. unfold _parse_prec, prec_rounding_of. simpl.
  destruct (_prec_rounding ctx) as [prec rounding]. by rewrite Hfin.
Qed.

End OperatorExtras.

(** ** The reference kernel on concrete inputs *)

#[global] Instance Ref_bitcount_contract : BitcountContract Ref.kernel.
Proof.
  constructor. intros n Hn. simpl. unfold Ref.bitcount.
  destruct (n =? 0) eqn:Hn0; [lia|].
  rewrite Z.abs_eq by lia.
  replace (Z.log2 n + 1 - 1) with (Z.log2 n) by lia.
  replace (Z.log2 n + 1) with (Z.succ (Z.log2 n)) by lia.
  by apply Z.log2_spec.
Qed.

(** A block at 100 bits inside a block of ten more bits, with a body that
    raises: the exception comes out and the context is back at 53
    bits. *)
Lemma nested_blocks_restore_witness :
  (with_stmt (K := Ref.kernel) 0 (with_stmt 1 (raise (A := unit) (ValueError "stop")))
     {| w_ctx := init_context;
        w_heap := <[1%nat := workprec 100 false]>
                    {[ 0%nat := extraprec 10 false ]} |}).1
    = Raise (ValueError "stop") /\
  prec (w_ctx (with_stmt (K := Ref.kernel) 0
                 (with_stmt 1 (raise (A := unit) (ValueError "stop")))
     {| w_ctx := init_context;
        w_heap := <[1%nat := workprec 100 false]>
                    {[ 0%nat := extraprec 10 false ]} |}).2) = 53.
Proof.
  refine (nested_blocks_restore (K := Ref.kernel) (A := unit) 0 1
            (raise (A := unit) (ValueError "stop"))
            {| w_ctx := init_context;
               w_heap := <[1%nat := workprec 100 false]>
                           {[ 0%nat := extraprec 10 false ]} |}
            (extraprec 10 false) (workprec 100 false) _ _ _ _ _ _ _).
  - lia.
  - reflexivity.
  - reflexivity.
  - reflexivity.
  - reflexivity.
  - vm_compute. discriminate.
  - intros mgr w1. reflexivity.
Defined.

(** A decorated function that sets the precision to 7 bits and raises:
    the caller gets the exception, at 53 bits. *)
Lemma decorated_call_restores_witness :
  prec (w_ctx (decorated (K := Ref.kernel) 0
                 (fun w => (Raise (ValueError "stop"),
                            set_ctx w (set_prec (w_ctx w) 7)))
                 {| w_ctx := init_context;
                    w_heap := {[ 0%nat := workdps 30 false ]} |}).2) = 53 /\
  (decorated (K := Ref.kernel) 0
     (fun w => (Raise (ValueError "stop"), set_ctx w (set_prec (w_ctx w) 7)))
     {| w_ctx := init_context;
        w_heap := {[ 0%nat := workdps 30 false ]} |}).1
    = Raise (ValueError "stop").
Proof.
  pose proof (decorated_call_restores (K := Ref.kernel) 0
            (fun w => (Raise (ValueError "stop"),
                       set_ctx w (set_prec (w_ctx w) 7)))
            {| w_ctx := init_context;
               w_heap := {[ 0%nat := workdps 30 false ]} |}
            (workdps 30 false) eq_refl ltac:(vm_compute; discriminate))
    as [Hprec Hres].
  split; [exact Hprec|]. exact (Hres eq_refl eq_refl).
Defined.

(** The real [2^70 + 1] returned under [extraprec(20, normalize_output
    True)] at 53 bits: it is rounded to 73 bits, which keep it, and not
    to 53. *)
Lemma decorated_normalizes_in_scope_witness :
  (decorated (K := Ref.kernel) 0
     (fun w => (Return (Vmpf (Ref.from_int (2 ^ 70 + 1))), w))
     {| w_ctx := init_context;
        w_heap := {[ 0%nat := extraprec 20 true ]} |}).1
    = Return (Vmpf (Ref.from_int (2 ^ 70 + 1))) /\
  prec (w_ctx (decorated (K := Ref.kernel) 0
     (fun w => (Return (Vmpf (Ref.from_int (2 ^ 70 + 1))), w))
     {| w_ctx := init_context;
        w_heap := {[ 0%nat := extraprec 20 true ]} |}).2) = 53.
Proof.
  refine (decorated_normalizes_in_scope (K := Ref.kernel) 0 20
            (fun w => (Return (Vmpf (Ref.from_int (2 ^ 70 + 1))), w))
            {| w_ctx := init_context;
               w_heap := {[ 0%nat := extraprec 20 true ]} |}
            (Ref.from_int (2 ^ 70 + 1)) _ _ _).
  - reflexivity.
  - vm_compute. discriminate.
  - intros w1. exists w1. split; reflexivity.
Defined.

(** The same real returned by a wrapped special function at 53 bits: the
    function ran at 63 bits, and the result is rounded to 53 bits, to
    [2^70]. *)
Lemma f_wrapped_restores_witness :
  prec (w_ctx (f_wrapped (K := Ref.kernel)
                 (fun _ w => (Return (Vmpf (Ref.from_int (2 ^ 70 + 1))), w))
                 [PyInt 1]
                 {| w_ctx := init_context; w_heap := ∅ |}).2) = 53 /\
  (f_wrapped (K := Ref.kernel)
     (fun _ w => (Return (Vmpf (Ref.from_int (2 ^ 70 + 1))), w)) [PyInt 1]
     {| w_ctx := init_context; w_heap := ∅ |}).1
    = Return (Vmpf (Ref.from_int (2 ^ 70))).
Proof.
  pose proof (f_wrapped_restores (K := Ref.kernel)
            (fun _ w => (Return (Vmpf (Ref.from_int (2 ^ 70 + 1))), w))
            [PyInt 1] {| w_ctx := init_context; w_heap := ∅ |}
            ltac:(vm_compute; discriminate)) as (Hprec & _ & Hres).
  split; [exact Hprec|].
  rewrite (Hres _ _ _ eq_refl eq_refl). reflexivity.
Defined.

(** The zero sum [1 - 3 + 3 - 1] without [zeroprec]: six calls of the
    summator, from 103 bits up to 1808, below the ceiling of 53 + 2212
    bits. *)
Lemma hypsum_call_precisions_witness :
  (exists e0, 50 <= e0 /\
     forall k wp, [103; 158; 268; 488; 928; 1808] !! k = Some wp ->
       wp = 53 + Nat.iter k (fun e => e * 2 + 5) e0 /\ wp <= 53 + 2212) /\
  (is_raise (A := pyval) (Raise (HypsumValueError 53 3568)) = false ->
   [103; 158; 268; 488; 928; 1808] <> []).
Proof.
  refine (hypsum_call_precisions (K := Ref.kernel) 7 init_context [] 1 0
            Zflag [PyInt (-3)] (Vmpf (Ref.from_int 1)) true no_hyp_kwargs
            {| hr_result := Raise (HypsumValueError 53 3568);
               hr_summators :=
                 [((1, 0, Zflag, "R"%char),
                   Ref.hyp_summator (1, 0, Zflag, "R"%char))];
               hr_calls := [103; 158; 268; 488; 928; 1808] |} _).
  by vm_compute.
Defined.

(** The binomial sum on an empty memo: the summator of the key
    [(1, 0, ['Z'], 'R')] is built and stored, and a second call with
    another coefficient finds it there. *)
Lemma hypsum_memo_grows_witness :
  let memo := [((1, 0, Zflag, "R"%char),
                Ref.hyp_summator (1, 0, Zflag, "R"%char))] in
  (forall key s, lookup_summator key [] = Some s ->
     lookup_summator key memo = Some s) /\
  (lookup_summator (1, 0, Zflag, "R"%char) [] = None ->
   memo = ((1, 0, Zflag, "R"%char),
           make_hyp_summator (HypKernel := Ref.hyp_kernel)
             (1, 0, Zflag, "R"%char)) :: []) /\
  (forall fuel' coeffs' accurate_small' kwargs' run',
     hypsum (K := Ref.kernel) fuel' init_context memo 1 0 Zflag coeffs'
       (Vmpf (Ref.from_int (-1))) accurate_small' kwargs' = Some run' ->
     hr_summators run' = memo).
Proof.
  refine (hypsum_memo_grows (K := Ref.kernel) 1 init_context [] 1 0 Zflag
            [PyInt (-3)] (Vmpf (Ref.from_int (-1))) true no_hyp_kwargs
            {| hr_result := Return (Vmpf (Ref.from_int 8));
               hr_summators :=
                 [((1, 0, Zflag, "R"%char),
                   Ref.hyp_summator (1, 0, Zflag, "R"%char))];
               hr_calls := [103] |}
            "R"%char (KReal (Ref.from_int (-1))) _ _).
  - by vm_compute.
  - reflexivity.
Defined.

(** The nearest integer of [7/2] as [nint_distance] returns it. *)
Lemma nint_distance_mpq_nearest_witness :
  exists n d, nint_distance (K := Ref.kernel) init_context (PyMpq 7 2)
                = Return (n, d) /\
    2 * Z.abs (7 - n * 2) <= 2 /\ (d = NInf <-> (2 | 7)).
Proof.
  exact (nint_distance_mpq_nearest (K := Ref.kernel) init_context 7 2
           ltac:(lia)).
Defined.

(** The kernel real [5 * 2^-1]. *)
Lemma nint_distance_mpf_nearest_witness :
  exists n d, nint_distance (K := Ref.kernel) init_context
                (Vmpf (Mpf 0 5 (-1) 3)) = Return (n, d) /\
    Z.abs (2 * smant (Mpf 0 5 (-1) 3) * 2 ^ Z.max 0 (-1)
           - 2 * n * 2 ^ Z.max 0 (- -1)) <= 2 ^ Z.max 0 (- -1).
Proof.
  exact (nint_distance_mpf_nearest (K := Ref.kernel) init_context
           (Mpf 0 5 (-1) 3) ltac:(simpl; lia) ltac:(simpl; lia)).
Defined.

(** The fraction [1/3], converted at 53 bits: the real that comes back is
    returned unchanged by every later conversion. *)
Lemma convert_idempotent_witness :
  in_ctx_types (Vmpf (Ref.from_rational 1 3 53)) = true /\
  forall ctx' strings',
    convert (K := Ref.kernel) ctx' (Vmpf (Ref.from_rational 1 3 53)) strings'
      = Return (Vmpf (Ref.from_rational 1 3 53)).
Proof.
  refine (convert_idempotent (K := Ref.kernel) init_context true (PyMpq 1 3)
            (Vmpf (Ref.from_rational 1 3 53)) _ _).
  - intros s. discriminate.
  - reflexivity.
Defined.

(** The kernel real [-3]. *)
Lemma isnpint_mpf_correct_witness :
  exists b, isnpint (K := Ref.kernel) 1 init_context (Vmpf (Mpf 1 3 0 2))
              = Return b /\
    (b = true <-> exists n, n <= 0 /\ mpf_is_rational (Mpf 1 3 0 2) n 1).
Proof.
  refine (isnpint_mpf_correct (K := Ref.kernel) 0 init_context (Mpf 1 3 0 2)
            _ _ _).
  - simpl. lia.
  - reflexivity.
  - discriminate.
Defined.


(** The bounds of [mag] under the reference kernel. *)
Lemma mag_bounds_witness :
  (forall n, n <> 0 ->
     exists m, mag (K := Ref.kernel) init_context (PyInt n) = Return (Fin m) /\
               2 ^ (m - 1) <= Z.abs n < 2 ^ m) /\
  (forall p q, p <> 0 -> q <> 0 ->
     exists m, mag (K := Ref.kernel) init_context (PyMpq p q)
                 = Return (Fin m) /\
               below_pow2 (Z.abs p) (Z.abs q) m /\
               at_least_pow2 (Z.abs p) (Z.abs q) (m - 2)) /\
  mag (K := Ref.kernel) init_context (PyInt 0) = Return NInf /\
  (forall q, mag (K := Ref.kernel) init_context (PyMpq 0 q) = Return NInf).
Proof.
  exact (mag_bounds (K := Ref.kernel) init_context).
Defined.

(** [1 + [1, 2]] and [[1, 2] + 1] are the interval [[2, 3]]. *)
Lemma py_add_real_interval_witness :
  py_add (K := Ref.kernel) (A := RefArith.arith) 1 init_context
    (Vmpf (Ref.from_int 1)) (Vmpi (Ref.from_int 1, Ref.from_int 2))
    = Return (Vmpi (Ref.from_int 2, Ref.from_int 3)) /\
  py_add (K := Ref.kernel) (A := RefArith.arith) 1 init_context
    (Vmpi (Ref.from_int 1, Ref.from_int 2)) (Vmpf (Ref.from_int 1))
    = Return (Vmpi (Ref.from_int 2, Ref.from_int 3)).
Proof.
  exact (py_add_real_interval (K := Ref.kernel) (A := RefArith.arith) 0
           init_context (Ref.from_int 1) (Ref.from_int 1, Ref.from_int 2)
           (Ref.from_int 1, Ref.from_int 1) eq_refl).
Defined.

(** The complex [1 + 2j] and the string ['2']. *)
Lemma strings_as_operands_witness :
  py_add (K := Ref.kernel) (A := RefArith.arith) 1 init_context
    (Vmpc (Ref.from_int 1, Ref.from_int 2)) (PyStr "2")
    = Return (Vmpc (Ref.from_int 3, Ref.from_int 2)) /\
  py_add (K := Ref.kernel) (A := RefArith.arith) 1 init_context
    (Vmpf (Ref.from_int 1)) (PyStr "2")
    = Raise (TypeError "unsupported operand type(s) for +") /\
  mpc___eq__ (K := Ref.kernel) (A := RefArith.arith) init_context
    (Ref.from_int 1, Ref.from_int 2) (PyStr "2") = Return (OpBool false).
Proof.
  exact (strings_as_operands (K := Ref.kernel) (A := RefArith.arith) 0
           init_context (Ref.from_int 1) (Ref.from_int 1, Ref.from_int 2)
           "2" (Ref.from_int 2) eq_refl).
Defined.

(** With [trap_complex] set: the square root of [-4] raises, the mean of
    [-4] and [4] is the complex zero. *)
Lemma agm_ignores_trap_complex_witness :
  _nthroot (K := Ref.kernel) (A := RefArith.arith)
    (set_trap_complex init_context true) (Vmpf (Ref.from_int (-4))) 2
    = Raise (ComplexResult "square root of a negative number") /\
  _agm (K := Ref.kernel) (A := RefArith.arith)
    (set_trap_complex init_context true)
    (Vmpf (Ref.from_int (-4))) (Vmpf (Ref.from_int 4))
    = Return (Vmpc (Ref.fzero, Ref.fzero)).
Proof.
  exact (agm_ignores_trap_complex (K := Ref.kernel) (A := RefArith.arith)
           (set_trap_complex init_context true) (Ref.from_int (-4))
           (Ref.from_int 4) 2 "square root of a negative number"
           "agm of a negative and a positive number" eq_refl eq_refl eq_refl).
Defined.

(** [fdiv(2, 3, exact=True)] and [fneg(3, exact=True)]. *)
Lemma fdiv_refuses_exact_witness :
  fdiv (K := Ref.kernel) (A := RefArith.arith) init_context (PyInt 2)
    (PyInt 3) {| pk_exact := true; pk_rounding := None; pk_prec := None;
                 pk_dps := None |}
    = Raise (ValueError "division is not an exact operation") /\
  fneg (K := Ref.kernel) (A := RefArith.arith) init_context
    (Vmpf (Ref.from_int 3))
    {| pk_exact := true; pk_rounding := None; pk_prec := None;
       pk_dps := None |}
    = Return (Vmpf (Ref.from_int (-3))).
Proof.
  pose proof (fdiv_refuses_exact (K := Ref.kernel) (A := RefArith.arith)
                init_context (PyInt 2) (PyInt 3)
                {| pk_exact := true; pk_rounding := None; pk_prec := None;
                   pk_dps := None |} (or_introl eq_refl)) as [Hdiv Hneg].
  split; [exact Hdiv|]. exact (Hneg eq_refl (Ref.from_int 3)).
Defined.

(** [prec=10] with [dps=3]: ten bits for [_parse_prec], thirteen for the
    override of [mpf]. *)
Lemma prec_and_dps_precedence_witness :
  fst (_parse_prec (K := Ref.kernel) (A := RefArith.arith) init_context
         {| pk_exact := false; pk_rounding := None;
            pk_prec := Some 10; pk_dps := Some 3 |}) = 10 /\
  fst (prec_rounding_of (K := Ref.kernel) init_context
         {| kw_prec := Some 10; kw_dps := Some 3; kw_rounding := None |})
    = 13.
Proof.
  exact (prec_and_dps_precedence (K := Ref.kernel) (A := RefArith.arith)
           init_context 10 3 None eq_refl).
Defined.
